(** * alx-polly: vote casting and poll life cycle

    A shallow embedding of the polling application's consistency logic:
    the validation helpers ([app/lib/validation.ts]), the error model
    ([error-handler.ts]), the relational schema with its views and stored
    functions ([supabase-schema.sql]), the [PollService] class, the API
    route handlers, the browser client ([app/lib/poll-actions.ts]) and the
    edit form, followed by the properties proved about them.

    Conventions.
    - Identifiers are UUIDs rendered as text, and every id named here
      stands for one: the id columns of the store are of type [UUID], and
      a text that is no UUID is refused by the store when it is compared
      with such a column, which is one of the refusals of a request that
      the environment stands for.  Texts are [string]s whose characters
      are read as code points below 256.
    - Instants (JavaScript [Date]s, SQL [TIMESTAMP WITH TIME ZONE]) are
      integers on one common time line.
    - Tables are lists of rows, in insertion order.
    - A handler sends its requests to the store one after the other; the
      store carries each request out as one statement or refuses it.  The
      session that the browser client holds is passed to the operations of
      the service as their [credential]. *)

From Stdlib Require Import ZArith List String Ascii Bool Arith Lia.
From Stdlib Require Import DecimalString DecimalNat.
From Stdlib Require Import Permutation Sorted.
Import ListNotations.

Local Open Scope string_scope.
Local Open Scope list_scope.

(** ** JavaScript string primitives used by the validators *)

Module Js.

(** White space removed by [String.prototype.trim], restricted to the
    code points below 256: TAB, LF, VT, FF, CR, SPACE and NBSP. *)
Definition is_space (c : ascii) : bool :=
  let n := nat_of_ascii c in
  (((9 <=? n) && (n <=? 13)) || (n =? 32) || (n =? 160))%nat.

Fixpoint trimStart (s : string) : string :=
  match s with
  | EmptyString => EmptyString
  | String c r => if is_space c then trimStart r else s
  end.

(** Drops the trailing white space: a character is kept when it is not a
    space or when something survives to its right. *)
Fixpoint trimEnd (s : string) : string :=
  match s with
  | EmptyString => EmptyString
  | String c r =>
      match trimEnd r with
      | EmptyString => if is_space c then EmptyString else String c EmptyString
      | r' => String c r'
      end
  end.

Definition trim (s : string) : string := trimEnd (trimStart s).

(** [toLowerCase] on the code points below 256: the letters A to Z and
    the capital letters U+00C0 to U+00DE (the multiplication sign U+00D7
    is no letter) go to the code point 32 above; every other character,
    the sharp s and the micro sign among them, is its own lower case. *)
Definition lower_char (c : ascii) : ascii :=
  let n := nat_of_ascii c in
  if (((65 <=? n) && (n <=? 90))
      || ((192 <=? n) && (n <=? 222) && negb (n =? 215)))%nat
  then ascii_of_nat (n + 32) else c.

Fixpoint toLowerCase (s : string) : string :=
  match s with
  | EmptyString => EmptyString
  | String c r => String (lower_char c) (toLowerCase r)
  end.

(** Truthiness of a string value: only the empty string is falsy. *)
Definition truthy (s : string) : bool :=
  match s with EmptyString => false | _ => true end.

Fixpoint startsWith (prefix s : string) : bool :=
  match prefix, s with
  | EmptyString, _ => true
  | String a p, String b r => Ascii.eqb a b && startsWith p r
  | String _ _, EmptyString => false
  end.

(** Template rendering of an array index. *)
Definition show_nat (n : nat) : string :=
  NilEmpty.string_of_uint (Nat.to_uint n).

(** Size of [new Set(xs)] for strings. *)
Definition set_size (xs : list string) : nat :=
  List.length (nodup string_dec xs).

(** The character class of [/^[a-zA-Z0-9-_]+$/]. *)
Definition id_char (c : ascii) : bool :=
  let n := nat_of_ascii c in
  (((97 <=? n) && (n <=? 122)) || ((65 <=? n) && (n <=? 90))
   || ((48 <=? n) && (n <=? 57)) || (n =? 45) || (n =? 95))%nat.

Fixpoint all_chars (f : ascii -> bool) (s : string) : bool :=
  match s with
  | EmptyString => true
  | String c r => f c && all_chars f r
  end.

Definition id_regex_test (s : string) : bool :=
  truthy s && all_chars id_char s.

End Js.

(** ** Validation ([app/lib/validation.ts]) *)

(** A field-scoped violation: the [ValidationError] interface. *)
Record FieldError := mkFieldError { field : string; message : string }.

(** The time readings an operation takes from its runtime: [now] is what
    [new Date()] returns, and [oneYearFromNow] is the instant obtained by
    [setFullYear(now.getFullYear() + 1)], whose calendar arithmetic belongs
    to the JavaScript runtime and its local time zone. *)
Record clock := mkClock { now : Z; oneYearFromNow : Z }.

Record CreatePollRequest := mkCreatePollRequest {
  req_title : string;
  req_description : option string;
  req_options : list string;
  req_expiresAt : option Z
}.

Record EditOption := mkEditOption { eo_id : string; eo_text : string }.

Record EditPollFormData := mkEditPollFormData {
  edit_title : string;
  edit_description : option string;
  edit_options : list EditOption
}.

Definition validatePollTitle (title : string) : list FieldError :=
  if negb (Js.truthy title) || (String.length (Js.trim title) =? 0)%nat then
    [mkFieldError "title" "Poll title is required"]
  else if (String.length (Js.trim title) <? 3)%nat then
    [mkFieldError "title" "Poll title must be at least 3 characters long"]
  else if (200 <? String.length (Js.trim title))%nat then
    [mkFieldError "title" "Poll title must be less than 200 characters"]
  else [].

Definition validatePollDescription (description : option string)
  : list FieldError :=
  match description with
  | Some d =>
      if Js.truthy d && (1000 <? String.length (Js.trim d))%nat then
        [mkFieldError "description"
           "Poll description must be less than 1000 characters"]
      else []
  | None => []
  end.

(** The body of the [forEach] over the options, for the option at [index]. *)
Definition validateOption (index : nat) (option : string) : list FieldError :=
  let fld := ("options[" ++ Js.show_nat index ++ "]")%string in
  if negb (Js.truthy option) || (String.length (Js.trim option) =? 0)%nat then
    [mkFieldError fld "Poll option cannot be empty"]
  else if (100 <? String.length (Js.trim option))%nat then
    [mkFieldError fld "Poll option must be less than 100 characters"]
  else [].

Fixpoint validateEachOption (index : nat) (options : list string)
  : list FieldError :=
  match options with
  | [] => []
  | o :: rest => validateOption index o ++ validateEachOption (S index) rest
  end.

Definition validatePollOptions (options : list string) : list FieldError :=
  let n := List.length options in
  if (n =? 0)%nat then
    [mkFieldError "options" "At least one poll option is required"]
  else if (n <? 2)%nat then
    [mkFieldError "options" "At least two poll options are required"]
  else if (10 <? n)%nat then
    [mkFieldError "options" "Maximum 10 poll options allowed"]
  else
    validateEachOption 0 options
    ++ (if negb (Js.set_size
                   (map (fun opt => Js.toLowerCase (Js.trim opt)) options)
                 =? n)%nat
        then [mkFieldError "options" "Poll options must be unique"]
        else []).

Definition validateExpirationDate (clk : clock) (expiresAt : option Z)
  : list FieldError :=
  match expiresAt with
  | Some e =>
      if (e <=? now clk)%Z then
        [mkFieldError "expiresAt" "Expiration date must be in the future"]
      else if (oneYearFromNow clk <? e)%Z then
        [mkFieldError "expiresAt"
           "Expiration date cannot be more than one year in the future"]
      else []
  | None => []
  end.

Definition validatePollId (id : string) : list FieldError :=
  if negb (Js.truthy id) || (String.length (Js.trim id) =? 0)%nat then
    [mkFieldError "id" "Poll ID is required"]
  else if negb (Js.id_regex_test id) then
    [mkFieldError "id" "Invalid poll ID format"]
  else [].

Definition validateOptionId (id : string) : list FieldError :=
  if negb (Js.truthy id) || (String.length (Js.trim id) =? 0)%nat then
    [mkFieldError "optionId" "Option ID is required"]
  else if negb (Js.id_regex_test id) then
    [mkFieldError "optionId" "Invalid option ID format"]
  else [].

(** ** Error model ([error-handler.ts], [auth-utils.ts]) *)

(** The subclasses of [PollOperationError] declared in [error-handler.ts]. *)
Inductive poe_class :=
| PlainOperationError
| NetworkError
| AuthenticationError
| HandlerValidationError
| NotFoundError
| PermissionError.

(** What a function body can throw.  [AuthError] ([auth-utils.ts]) and
    [ValidationError] ([validation.ts]) extend [Error] directly;
    [PollOperationError] carries the class it was constructed with;
    [TypeError] and [ReferenceError] are the runtime errors of the
    language itself: a property read from [undefined], and a name that is
    bound nowhere in scope. *)
Inductive exn :=
| AuthError (msg : string) (code : option string)
| ValidationError (msg : string) (errors : list FieldError)
| PollOperationError (cls : poe_class) (msg : string) (code : string)
| TypeError (msg : string)
| ReferenceError (msg : string).

Definition instanceof_PollOperationError (e : exn) : bool :=
  match e with PollOperationError _ _ _ => true | _ => false end.

Definition instanceof_AuthenticationError (e : exn) : bool :=
  match e with
  | PollOperationError AuthenticationError _ _ => true
  | _ => false
  end.

(** [error.message] and [error.code] of a thrown [PollOperationError]. *)
Definition exn_message (e : exn) : string :=
  match e with
  | AuthError m _ | ValidationError m _
  | PollOperationError _ m _ | TypeError m | ReferenceError m => m
  end.

Definition exn_code (e : exn) : option string :=
  match e with
  | AuthError _ c => c
  | PollOperationError _ _ c => Some c
  | ValidationError _ _ | TypeError _ | ReferenceError _ => None
  end.

Record ApiError := mkApiError {
  error : string;
  code : option string;
  details : option (list FieldError);
  timestamp : Z
}.

Inductive ApiResponse (A : Type) :=
| ApiSuccess (data : A) (stamp : Z)
| ApiFailure (e : ApiError).
Arguments ApiSuccess {A} data stamp.
Arguments ApiFailure {A} e.

Definition createErrorResponse {A} (clk : clock) (err : string)
  (c : option string) (d : option (list FieldError)) : ApiResponse A :=
  ApiFailure (mkApiError err c d (now clk)).

Definition createSuccessResponse {A} (clk : clock) (data : A)
  : ApiResponse A :=
  ApiSuccess data (now clk).

(** The code of a response, when it is a failure. *)
Definition failure_code {A} (r : ApiResponse A) : option string :=
  match r with
  | ApiFailure e => code e
  | ApiSuccess _ _ => None
  end.

Definition is_success {A} (r : ApiResponse A) : bool :=
  match r with ApiSuccess _ _ => true | ApiFailure _ => false end.

(** The two aggregating validators throw [validation.ts]'s own
    [ValidationError] when any violation was collected. *)
Definition validateCreatePollRequest (clk : clock) (data : CreatePollRequest)
  : exn + unit :=
  let errors :=
    validatePollTitle (req_title data)
    ++ validatePollDescription (req_description data)
    ++ validatePollOptions (req_options data)
    ++ validateExpirationDate clk (req_expiresAt data) in
  if (0 <? List.length errors)%nat
  then inl (ValidationError "Validation failed" errors)
  else inr tt.

Definition validateEditPollFormData (data : EditPollFormData)
  : exn + unit :=
  let errors :=
    validatePollTitle (edit_title data)
    ++ validatePollDescription (edit_description data)
    ++ validatePollOptions (map eo_text (edit_options data)) in
  if (0 <? List.length errors)%nat
  then inl (ValidationError "Validation failed" errors)
  else inr tt.

(** ** The relational store ([supabase-schema.sql]) *)

Record Profile := mkProfile {
  profile_id : string;
  profile_email : string;
  profile_name : string
}.

Record Poll := mkPoll {
  poll_id : string;
  poll_title : string;
  poll_description : option string;
  poll_is_active : bool;
  poll_created_by : string;
  poll_created_at : Z;
  poll_expires_at : option Z;
  poll_updated_at : Z
}.

Record PollOption := mkPollOption {
  option_id : string;
  option_poll_id : string;
  option_text : string;
  option_created_at : Z;
  option_updated_at : Z
}.

Record Vote := mkVote {
  vote_id : string;
  vote_poll_id : string;
  vote_option_id : string;
  vote_user_id : string;
  vote_created_at : Z
}.

Record database := mkDatabase {
  profiles : list Profile;
  polls : list Poll;
  poll_options : list PollOption;
  votes : list Vote
}.

Definition set_polls (d : database) (ps : list Poll) : database :=
  mkDatabase (profiles d) ps (poll_options d) (votes d).
Definition set_poll_options (d : database) (os : list PollOption)
  : database :=
  mkDatabase (profiles d) (polls d) os (votes d).
Definition set_votes (d : database) (vs : list Vote) : database :=
  mkDatabase (profiles d) (polls d) (poll_options d) vs.

(** What a statement can end with: the SQLSTATE classes of the
    constraints and of [RAISE EXCEPTION], and the refusal of a row that
    names a column its table does not have. *)
Inductive sqlstate :=
| unique_violation
| foreign_key_violation
| raise_exception (msg : string)
| undefined_column (table column : string).

Inductive sql_result (A : Type) :=
| SqlOk (a : A)
| SqlError (e : sqlstate).
Arguments SqlOk {A} a.
Arguments SqlError {A} e.

(** [uuid_generate_v4()], the default of every primary key, is modelled by
    a generator of a key that the table does not hold yet (one character
    longer than the longest key in use); a collision of random UUIDs is
    outside the model. *)
Fixpoint max_length (used : list string) : nat :=
  match used with
  | [] => 0
  | s :: r => Nat.max (String.length s) (max_length r)
  end.

Fixpoint repeat_char (c : ascii) (n : nat) : string :=
  match n with
  | O => EmptyString
  | S k => String c (repeat_char c k)
  end.

Definition uuid_generate_v4 (used : list string) : string :=
  repeat_char "u"%char (S (max_length used)).

Definition has_profile (d : database) (u : string) : bool :=
  existsb (fun p => (profile_id p =? u)%string) (profiles d).
Definition has_poll (d : database) (id : string) : bool :=
  existsb (fun p => (poll_id p =? id)%string) (polls d).
Definition has_option (d : database) (id : string) : bool :=
  existsb (fun o => (option_id o =? id)%string) (poll_options d).
Definition has_vote (d : database) (u p : string) : bool :=
  existsb (fun v => (vote_user_id v =? u)%string
                    && (vote_poll_id v =? p)%string) (votes d).

(** *** Statements

    Each statement checks the constraints of the schema: the primary keys,
    [REFERENCES ... ON DELETE CASCADE] and [unique_user_poll_vote].  A
    statement that violates one leaves the tables as they were.  The
    row-level security policies, whose outcome depends on the database role
    of the session, are not part of the model. *)

(** [INSERT INTO polls (...) ... RETURNING *]. *)
Definition insert_poll (d : database) (title : string)
  (description : option string) (created_by : string)
  (expires_at : option Z) (is_active : bool) (t : Z)
  : sql_result (Poll * database) :=
  if has_profile d created_by then
    let row := mkPoll (uuid_generate_v4 (map poll_id (polls d))) title
                 description is_active created_by t expires_at t in
    SqlOk (row, set_polls d (polls d ++ [row]))
  else SqlError foreign_key_violation.

(** [DELETE FROM polls WHERE id = ...]: the options and votes of a deleted
    poll go with it, and so do the votes that point to a deleted option. *)
Definition delete_polls (d : database) (id : string) : database :=
  if has_poll d id then
    let gone := filter (fun o => (option_poll_id o =? id)%string)
                  (poll_options d) in
    mkDatabase (profiles d)
      (filter (fun p => negb (poll_id p =? id)%string) (polls d))
      (filter (fun o => negb (option_poll_id o =? id)%string)
         (poll_options d))
      (filter (fun v =>
                 negb (vote_poll_id v =? id)%string
                 && negb (existsb
                            (fun o => (option_id o =? vote_option_id v)%string)
                            gone))
         (votes d))
  else d.

(** [UPDATE polls SET ... WHERE id = ... RETURNING *]; the trigger
    [update_polls_updated_at] stamps every updated row. *)
Definition touch_poll (t : Z) (p : Poll) : Poll :=
  mkPoll (poll_id p) (poll_title p) (poll_description p) (poll_is_active p)
    (poll_created_by p) (poll_created_at p) (poll_expires_at p) t.

Definition update_polls (d : database) (id : string) (f : Poll -> Poll)
  (t : Z) : list Poll * database :=
  let upd := fun p => if (poll_id p =? id)%string
                      then touch_poll t (f p) else p in
  (map upd (filter (fun p => (poll_id p =? id)%string) (polls d)),
   set_polls d (map upd (polls d))).

(** [INSERT INTO poll_options (poll_id, text) VALUES ...], one statement
    for all the rows: either every row is stored or none. *)
Fixpoint insert_poll_options (d : database)
  (rows : list (string * string)) (t : Z)
  : sql_result (list PollOption * database) :=
  match rows with
  | [] => SqlOk ([], d)
  | (pid, text) :: rest =>
      if has_poll d pid then
        let row := mkPollOption
                     (uuid_generate_v4 (map option_id (poll_options d)))
                     pid text t t in
        match insert_poll_options
                (set_poll_options d (poll_options d ++ [row])) rest t with
        | SqlOk (rs, d') => SqlOk (row :: rs, d')
        | SqlError e => SqlError e
        end
      else SqlError foreign_key_violation
  end.

(** The insert of option rows as [PollService] sends it: each row
    carries [poll_id], [text] and [order_index].  The table [poll_options]
    has the columns [id], [poll_id], [text], [created_at] and [updated_at]
    and no [order_index], so the request is refused whatever the rows
    are, and nothing is stored. *)
Definition insert_poll_options_with_order_index (d : database)
  (rows : list (string * string * nat))
  : sql_result (list PollOption * database) :=
  SqlError (undefined_column "poll_options" "order_index").

(** Removal of the option rows selected by [sel], with the cascade to the
    votes that reference them. *)
Definition delete_options_where (d : database) (sel : PollOption -> bool)
  : database :=
  let gone := filter sel (poll_options d) in
  mkDatabase (profiles d) (polls d)
    (filter (fun o => negb (sel o)) (poll_options d))
    (filter (fun v =>
               negb (existsb
                       (fun o => (option_id o =? vote_option_id v)%string)
                       gone))
       (votes d)).

(** [DELETE FROM poll_options WHERE poll_id = ...]. *)
Definition delete_poll_options_of (d : database) (pid : string) : database :=
  delete_options_where d (fun o => (option_poll_id o =? pid)%string).

(** [DELETE FROM poll_options WHERE id = ... AND poll_id = ...]. *)
Definition delete_poll_option (d : database) (oid pid : string) : database :=
  delete_options_where d
    (fun o => (option_id o =? oid)%string && (option_poll_id o =? pid)%string).

(** [UPDATE poll_options SET text = ... WHERE id = ... AND poll_id = ...],
    stamped by [update_poll_options_updated_at]. *)
Definition update_poll_option_text (d : database) (oid pid text : string)
  (t : Z) : database :=
  set_poll_options d
    (map (fun o =>
            if (option_id o =? oid)%string && (option_poll_id o =? pid)%string
            then mkPollOption (option_id o) (option_poll_id o) text
                   (option_created_at o) t
            else o)
       (poll_options d)).

(** [INSERT INTO votes (poll_id, option_id, user_id) ... RETURNING id].
    The unique index is checked when the row is added, the foreign keys
    afterwards. *)
Definition insert_vote (d : database) (p o u : string) (t : Z)
  : sql_result (string * database) :=
  if has_vote d u p then SqlError unique_violation
  else if has_poll d p && has_option d o && has_profile d u then
    let id := uuid_generate_v4 (map vote_id (votes d)) in
    SqlOk (id, set_votes d (votes d ++ [mkVote id p o u t]))
  else SqlError foreign_key_violation.

(** [UPDATE votes SET option_id = ... WHERE poll_id = ... AND user_id = ...
    RETURNING id]: the id of the updated row, if there is one. *)
Definition update_vote_option (d : database) (p u o : string)
  : sql_result (option string * database) :=
  let hit := fun v => (vote_poll_id v =? p)%string
                      && (vote_user_id v =? u)%string in
  match filter hit (votes d) with
  | [] => SqlOk (None, d)
  | v :: _ =>
      if has_option d o then
        SqlOk (Some (vote_id v),
               set_votes d
                 (map (fun v => if hit v
                                then mkVote (vote_id v) (vote_poll_id v) o
                                       (vote_user_id v) (vote_created_at v)
                                else v)
                    (votes d)))
      else SqlError foreign_key_violation
  end.

(** [DELETE FROM votes WHERE poll_id = ... AND user_id = ...]. *)
Definition delete_votes (d : database) (p u : string) : database :=
  set_votes d
    (filter (fun v => negb ((vote_poll_id v =? p)%string
                            && (vote_user_id v =? u)%string))
       (votes d)).

(** *** Stored functions *)

(** SQL's three-valued connectives; [None] is NULL. *)
Definition sql_and (a b : option bool) : option bool :=
  match a, b with
  | Some false, _ | _, Some false => Some false
  | Some true, Some true => Some true
  | _, _ => None
  end.

Definition sql_or (a b : option bool) : option bool :=
  match a, b with
  | Some true, _ | _, Some true => Some true
  | Some false, Some false => Some false
  | _, _ => None
  end.

Definition sql_not (a : option bool) : option bool := option_map negb a.

(** A condition holds only when it evaluates to TRUE. *)
Definition sql_holds (a : option bool) : bool :=
  match a with Some true => true | _ => false end.

Definition sql_gt (a b : option Z) : option bool :=
  match a, b with
  | Some x, Some y => Some (y <? x)%Z
  | _, _ => None
  end.

Definition sql_is_null {A} (a : option A) : option bool :=
  match a with None => Some true | Some _ => Some false end.

(** [is_poll_active(poll_id)]: the [SELECT ... INTO] leaves both variables
    NULL when no poll has that id, and the function then returns NULL. *)
Definition is_poll_active (d : database) (id : string) (t : Z)
  : option bool :=
  let row := find (fun p => (poll_id p =? id)%string) (polls d) in
  let is_active := option_map poll_is_active row in
  let expiry := match row with Some p => poll_expires_at p | None => None end in
  sql_and is_active (sql_or (sql_is_null expiry) (sql_gt expiry (Some t))).

(** [cast_vote(p_poll_id, p_option_id, p_user_id)]. *)
Definition cast_vote (d : database) (p_poll_id p_option_id p_user_id : string)
  (t : Z) : sql_result (option string * database) :=
  if sql_holds (sql_not (is_poll_active d p_poll_id t)) then
    SqlError (raise_exception "Poll is not active")
  else
    match insert_vote d p_poll_id p_option_id p_user_id t with
    | SqlOk (id, d') => SqlOk (Some id, d')
    | SqlError unique_violation =>
        update_vote_option d p_poll_id p_user_id p_option_id
    | SqlError e => SqlError e
    end.

(** *** Views *)

(** A [NUMERIC] value: [unscaled / 10 ^ dscale]. *)
Record numeric := mkNumeric { unscaled : Z; dscale : Z }.

Definition numeric_of_int (n : Z) : numeric := mkNumeric n 0.

(** The quotient [a / b] for [0 < b], rounded to the nearest integer, ties
    away from zero. *)
Definition div_round (a b : Z) : Z :=
  if (0 <=? a)%Z then ((2 * a + b) / (2 * b))%Z
  else (- ((2 * (- a) + b) / (2 * b)))%Z.

Definition numeric_mul (x y : numeric) : numeric :=
  mkNumeric (unscaled x * unscaled y) (dscale x + dscale y).

(** [ROUND(x, n)]. *)
Definition numeric_round (x : numeric) (n : Z) : numeric :=
  mkNumeric (div_round (unscaled x * 10 ^ n) (10 ^ dscale x)) n.

Record PollDetails := mkPollDetails {
  pd_poll : Poll;
  total_votes : nat;
  creator_name : option string
}.

Record PollOptionWithStats := mkPollOptionWithStats {
  pos_id : string;
  pos_poll_id : string;
  pos_text : string;
  pos_votes : nat;
  percentage : numeric
}.

(** [COUNT(DISTINCT v.id)] over the votes joined to poll [id]. *)
Definition count_poll_votes_distinct (d : database) (id : string) : nat :=
  List.length
    (nodup string_dec
       (map vote_id
          (filter (fun v => (vote_poll_id v =? id)%string) (votes d)))).

(** The view [poll_details]. *)
Definition poll_details (d : database) : list PollDetails :=
  map (fun p =>
         mkPollDetails p (count_poll_votes_distinct d (poll_id p))
           (option_map profile_name
              (find (fun u => (profile_id u =? poll_created_by p)%string)
                 (profiles d))))
    (polls d).

(** [COUNT(v.id)] over the votes joined to option [oid]. *)
Definition count_option_votes (d : database) (oid : string) : nat :=
  List.length (filter (fun v => (vote_option_id v =? oid)%string) (votes d)).

(** The sub-select [poll_vote_count]: a poll without votes has no row in
    it, so the joined [total_votes] is NULL for its options. *)
Definition poll_vote_count (d : database) (pid : string) : option nat :=
  match List.length
          (filter (fun v => (vote_poll_id v =? pid)%string) (votes d)) with
  | O => None
  | n => Some n
  end.

Section Views.

(** The number of fractional digits the store keeps in the quotient of
    two [NUMERIC] values; PostgreSQL selects it from the operands. *)
Variable select_div_scale : numeric -> numeric -> Z.

Definition numeric_div (x y : numeric) : numeric :=
  let rscale := select_div_scale x y in
  mkNumeric
    (div_round (unscaled x * 10 ^ (rscale + dscale y))
       (unscaled y * 10 ^ dscale x))
    rscale.

(** The [CASE] expression of the [percentage] column. *)
Definition stats_percentage (count : nat) (total : option nat) : numeric :=
  match total with
  | Some n =>
      if (0 <? Z.of_nat n)%Z then
        numeric_round
          (numeric_mul
             (numeric_div (numeric_of_int (Z.of_nat count))
                (numeric_of_int (Z.of_nat n)))
             (numeric_of_int 100))
          1
      else numeric_of_int 0
  | None => numeric_of_int 0
  end.

(** The view [poll_options_with_stats]. *)
Definition poll_options_with_stats (d : database)
  : list PollOptionWithStats :=
  map (fun po =>
         mkPollOptionWithStats (option_id po) (option_poll_id po)
           (option_text po)
           (count_option_votes d (option_id po))
           (stats_percentage (count_option_votes d (option_id po))
              (poll_vote_count d (option_poll_id po))))
    (poll_options d).

End Views.

(** ** The store client and the running environment *)

(** The requests a handler sends to the store, in the order sent. *)
Inductive call :=
| Select (table : string)
| Insert (table : string)
| Update (table : string)
| Delete (table : string)
| Rpc (fn : string).

Record PostgrestError := mkPostgrestError {
  pg_code : string;
  pg_message : string
}.

(** The [{ data, error }] pair every client call resolves to. *)
Inductive response (A : Type) :=
| Data (a : A)
| Failed (e : PostgrestError).
Arguments Data {A} a.
Arguments Failed {A} e.

Definition pg_error (e : sqlstate) : PostgrestError :=
  match e with
  | unique_violation =>
      mkPostgrestError "23505" "duplicate key value violates unique constraint"
  | foreign_key_violation =>
      mkPostgrestError "23503" "violates foreign key constraint"
  | raise_exception m => mkPostgrestError "P0001" m
  | undefined_column table column =>
      mkPostgrestError "PGRST204"
        ("Could not find the '" ++ column ++ "' column of '" ++ table
         ++ "' in the schema cache")
  end.

(** A request the store could not serve (transport or server failure). *)
Definition unavailable : PostgrestError :=
  mkPostgrestError "503" "service unavailable".

(** [.single()]: exactly one row, else error PGRST116. *)
Definition single {A} (r : response (list A)) : response A :=
  match r with
  | Data [x] => Data x
  | Data _ =>
      Failed (mkPostgrestError "PGRST116"
                "JSON object requested, multiple (or no) rows returned")
  | Failed e => Failed e
  end.

(** The environment of a handler: the tables, the sessions the identity
    provider recognises (token, user id), the fate of the coming store
    requests ([true]: the request fails without being carried out; past the
    end of the list every request is served), and the requests sent so
    far. *)
Record world := mkWorld {
  db : database;
  sessions : list (string * string);
  faults : list bool;
  log : list call
}.

(** [supabase.auth.getUser(token)]. *)
Definition getUser (w : world) (token : string) : option string :=
  option_map snd
    (find (fun s => (fst s =? token)%string) (sessions w)).

(** Handler bodies: they read and change the world and may throw. *)
Definition M (A : Type) : Type := world -> (exn + A) * world.

Definition ret {A} (a : A) : M A := fun w => (inr a, w).
Definition throw {A} (e : exn) : M A := fun w => (inl e, w).
Definition bind {A B} (m : M A) (k : A -> M B) : M B :=
  fun w =>
    match m w with
    | (inr a, w') => k a w'
    | (inl e, w') => (inl e, w')
    end.
(** [try { m } catch (error) { h error }]. *)
Definition try_catch {A} (m : M A) (h : exn -> M A) : M A :=
  fun w =>
    match m w with
    | (inr a, w') => (inr a, w')
    | (inl e, w') => h e w'
    end.
(** A pure helper that may throw. *)
Definition lift {A} (r : exn + A) : M A := fun w => (r, w).

Declare Scope js_scope.
Delimit Scope js_scope with js.
Notation "x <- m ;; k" := (bind m (fun x => k))
  (at level 61, m at next level, right associativity) : js_scope.
Notation "m ;;; k" := (bind m (fun _ => k))
  (at level 61, right associativity) : js_scope.
Local Open Scope js_scope.

(** Whether the environment refuses the next request. *)
Definition next_fault (w : world) : bool :=
  match faults w with
  | true :: _ => true
  | _ => false
  end.

(** One client call: logged, then either refused by the environment or
    run as one statement against the tables. *)
Definition request {A} (c : call)
  (stmt : database -> sql_result (A * database)) : M (response A) :=
  fun w =>
    let lg := log w ++ [c] in
    let fs := tl (faults w) in
    if next_fault w then
      (inr (Failed unavailable), mkWorld (db w) (sessions w) fs lg)
    else
      match stmt (db w) with
      | SqlOk (a, d') => (inr (Data a), mkWorld d' (sessions w) fs lg)
      | SqlError e =>
          (inr (Failed (pg_error e)), mkWorld (db w) (sessions w) fs lg)
      end.

(** A read-only statement. *)
Definition query {A} (f : database -> A)
  : database -> sql_result (A * database) :=
  fun d => SqlOk (f d, d).

(** ** Authentication ([auth-utils.ts]) *)

(** [getCurrentUser()]: the user of the client's session, [null] when the
    session is missing or the provider rejects it. *)
Definition getCurrentUser (credential : option string) : M (option string) :=
  fun w =>
    (inr (match credential with
          | Some token => getUser w token
          | None => None
          end), w).

Definition requireAuth (credential : option string) : M string :=
  user <- getCurrentUser credential ;;
  match user with
  | Some u => ret u
  | None => throw (AuthError "Authentication required" (Some "AUTH_REQUIRED"))
  end.

(** ** The poll service ([PollService]) *)

(** A poll row with its embedded resources: the rows of [poll_options],
    the count of [votes] and, where selected, the creator's profile. *)
Record PollWithRelations := mkPollWithRelations {
  pr_poll : Poll;
  pr_options : list PollOption;
  pr_votes : nat;
  pr_created_by : option Profile
}.

Definition embed (with_creator : bool) (d : database) (p : Poll)
  : PollWithRelations :=
  mkPollWithRelations p
    (filter (fun o => (option_poll_id o =? poll_id p)%string)
       (poll_options d))
    (List.length
       (filter (fun v => (vote_poll_id v =? poll_id p)%string) (votes d)))
    (if with_creator
     then find (fun u => (profile_id u =? poll_created_by p)%string)
            (profiles d)
     else None).

(** [ORDER BY created_at DESC]; rows created at the same instant keep
    their table order. *)
Fixpoint insert_desc (x : PollWithRelations) (l : list PollWithRelations)
  : list PollWithRelations :=
  match l with
  | [] => [x]
  | y :: r =>
      if (poll_created_at (pr_poll y) <? poll_created_at (pr_poll x))%Z
      then x :: l
      else y :: insert_desc x r
  end.

Definition order_by_created_at_desc (l : list PollWithRelations)
  : list PollWithRelations :=
  fold_right insert_desc [] l.

Module PollService.

Definition operation_failed {A} (msg code : string) : M A :=
  throw (PollOperationError PlainOperationError msg code).

(** The [catch] block of the two read operations. *)
Definition catch_read {A} (clk : clock) (fallback : string) (e : exn)
  : M (ApiResponse A) :=
  if instanceof_PollOperationError e then
    ret (createErrorResponse clk (exn_message e) (exn_code e) None)
  else ret (createErrorResponse clk fallback (Some "UNKNOWN_ERROR") None).

(** The [catch] block of the four mutating operations. *)
Definition catch_mutation {A} (clk : clock) (fallback : string) (e : exn)
  : M (ApiResponse A) :=
  if instanceof_AuthenticationError e then
    ret (createErrorResponse clk (exn_message e) (exn_code e) None)
  else if instanceof_PollOperationError e then
    ret (createErrorResponse clk (exn_message e) (exn_code e) None)
  else ret (createErrorResponse clk fallback (Some "UNKNOWN_ERROR") None).

Definition fetchPolls (clk : clock)
  : M (ApiResponse (list PollWithRelations)) :=
  try_catch
    (r <- request (Select "polls")
            (query (fun d =>
                      order_by_created_at_desc
                        (map (embed false d)
                           (filter poll_is_active (polls d))))) ;;
     match r with
     | Failed e =>
         operation_failed ("Failed to fetch polls: " ++ pg_message e)
           "FETCH_ERROR"
     | Data polls => ret (createSuccessResponse clk polls)
     end)
    (catch_read clk "An unexpected error occurred while fetching polls").

Definition fetchPollById (clk : clock) (id : string)
  : M (ApiResponse PollWithRelations) :=
  try_catch
    (let _ := validatePollId id in
     r <- request (Select "polls")
            (query (fun d =>
                      map (embed true d)
                        (filter (fun p => (poll_id p =? id)%string
                                          && poll_is_active p)
                           (polls d)))) ;;
     match single r with
     | Failed e =>
         if (pg_code e =? "PGRST116")%string
         then operation_failed "Poll not found" "POLL_NOT_FOUND"
         else operation_failed ("Failed to fetch poll: " ++ pg_message e)
                "FETCH_ERROR"
     | Data poll => ret (createSuccessResponse clk poll)
     end)
    (catch_read clk "An unexpected error occurred while fetching the poll").

(** [optionsData.map((text, index) => ...)]: the rows with their index. *)
Fixpoint with_index {X Y} (f : X -> nat -> Y) (index : nat) (l : list X)
  : list Y :=
  match l with
  | [] => []
  | x :: r => f x index :: with_index f (S index) r
  end.

Definition createPoll (clk : clock) (credential : option string)
  (pollData : CreatePollRequest) : M (ApiResponse PollWithRelations) :=
  try_catch
    (user <- requireAuth credential ;;
     lift (validateCreatePollRequest clk pollData) ;;;
     r <- request (Insert "polls")
            (fun d =>
               match insert_poll d (Js.trim (req_title pollData))
                       (option_map Js.trim (req_description pollData))
                       user (req_expiresAt pollData) true (now clk) with
               | SqlOk (row, d') => SqlOk ([row], d')
               | SqlError e => SqlError e
               end) ;;
     match single r with
     | Failed pollError =>
         operation_failed
           ("Failed to create poll: " ++ pg_message pollError)
           "CREATE_ERROR"
     | Data poll =>
         let optionsData :=
           with_index
             (fun optionText index =>
                (poll_id poll, Js.trim optionText, index))
             0 (req_options pollData) in
         ro <- request (Insert "poll_options")
                 (fun d => insert_poll_options_with_order_index d
                             optionsData) ;;
         match ro with
         | Failed optionsError =>
             _ <- request (Delete "polls")
                    (fun d => SqlOk (tt, delete_polls d (poll_id poll))) ;;
             operation_failed
               ("Failed to create poll options: "
                ++ pg_message optionsError)
               "CREATE_ERROR"
         | Data _ =>
             createdPoll <- fetchPollById clk (poll_id poll) ;;
             match createdPoll with
             | ApiFailure _ =>
                 operation_failed "Failed to retrieve created poll"
                   "CREATE_ERROR"
             | ApiSuccess data _ => ret (createSuccessResponse clk data)
             end
         end
     end)
    (catch_mutation clk
       "An unexpected error occurred while creating the poll").

(** The select that opens [updatePoll] and [deletePoll]. *)
Definition select_active_poll (id : string) : M (response Poll) :=
  r <- request (Select "polls")
         (query (fun d =>
                   filter (fun p => (poll_id p =? id)%string
                                    && poll_is_active p)
                     (polls d))) ;;
  ret (single r).

(** The module imports [validateCreatePollRequest], [validatePollId] and
    [validateOptionId] from [./validation] and nothing else: the name
    [validateEditPollFormData] that [updatePoll] calls is bound nowhere
    in its scope, and evaluating the call throws. *)
Definition unbound_validateEditPollFormData (pollData : EditPollFormData)
  : M unit :=
  throw (ReferenceError "validateEditPollFormData is not defined").

Definition updatePoll (clk : clock) (credential : option string)
  (id : string) (pollData : EditPollFormData)
  : M (ApiResponse PollWithRelations) :=
  try_catch
    (user <- requireAuth credential ;;
     let _ := validatePollId id in
     unbound_validateEditPollFormData pollData ;;;
     existing <- select_active_poll id ;;
     match existing with
     | Failed _ => operation_failed "Poll not found" "POLL_NOT_FOUND"
     | Data existingPoll =>
         if negb (poll_created_by existingPoll =? user)%string then
           operation_failed
             "You do not have permission to update this poll"
             "PERMISSION_DENIED"
         else
           ru <- request (Update "polls")
                   (fun d =>
                      SqlOk
                        (update_polls d id
                           (fun p =>
                              mkPoll (poll_id p)
                                (Js.trim (edit_title pollData))
                                (match edit_description pollData with
                                 | Some t => Some (Js.trim t)
                                 | None => poll_description p
                                 end)
                                (poll_is_active p) (poll_created_by p)
                                (poll_created_at p) (poll_expires_at p)
                                (now clk))
                           (now clk))) ;;
           match ru with
           | Failed updateError =>
               operation_failed
                 ("Failed to update poll: " ++ pg_message updateError)
                 "UPDATE_ERROR"
           | Data _ =>
               (if (0 <? List.length (edit_options pollData))%nat then
                  _ <- request (Delete "poll_options")
                         (fun d => SqlOk (tt, delete_poll_options_of d id)) ;;
                  let optionsData :=
                    with_index
                      (fun option index =>
                         (id, Js.trim (eo_text option), index))
                      0 (edit_options pollData) in
                  ro <- request (Insert "poll_options")
                          (fun d =>
                             insert_poll_options_with_order_index d
                               optionsData) ;;
                  match ro with
                  | Failed optionsError =>
                      operation_failed
                        ("Failed to update poll options: "
                         ++ pg_message optionsError)
                        "UPDATE_ERROR"
                  | Data _ => ret tt
                  end
                else ret tt) ;;;
               updatedPoll <- fetchPollById clk id ;;
               match updatedPoll with
               | ApiFailure _ =>
                   operation_failed "Failed to retrieve updated poll"
                     "UPDATE_ERROR"
               | ApiSuccess data _ => ret (createSuccessResponse clk data)
               end
           end
     end)
    (catch_mutation clk
       "An unexpected error occurred while updating the poll").

(** Soft delete: the row stays, [is_active] becomes false. *)
Definition deletePoll (clk : clock) (credential : option string)
  (id : string) : M (ApiResponse bool) :=
  try_catch
    (user <- requireAuth credential ;;
     let _ := validatePollId id in
     existing <- select_active_poll id ;;
     match existing with
     | Failed _ => operation_failed "Poll not found" "POLL_NOT_FOUND"
     | Data existingPoll =>
         if negb (poll_created_by existingPoll =? user)%string then
           operation_failed
             "You do not have permission to delete this poll"
             "PERMISSION_DENIED"
         else
           rd <- request (Update "polls")
                   (fun d =>
                      SqlOk
                        (update_polls d id
                           (fun p =>
                              mkPoll (poll_id p) (poll_title p)
                                (poll_description p) false
                                (poll_created_by p) (poll_created_at p)
                                (poll_expires_at p) (now clk))
                           (now clk))) ;;
           match rd with
           | Failed deleteError =>
               operation_failed
                 ("Failed to delete poll: " ++ pg_message deleteError)
                 "DELETE_ERROR"
           | Data _ => ret (createSuccessResponse clk true)
           end
     end)
    (catch_mutation clk
       "An unexpected error occurred while deleting the poll").

Definition castVote (clk : clock) (credential : option string)
  (pollId optionId : string) : M (ApiResponse (bool * PollWithRelations)) :=
  try_catch
    (user <- requireAuth credential ;;
     let _ := validatePollId pollId in
     let _ := validateOptionId optionId in
     rp <- select_active_poll pollId ;;
     match rp with
     | Failed _ => operation_failed "Poll not found" "POLL_NOT_FOUND"
     | Data poll =>
         if match poll_expires_at poll with
            | Some e => (e <? now clk)%Z
            | None => false
            end
         then operation_failed "This poll has expired" "POLL_EXPIRED"
         else
           ropt <- request (Select "poll_options")
                     (query (fun d =>
                               filter
                                 (fun o =>
                                    (option_id o =? optionId)%string
                                    && (option_poll_id o =? pollId)%string)
                                 (poll_options d))) ;;
           match single ropt with
           | Failed _ => operation_failed "Invalid poll option" "INVALID_OPTION"
           | Data _ =>
               rv <- request (Select "votes")
                       (query (fun d =>
                                 filter
                                   (fun v => (vote_poll_id v =? pollId)%string
                                             && (vote_user_id v =? user)%string)
                                   (votes d))) ;;
               match single rv with
               | Data _ =>
                   operation_failed "You have already voted on this poll"
                     "ALREADY_VOTED"
               | Failed _ =>
                   ri <- request (Insert "votes")
                           (fun d => insert_vote d pollId optionId user
                                       (now clk)) ;;
                   match ri with
                   | Failed voteError =>
                       operation_failed
                         ("Failed to cast vote: " ++ pg_message voteError)
                         "VOTE_ERROR"
                   | Data _ =>
                       updatedPoll <- fetchPollById clk pollId ;;
                       match updatedPoll with
                       | ApiFailure _ =>
                           operation_failed
                             "Failed to retrieve updated poll data"
                             "VOTE_ERROR"
                       | ApiSuccess data _ =>
                           ret (createSuccessResponse clk (true, data))
                       end
                   end
               end
           end
     end)
    (catch_mutation clk
       "An unexpected error occurred while casting your vote").

End PollService.

(** ** The API route handlers *)

Inductive json_body :=
| JError (err : string)
| JSuccess
| JVote (voteId : option string) (options : list PollOptionWithStats)
| JPoll (p : Poll)
| JCreated (p : Poll) (options : list PollOption).

Record HttpResponse := mkHttpResponse { status : nat; body : json_body }.

(** What a handler reads from the request besides its parameters. *)
Record Credentials := mkCredentials {
  authorization : option string;   (* the Authorization header *)
  access_token : option string     (* the cookie sb-access-token *)
}.

Record PatchOption := mkPatchOption {
  po_id : option string;
  po_text : string
}.

(** The JSON body of a PATCH; an outer [None] is an absent key, an inner
    one is [null]. *)
Record PatchBody := mkPatchBody {
  body_isActive : option bool;
  body_title : option string;
  body_description : option (option string);
  body_expiresAt : option (option Z);
  body_options : option (list PatchOption)
}.

Module Route.

Definition json (st : nat) (b : json_body) : M HttpResponse :=
  ret (mkHttpResponse st b).

(** The outermost [catch] of every handler. *)
Definition catch_all (m : M HttpResponse) : M HttpResponse :=
  try_catch m (fun _ => json 500 (JError "An unexpected error occurred")).

(** [authHeader.substring(7)]. *)
Definition bearer_token (header : string) : string :=
  String.substring 7 (String.length header - 7) header.

(** [supabase.auth.getUser(token)] as a step of a handler. *)
Definition token_user (token : string) : M (option string) :=
  fun w => (inr (getUser w token), w).

(** The user of the cookie session, as the vote and PATCH handlers
    resolve it; [None] stands for the 401 answer. *)
Definition cookie_user (c : Credentials) : M (option string) :=
  fun w =>
    (inr (match access_token c with
          | Some token =>
              if Js.truthy token then getUser w token else None
          | None => None
          end), w).

(** The user as the DELETE handler resolves it: the bearer token first,
    the cookie when that gives no user. *)
Definition header_or_cookie_user (c : Credentials) : M (option string) :=
  fun w =>
    let from_header :=
      match authorization c with
      | Some h =>
          if Js.truthy h && Js.startsWith "Bearer " h
          then getUser w (bearer_token h) else None
      | None => None
      end in
    match from_header with
    | Some u => (inr (Some u), w)
    | None => cookie_user c w
    end.

Definition unauthenticated : M HttpResponse :=
  json 401 (JError "Authentication required").

(** The select that opens DELETE and PATCH (no filter on [is_active]). *)
Definition select_poll (id : string) : M (response Poll) :=
  r <- request (Select "polls")
         (query (fun d =>
                   filter (fun p => (poll_id p =? id)%string) (polls d))) ;;
  ret (single r).

Definition poll_fetch_failed (e : PostgrestError) : M HttpResponse :=
  if (pg_code e =? "PGRST116")%string
  then json 404 (JError "Poll not found")
  else json 500 (JError "Failed to fetch poll").

(** [DELETE /api/polls/[id]]: hard delete. *)
Definition DELETE (c : Credentials) (id : string) : M HttpResponse :=
  catch_all
    (user <- header_or_cookie_user c ;;
     match user with
     | None => unauthenticated
     | Some uid =>
         rp <- select_poll id ;;
         match rp with
         | Failed e => poll_fetch_failed e
         | Data poll =>
             if negb (poll_created_by poll =? uid)%string then
               json 403
                 (JError "You do not have permission to delete this poll")
             else
               rd <- request (Delete "polls")
                       (fun d => SqlOk (tt, delete_polls d id)) ;;
               match rd with
               | Failed _ => json 500 (JError "Failed to delete poll")
               | Data _ => json 200 JSuccess
               end
         end
     end).

(** The columns the PATCH handler copies from the body into the
    [UPDATE]. *)
Definition apply_patch (b : PatchBody) (p : Poll) : Poll :=
  mkPoll (poll_id p)
    (match body_title b with
     | Some t => if Js.truthy t then t else poll_title p
     | None => poll_title p
     end)
    (match body_description b with
     | Some dsc => dsc
     | None => poll_description p
     end)
    (match body_isActive b with
     | Some a => a
     | None => poll_is_active p
     end)
    (poll_created_by p) (poll_created_at p)
    (match body_expiresAt b with
     | Some e => e
     | None => poll_expires_at p
     end)
    (poll_updated_at p).

Fixpoint for_each {A} (f : A -> M unit) (l : list A) : M unit :=
  match l with
  | [] => ret tt
  | x :: r => f x ;;; for_each f r
  end.

(** First loop of PATCH: insert the options whose id starts with
    [new-], rename the others that carry an id. *)
Definition save_option (clk : clock) (id : string) (option : PatchOption)
  : M unit :=
  match po_id option with
  | Some oid =>
      if Js.truthy oid && Js.startsWith "new-" oid then
        _ <- request (Insert "poll_options")
               (fun d => insert_poll_options d [(id, po_text option)]
                           (now clk)) ;;
        ret tt
      else if Js.truthy oid then
        _ <- request (Update "poll_options")
               (fun d => SqlOk (tt, update_poll_option_text d oid id
                                      (po_text option) (now clk))) ;;
        ret tt
      else ret tt
  | None => ret tt
  end.

(** [body.options.map(o => o.id).filter(id => !id.startsWith('new-'))]:
    an option without id makes [startsWith] throw. *)
Definition updatedOptionIds (options : list PatchOption)
  : exn + list string :=
  if forallb (fun o => match po_id o with Some _ => true | None => false end)
       options
  then inr (filter (fun oid => negb (Js.startsWith "new-" oid))
              (flat_map (fun o => match po_id o with
                                  | Some oid => [oid]
                                  | None => []
                                  end) options))
  else inl (TypeError "Cannot read properties of undefined").

(** Second loop of PATCH: an option that left the request is deleted
    when the count of its votes is zero. *)
Definition delete_if_unvoted (id : string) (oid : string) : M unit :=
  rc <- request (Select "votes")
          (query (fun d => count_option_votes d oid)) ;;
  match rc with
  | Data O =>
      _ <- request (Delete "poll_options")
             (fun d => SqlOk (tt, delete_poll_option d oid id)) ;;
      ret tt
  | _ => ret tt
  end.

Definition update_options (clk : clock) (id : string)
  (options : list PatchOption) : M unit :=
  for_each (save_option clk id) options ;;;
  rcur <- request (Select "poll_options")
            (query (fun d =>
                      map option_id
                        (filter (fun o => (option_poll_id o =? id)%string)
                           (poll_options d)))) ;;
  match rcur with
  | Data currentOptions =>
      kept <- lift (updatedOptionIds options) ;;
      let optionsToDelete :=
        filter (fun o => negb (existsb (String.eqb o) kept))
          currentOptions in
      for_each (delete_if_unvoted id) optionsToDelete
  | Failed _ => ret tt
  end.

(** [PATCH /api/polls/[id]]. *)
Definition PATCH (clk : clock) (c : Credentials) (id : string)
  (b : PatchBody) : M HttpResponse :=
  catch_all
    (user <- cookie_user c ;;
     match user with
     | None => unauthenticated
     | Some uid =>
         rp <- select_poll id ;;
         match rp with
         | Failed e => poll_fetch_failed e
         | Data poll =>
             if negb (poll_created_by poll =? uid)%string then
               json 403
                 (JError "You do not have permission to update this poll")
             else
               ru <- request (Update "polls")
                       (fun d =>
                          SqlOk (update_polls d id (apply_patch b)
                                   (now clk))) ;;
               match body_options b with
               | Some options => update_options clk id options
               | None => ret tt
               end ;;;
               match single ru with
               | Failed _ => json 500 (JError "Failed to update poll")
               | Data updatedPoll => json 200 (JPoll updatedPoll)
               end
         end
     end).

End Route.

Module PollsRoute.

(** [POST /api/polls]. *)
Definition POST (clk : clock) (c : Credentials) (b : CreatePollRequest)
  : M HttpResponse :=
  Route.catch_all
    (if negb (Js.truthy (req_title b))
        || (List.length (req_options b) <? 2)%nat then
       Route.json 400
         (JError "Title and at least two options are required")
     else
       let token :=
         match authorization c with
         | Some h =>
             if Js.truthy h && Js.startsWith "Bearer " h
             then Route.bearer_token h
             else match access_token c with Some t => t | None => "" end
         | None => match access_token c with Some t => t | None => "" end
         end in
       if negb (Js.truthy token) then
         Route.json 401 (JError "You must be logged in to create a poll")
       else
         user <- Route.token_user token ;;
         match user with
         | None =>
             Route.json 401
               (JError "You must be logged in to create a poll")
         | Some uid =>
             r <- request (Insert "polls")
                    (fun d =>
                       match insert_poll d (req_title b)
                               (match req_description b with
                                | Some t => if Js.truthy t then Some t
                                            else None
                                | None => None
                                end)
                               uid (req_expiresAt b) true (now clk) with
                       | SqlOk (row, d') => SqlOk ([row], d')
                       | SqlError e => SqlError e
                       end) ;;
             match single r with
             | Failed _ => Route.json 500 (JError "Failed to create poll")
             | Data poll =>
                 ro <- request (Insert "poll_options")
                         (fun d =>
                            insert_poll_options d
                              (map (fun text => (poll_id poll, text))
                                 (req_options b))
                              (now clk)) ;;
                 match ro with
                 | Failed _ =>
                     _ <- request (Delete "polls")
                            (fun d =>
                               SqlOk (tt, delete_polls d (poll_id poll))) ;;
                     Route.json 500
                       (JError "Failed to create poll options")
                 | Data options => Route.json 200 (JCreated poll options)
                 end
             end
         end).

End PollsRoute.

Module VoteRoute.

Section Handler.

Variable select_div_scale : numeric -> numeric -> Z.

(** [POST /api/polls/[id]/vote]. *)
Definition POST (clk : clock) (c : Credentials) (pollId : string)
  (optionId : option string) : M HttpResponse :=
  Route.catch_all
    (match optionId with
     | None => Route.json 400 (JError "Option ID is required")
     | Some optionId =>
         if negb (Js.truthy optionId) then
           Route.json 400 (JError "Option ID is required")
         else
           user <- Route.cookie_user c ;;
           match user with
           | None => Route.unauthenticated
           | Some uid =>
               ra <- request (Rpc "is_poll_active")
                       (query (fun d =>
                                 is_poll_active d pollId (now clk))) ;;
               match ra with
               | Failed _ =>
                   Route.json 500 (JError "Failed to check poll status")
               | Data isPollActive =>
                   if negb (sql_holds isPollActive) then
                     Route.json 400 (JError "This poll is not active")
                   else
                     ropt <- request (Select "poll_options")
                               (query
                                  (fun d =>
                                     filter
                                       (fun o =>
                                          (option_id o =? optionId)%string
                                          && (option_poll_id o
                                              =? pollId)%string)
                                       (poll_options d))) ;;
                     match single ropt with
                     | Failed _ =>
                         Route.json 400
                           (JError "Invalid option for this poll")
                     | Data _ =>
                         rv <- request (Rpc "cast_vote")
                                 (fun d => cast_vote d pollId optionId
                                             uid (now clk)) ;;
                         match rv with
                         | Failed voteError =>
                             Route.json 500
                               (JError
                                  (if Js.truthy (pg_message voteError)
                                   then pg_message voteError
                                   else "Failed to cast vote"))
                         | Data voteId =>
                             rs <- request
                                     (Select "poll_options_with_stats")
                                     (query
                                        (fun d =>
                                           filter
                                             (fun o =>
                                                (pos_poll_id o
                                                 =? pollId)%string)
                                             (poll_options_with_stats
                                                select_div_scale d))) ;;
                             Route.json 200
                               (JVote voteId
                                  (match rs with
                                   | Data updatedOptions => updatedOptions
                                   | Failed _ => []
                                   end))
                         end
                     end
               end
           end
     end).

(** [DELETE /api/polls/[id]/vote]: the caller's vote on the poll is
    removed; removing none is not an error. *)
Definition DELETE (c : Credentials) (pollId : string) : M HttpResponse :=
  Route.catch_all
    (user <- Route.cookie_user c ;;
     match user with
     | None => Route.unauthenticated
     | Some uid =>
         rd <- request (Delete "votes")
                 (fun d => SqlOk (tt, delete_votes d pollId uid)) ;;
         match rd with
         | Failed _ => Route.json 500 (JError "Failed to delete vote")
         | Data _ =>
             rs <- request (Select "poll_options_with_stats")
                     (query
                        (fun d =>
                           filter
                             (fun o => (pos_poll_id o =? pollId)%string)
                             (poll_options_with_stats select_div_scale d))) ;;
             Route.json 200
               (JVote None
                  (match rs with
                   | Data updatedOptions => updatedOptions
                   | Failed _ => []
                   end))
         end
     end).

End Handler.

End VoteRoute.

(** ** The read handlers ([GET]) *)

(** The columns of a vote that [GET /api/polls/[id]/vote] selects. *)
Record VoteSummary := mkVoteSummary {
  vs_id : string;
  vs_option_id : string;
  vs_created_at : Z
}.

(** The JSON bodies of the three [GET] handlers. *)
Inductive read_body :=
| RError (err : string)
| RPolls (data : list PollDetails)
| RPoll (poll : PollDetails) (options : list PollOptionWithStats)
    (userVote : option string)
| RVote (hasVoted : bool) (vote : option VoteSummary).

Record ReadResponse := mkReadResponse { rd_status : nat; rd_body : read_body }.

Definition read_json (st : nat) (b : read_body) : M ReadResponse :=
  ret (mkReadResponse st b).

(** The outermost [catch] of the read handlers. *)
Definition read_catch_all (m : M ReadResponse) : M ReadResponse :=
  try_catch m
    (fun _ => read_json 500 (RError "An unexpected error occurred")).

(** [ORDER BY created_at DESC] on the rows of [poll_details]; rows created
    at the same instant keep their order. *)
Fixpoint insert_details_desc (x : PollDetails) (l : list PollDetails)
  : list PollDetails :=
  match l with
  | [] => [x]
  | y :: r =>
      if (poll_created_at (pd_poll y) <? poll_created_at (pd_poll x))%Z
      then x :: l
      else y :: insert_details_desc x r
  end.

Definition details_by_created_at_desc (l : list PollDetails)
  : list PollDetails :=
  fold_right insert_details_desc [] l.

Module RouteGet.

Section Handler.

Variable select_div_scale : numeric -> numeric -> Z.

(** The vote of the cookie session's user on poll [id], as the handler
    looks it up: [null] without cookie, without user, and whenever the
    lookup does not give exactly one row. *)
Definition user_vote (c : Credentials) (id : string) : M (option string) :=
  match access_token c with
  | Some supabaseToken =>
      if Js.truthy supabaseToken then
        user <- Route.token_user supabaseToken ;;
        match user with
        | Some uid =>
            rv <- request (Select "votes")
                    (query (fun d =>
                              filter
                                (fun v => (vote_poll_id v =? id)%string
                                          && (vote_user_id v =? uid)%string)
                                (votes d))) ;;
            match single rv with
            | Data vote => ret (Some (vote_option_id vote))
            | Failed _ => ret None
            end
        | None => ret None
        end
      else ret None
  | None => ret None
  end.

(** [GET /api/polls/[id]]. *)
Definition GET (c : Credentials) (id : string) : M ReadResponse :=
  read_catch_all
    (rp <- request (Select "poll_details")
             (query (fun d =>
                       filter (fun pd => (poll_id (pd_poll pd) =? id)%string)
                         (poll_details d))) ;;
     match single rp with
     | Failed pollError =>
         if (pg_code pollError =? "PGRST116")%string
         then read_json 404 (RError "Poll not found")
         else read_json 500 (RError "Failed to fetch poll")
     | Data poll =>
         ro <- request (Select "poll_options_with_stats")
                 (query (fun d =>
                           filter (fun o => (pos_poll_id o =? id)%string)
                             (poll_options_with_stats select_div_scale d))) ;;
         match ro with
         | Failed _ => read_json 500 (RError "Failed to fetch poll options")
         | Data options =>
             userVote <- user_vote c id ;;
             read_json 200 (RPoll poll options userVote)
         end
     end).

End Handler.

End RouteGet.

Module PollsRouteGet.

(** [GET /api/polls]: every row of [poll_details], newest first. *)
Definition GET : M ReadResponse :=
  read_catch_all
    (r <- request (Select "poll_details")
            (query (fun d => details_by_created_at_desc (poll_details d))) ;;
     match r with
     | Failed _ => read_json 500 (RError "Failed to fetch polls")
     | Data data => read_json 200 (RPolls data)
     end).

End PollsRouteGet.

Module VoteRouteGet.

(** [GET /api/polls/[id]/vote]: the caller's vote on the poll. *)
Definition GET (c : Credentials) (pollId : string) : M ReadResponse :=
  read_catch_all
    (user <- Route.cookie_user c ;;
     match user with
     | None => read_json 401 (RError "Authentication required")
     | Some uid =>
         rv <- request (Select "votes")
                 (query (fun d =>
                           filter
                             (fun v => (vote_poll_id v =? pollId)%string
                                       && (vote_user_id v =? uid)%string)
                             (votes d))) ;;
         match single rv with
         | Failed voteError =>
             if negb (pg_code voteError =? "PGRST116")%string
             then read_json 500 (RError "Failed to fetch vote")
             else read_json 200 (RVote false None)
         | Data vote =>
             read_json 200
               (RVote true
                  (Some (mkVoteSummary (vote_id vote) (vote_option_id vote)
                           (vote_created_at vote))))
         end
     end).

End VoteRouteGet.

(** ** Request headers ([auth-utils.ts]) *)

(** [getAuthHeaders()], as a function of how
    [supabaseClient.getCurrentSession()] settles: it throws, or it returns
    the access token of the session, or [null]. *)
Definition getAuthHeaders (session : exn + option string)
  : M (list (string * string)) :=
  try_catch
    (s <- lift session ;;
     match s with
     | Some access_token =>
         if Js.truthy access_token then
           ret [("Authorization", ("Bearer " ++ access_token)%string);
                ("Content-Type", "application/json")]
         else throw (AuthError "No valid session found" (Some "NO_SESSION"))
     | None => throw (AuthError "No valid session found" (Some "NO_SESSION"))
     end)
    (fun error =>
       throw (AuthError (exn_message error) (Some "AUTH_HEADER_ERROR"))).

(** ** The browser client ([app/lib/poll-actions.ts]) *)

(** What the browser holds: the entry [auth_token] of [localStorage], and
    the cookie [sb-access-token], which goes with every request to the
    application's own origin. *)
Record Browser := mkBrowser {
  auth_token : option string;
  sb_access_token : option string
}.

(** How the promise of a client call settles. *)
Inductive settled (A : Type) :=
| Resolved (value : A)
| Rejected (message : string).
Arguments Resolved {A} value.
Arguments Rejected {A} message.

(** [response.ok]. *)
Definition response_ok (st : nat) : bool :=
  ((200 <=? st) && (st <=? 299))%nat.

(** [errorData.error || fallback]. *)
Definition error_or (b : json_body) (fallback : string) : string :=
  match b with
  | JError e => if Js.truthy e then e else fallback
  | _ => fallback
  end.

Module PollActions.

(** The part after [fetch]: the body of an [ok] response, else an
    [Error] with the message of the response. *)
Definition settle (fallback : string) (response : HttpResponse)
  : settled json_body :=
  if response_ok (status response) then Resolved (body response)
  else Rejected (error_or (body response) fallback).

(** The two reads throw a fixed message. *)
Definition settle_read (msg : string) (response : ReadResponse)
  : settled read_body :=
  if response_ok (rd_status response) then Resolved (rd_body response)
  else Rejected msg.

(** The headers of the two reads: the bearer token when there is one. *)
Definition optional_bearer (b : Browser) : option string :=
  match auth_token b with
  | Some token => if Js.truthy token then Some ("Bearer " ++ token)%string else None
  | None => None
  end.

Definition fetchPolls (b : Browser) : M (settled read_body) :=
  response <- PollsRouteGet.GET ;;
  ret (settle_read "Failed to fetch polls" response).

Definition fetchPollById (rs : numeric -> numeric -> Z) (b : Browser)
  (id : string) : M (settled read_body) :=
  response <- RouteGet.GET rs
                (mkCredentials (optional_bearer b) (sb_access_token b)) id ;;
  ret (settle_read "Failed to fetch poll" response).

(** The guard that opens the four mutating calls. *)
Definition with_token {A} (b : Browser) (k : string -> M (settled A))
  : M (settled A) :=
  match auth_token b with
  | Some token =>
      if Js.truthy token then k token
      else ret (Rejected "Authentication required")
  | None => ret (Rejected "Authentication required")
  end.

Definition createPoll (clk : clock) (b : Browser)
  (pollData : CreatePollRequest) : M (settled json_body) :=
  with_token b
    (fun token =>
       response <- PollsRoute.POST clk
                     (mkCredentials (Some ("Bearer " ++ token)%string)
                        (sb_access_token b))
                     pollData ;;
       ret (settle "Failed to create poll" response)).

Definition updatePoll (clk : clock) (b : Browser) (id : string)
  (pollData : PatchBody) : M (settled json_body) :=
  with_token b
    (fun token =>
       response <- Route.PATCH clk
                     (mkCredentials (Some ("Bearer " ++ token)%string)
                        (sb_access_token b))
                     id pollData ;;
       ret (settle "Failed to update poll" response)).

Definition deletePoll (b : Browser) (id : string) : M (settled json_body) :=
  with_token b
    (fun token =>
       response <- Route.DELETE
                     (mkCredentials (Some ("Bearer " ++ token)%string)
                        (sb_access_token b))
                     id ;;
       ret (settle "Failed to delete poll" response)).

Definition castVote (rs : numeric -> numeric -> Z) (clk : clock)
  (b : Browser) (pollId optionId : string) : M (settled json_body) :=
  with_token b
    (fun token =>
       response <- VoteRoute.POST rs clk
                     (mkCredentials (Some ("Bearer " ++ token)%string)
                        (sb_access_token b))
                     pollId (Some optionId) ;;
       ret (settle "Failed to cast vote" response)).

End PollActions.

(** ** The edit form ([app/polls/[id]/edit/page.tsx]) *)

Module EditPollPage.

(** [options.filter(opt => opt.text.trim() !== "")]. *)
Definition validOptions (options : list EditOption) : list EditOption :=
  filter (fun opt => negb (Js.trim (eo_text opt) =? "")%string) options.

(** [validateForm]: the entries of [newErrors]; the form is valid when
    there is none. *)
Definition validateForm (title : string) (options : list EditOption)
  : list (string * string) :=
  (if negb (Js.truthy (Js.trim title))
   then [("title", "Title is required")] else [])
  ++ (if (List.length (validOptions options) <? 2)%nat
      then [("options", "At least two options are required")] else []).

(** [addOption] at instant [t] ([Date.now()]). *)
Definition addOption (t : Z) (options : list EditOption) : list EditOption :=
  options
  ++ [mkEditOption ("new-" ++ NilZero.string_of_int (Z.to_int t))%string ""].

(** [removeOption]: [splice(index, 1)] unless two options or fewer are
    left. *)
Definition removeOption (options : list EditOption) (index : nat)
  : list EditOption :=
  if (List.length options <=? 2)%nat then options
  else firstn index options ++ skipn (S index) options.

(** The body [handleSubmit] sends with [PATCH]. *)
Definition pollData (title description : string)
  (options : list EditOption) : PatchBody :=
  mkPatchBody None (Some title)
    (if Js.truthy description then Some (Some description) else None)
    None
    (Some (map (fun opt => mkPatchOption (Some (eo_id opt)) (eo_text opt))
             (validOptions options))).

End EditPollPage.

(** * Vocabulary of the properties *)

(** ** Outcomes *)

(** The user a service operation runs for. *)
Definition session_user (w : world) (credential : option string)
  : option string :=
  match credential with
  | Some token => getUser w token
  | None => None
  end.

(** The code of the response a service operation resolved to, and whether
    it reported success. *)
Definition outcome_code {A} (r : exn + ApiResponse A) : option string :=
  match r with
  | inr resp => failure_code resp
  | inl _ => None
  end.

Definition succeeded {A} (r : exn + ApiResponse A) : bool :=
  match r with
  | inr resp => is_success resp
  | inl _ => false
  end.

(** The HTTP status a route handler answered with. *)
Definition http_status (r : exn + HttpResponse) : option nat :=
  match r with
  | inr resp => Some (status resp)
  | inl _ => None
  end.

(** What holds of the outcome and the world once [m] has run from [w]. *)
Definition wp {A} (m : M A) (Q : exn + A -> world -> Prop) (w : world)
  : Prop :=
  Q (fst (m w)) (snd (m w)).

(** The world after a request was sent from [w]. *)
Definition sent (w : world) (c : call) (d : database) : world :=
  mkWorld d (sessions w) (tl (faults w)) (log w ++ [c]).

(** The environment serves the next [n] requests. *)
Fixpoint no_fault (n : nat) (fs : list bool) : bool :=
  match n, fs with
  | O, _ => true
  | S _, [] => true
  | S k, f :: r => negb f && no_fault k r
  end.

Definition quiet (n : nat) (w : world) : Prop :=
  no_fault n (faults w) = true.

(** ** Tables *)

(** The primary key of [polls]. *)
Definition polls_ok (d : database) : Prop := NoDup (map poll_id (polls d)).

(** The primary key of [poll_options]. *)
Definition options_ok (d : database) : Prop :=
  NoDup (map option_id (poll_options d)).

(** The key of the constraint [unique_user_poll_vote]. *)
Definition vote_key (v : Vote) : string * string :=
  (vote_user_id v, vote_poll_id v).

(** The constraints of the [votes] table that the statements maintain:
    its primary key and [unique_user_poll_vote]. *)
Definition votes_ok (d : database) : Prop :=
  NoDup (map vote_id (votes d)) /\ NoDup (map vote_key (votes d)).

(** The votes of user [u] on poll [p]. *)
Definition votes_of (d : database) (u p : string) : list Vote :=
  filter (fun v => (vote_user_id v =? u)%string
                   && (vote_poll_id v =? p)%string) (votes d).

(** The distinct users with a vote on poll [p]. *)
Definition voters (d : database) (p : string) : list string :=
  nodup string_dec
    (map vote_user_id
       (filter (fun v => (vote_poll_id v =? p)%string) (votes d))).

(** The poll's total as the sub-select of [poll_options_with_stats]
    counts it. *)
Definition poll_total (d : database) (pid : string) : nat :=
  List.length (filter (fun v => (vote_poll_id v =? pid)%string) (votes d)).

(** What the soft delete does to a poll row at instant [t]. *)
Definition switch_off (t : Z) (p : Poll) : Poll :=
  mkPoll (poll_id p) (poll_title p) (poll_description p) false
    (poll_created_by p) (poll_created_at p) (poll_expires_at p) t.

(** Every row of poll [id] has [is_active = false]. *)
Definition switched_off (d : database) (id : string) : Prop :=
  forall p, In p (polls d) -> poll_id p = id -> poll_is_active p = false.

(** The vote rows are the same, and every option that carries a vote in
    [d] is still an option in [d']. *)
Definition votes_kept (d d' : database) : Prop :=
  votes d' = votes d
  /\ forall oid,
       0 < count_option_votes d oid -> has_option d oid = true ->
       has_option d' oid = true.

(** Every vote references an option that exists (the foreign key of
    [votes.option_id]). *)
Definition votes_reference_options (d : database) : Prop :=
  forall v, In v (votes d) -> has_option d (vote_option_id v) = true.

(** ** Sequences of vote casts *)

(** A vote cast through one of the entry paths: the service, the vote
    route, or the stored function called directly.  [OverlappedInsert] is
    the insert request of the service's [castVote] on its own, as it
    reaches the store when the check for an existing vote was made before
    another call's insert (two overlapping calls). *)
Inductive cast_op :=
| ServiceCast (clk : clock) (credential : option string)
    (pollId optionId : string)
| RouteCast (clk : clock) (c : Credentials) (pollId : string)
    (optionId : option string)
| StoredCast (t : Z) (p_poll_id p_option_id p_user_id : string)
| OverlappedInsert (t : Z) (pollId optionId userId : string).

Definition run_cast (rs : numeric -> numeric -> Z) (op : cast_op) (w : world)
  : world :=
  match op with
  | ServiceCast clk cr p o => snd (PollService.castVote clk cr p o w)
  | RouteCast clk c p o => snd (VoteRoute.POST rs clk c p o w)
  | StoredCast t p o u =>
      snd (request (Rpc "cast_vote") (fun d => cast_vote d p o u t) w)
  | OverlappedInsert t p o u =>
      snd (request (Insert "votes") (fun d => insert_vote d p o u t) w)
  end.

Definition run_casts (rs : numeric -> numeric -> Z) (ops : list cast_op)
  (w : world) : world :=
  fold_left (fun w op => run_cast rs op w) ops w.

(** The user and the poll of a cast that its entry path reports as done
    when run from [w]. *)
Definition cast_done (rs : numeric -> numeric -> Z) (op : cast_op)
  (w : world) : option (string * string) :=
  match op with
  | ServiceCast clk cr p o =>
      if succeeded (fst (PollService.castVote clk cr p o w))
      then option_map (fun u => (u, p)) (session_user w cr)
      else None
  | RouteCast clk c p o =>
      match http_status (fst (VoteRoute.POST rs clk c p o w)),
            fst (Route.cookie_user c w) with
      | Some n, inr (Some u) => if (n =? 200)%nat then Some (u, p) else None
      | _, _ => None
      end
  | StoredCast t p o u =>
      match fst (request (Rpc "cast_vote")
                   (fun d => cast_vote d p o u t) w) with
      | inr (Data _) => Some (u, p)
      | _ => None
      end
  | OverlappedInsert t p o u =>
      match fst (request (Insert "votes")
                   (fun d => insert_vote d p o u t) w) with
      | inr (Data _) => Some (u, p)
      | _ => None
      end
  end.

(** The casts reported as done along a run. *)
Fixpoint casts_done (rs : numeric -> numeric -> Z) (ops : list cast_op)
  (w : world) : list (string * string) :=
  match ops with
  | [] => []
  | op :: rest =>
      match cast_done rs op w with
      | Some k => k :: casts_done rs rest (run_cast rs op w)
      | None => casts_done rs rest (run_cast rs op w)
      end
  end.

(** ** The percentage as specified *)

(** The spec's words: [100 * k / n] rounded to one decimal place, as a
    number of tenths (ties go up). *)
Definition nearest_tenths (k n : Z) : Z := ((2 * (1000 * k) + n) / (2 * n))%Z.

Definition spec_percentage (k n : nat) : numeric :=
  if (n =? 0)%nat then numeric_of_int 0
  else mkNumeric (nearest_tenths (Z.of_nat k) (Z.of_nat n)) 1.

(** ** A small instance

    The scenario of the specification: Ann ([u1]) owns the poll
    "Favorite color?" with the options Red and Blue; Bob ([u2]) and Cleo
    ([u3]) are other users.  Sessions [t1], [t2], [t3] belong to them, and
    the clock reads 1000. *)

Definition example_clock : clock := mkClock 1000 2000.

Definition example_poll : Poll :=
  mkPoll "p1" "Favorite color?" None true "u1" 10 None 10.

Definition example_db : database :=
  mkDatabase
    [mkProfile "u1" "ann@example.org" "Ann";
     mkProfile "u2" "bob@example.org" "Bob";
     mkProfile "u3" "cleo@example.org" "Cleo"]
    [example_poll]
    [mkPollOption "red" "p1" "Red" 10 10;
     mkPollOption "blue" "p1" "Blue" 10 10]
    [].

Definition example_sessions : list (string * string) :=
  [("t1", "u1"); ("t2", "u2"); ("t3", "u3")].

Definition example_world : world :=
  mkWorld example_db example_sessions [] [].

Definition cookie (token : string) : Credentials :=
  mkCredentials None (Some token).

(** The instance after Bob has voted for Red. *)
Definition example_db_voted : database :=
  set_votes example_db [mkVote "v1" "p1" "red" "u2" 500].

Definition example_world_voted : world :=
  mkWorld example_db_voted example_sessions [] [].

(** The instance with three votes: Bob for Red, Cleo and Ann for Blue. *)
Definition example_db_three : database :=
  set_votes example_db
    [mkVote "v1" "p1" "red" "u2" 500;
     mkVote "v2" "p1" "blue" "u3" 600;
     mkVote "v3" "p1" "blue" "u1" 700].

(** The instance with the poll switched off ([is_active = false]). *)
Definition example_db_closed : database :=
  set_polls example_db
    [mkPoll "p1" "Favorite color?" None false "u1" 10 None 10].

Definition example_world_closed : world :=
  mkWorld example_db_closed example_sessions [] [].

(** The instance with the poll still switched on but expired at 900,
    before the instant 1000 of [example_clock]. *)
Definition example_poll_expired : Poll :=
  mkPoll "p1" "Favorite color?" None true "u1" 10 (Some 900%Z) 10.

Definition example_world_expired : world :=
  mkWorld (set_polls example_db [example_poll_expired]) example_sessions
    [] [].

(** A valid request, and one that breaks two rules at once: the title is
    empty and there is one option only. *)
Definition example_request : CreatePollRequest :=
  mkCreatePollRequest "Favorite animal?" None ["Cat"; "Dog"] None.

Definition example_bad_request : CreatePollRequest :=
  mkCreatePollRequest "" (Some "which one?") ["Red"] None.

Definition example_edit : EditPollFormData :=
  mkEditPollFormData "Favorite colour?" None
    [mkEditOption "red" "Red"; mkEditOption "new-1" "Green"].

(** The scale of sixteen fractional digits for every quotient. *)
Definition example_scale : numeric -> numeric -> Z := fun _ _ => 16%Z.

(** ** Votes and the options of their poll *)

(** Every vote is for an option of the poll it is on.  The schema does not
    ask for it: [votes.option_id] references [poll_options] whatever the
    option's poll is. *)
Definition votes_on_own_options (d : database) : Prop :=
  forall v, In v (votes d) ->
    exists o, In o (poll_options d)
              /\ option_id o = vote_option_id v
              /\ option_poll_id o = vote_poll_id v.

(** Nothing outside poll [id] differs between [d] and [d']: the profiles
    and the votes are the same, and so are the rows of the other polls and
    the options of the other polls. *)
Definition outside_untouched (id : string) (d d' : database) : Prop :=
  profiles d' = profiles d
  /\ votes d' = votes d
  /\ (forall q, poll_id q <> id -> (In q (polls d') <-> In q (polls d)))
  /\ (forall o, option_poll_id o <> id ->
                (In o (poll_options d') <-> In o (poll_options d))).

(** Newest first. *)
Definition newer_or_same (a b : Poll) : Prop :=
  (poll_created_at b <= poll_created_at a)%Z.

(** The row of poll [id] after an update with [f] at instant [t]. *)
Definition updated_rows (id : string) (f : Poll -> Poll) (t : Z)
  (ps : list Poll) : list Poll :=
  map (fun p => if (poll_id p =? id)%string then touch_poll t (f p) else p)
    ps.

(** Insertion before the first element with a smaller key: the sort that
    [ORDER BY ... DESC] stands for, on any rows. *)
Fixpoint insert_by_desc {X} (key : X -> Z) (x : X) (l : list X) : list X :=
  match l with
  | [] => [x]
  | y :: r => if (key y <? key x)%Z then x :: l else y :: insert_by_desc key x r
  end.

(** ** Operations *)






(** * Properties *)

(** ** Reasoning rules for handler bodies *)

Section Rules.

Context {A B : Type}.

Lemma wp_ret (a : A) Q w : Q (inr a) w -> wp (ret a) Q w.
Proof. exact (fun H => H). Qed.

Lemma wp_throw (e : exn) (Q : exn + A -> world -> Prop) w :
  Q (inl e) w -> wp (throw e) Q w.
Proof. exact (fun H => H). Qed.

Lemma wp_lift (r : exn + A) Q w : Q r w -> wp (lift r) Q w.
Proof. exact (fun H => H). Qed.

Lemma wp_bind (m : M A) (k : A -> M B) Q w :
  wp m (fun r w' => match r with
                    | inr a => wp (k a) Q w'
                    | inl e => Q (inl e) w'
                    end) w ->
  wp (bind m k) Q w.
Proof.
  unfold wp, bind. destruct (m w) as [[e|a] w']; cbn; auto.
Qed.

Lemma wp_try_catch (m : M A) (h : exn -> M A) Q w :
  wp m (fun r w' => match r with
                    | inr a => Q (inr a) w'
                    | inl e => wp (h e) Q w'
                    end) w ->
  wp (try_catch m h) Q w.
Proof.
  unfold wp, try_catch. destruct (m w) as [[e|a] w']; cbn; auto.
Qed.

Lemma wp_request (c : call) (stmt : database -> sql_result (A * database))
  Q w :
  (next_fault w = true -> Q (inr (Failed unavailable)) (sent w c (db w))) ->
  (next_fault w = false -> forall a d',
      stmt (db w) = SqlOk (a, d') -> Q (inr (Data a)) (sent w c d')) ->
  (next_fault w = false -> forall e,
      stmt (db w) = SqlError e ->
      Q (inr (Failed (pg_error e))) (sent w c (db w))) ->
  wp (request c stmt) Q w.
Proof.
  intros Hf Hok Herr. unfold wp, request, sent in *.
  destruct (next_fault w); [apply Hf; reflexivity|].
  destruct (stmt (db w)) as [[a d']|e]; cbn.
  - apply Hok; reflexivity.
  - apply Herr; reflexivity.
Qed.

Lemma wp_query (c : call) (f : database -> A) Q w :
  (next_fault w = true -> Q (inr (Failed unavailable)) (sent w c (db w))) ->
  (next_fault w = false -> Q (inr (Data (f (db w)))) (sent w c (db w))) ->
  wp (request c (query f)) Q w.
Proof.
  intros Hf Hok. apply wp_request; auto.
  - intros Hn a d' E. unfold query in E. inversion E; subst. auto.
  - intros Hn e E. discriminate E.
Qed.

Lemma wp_weaken (m : M A) (Q Q' : exn + A -> world -> Prop) w :
  (forall r w', Q r w' -> Q' r w') -> wp m Q w -> wp m Q' w.
Proof. unfold wp. auto. Qed.

End Rules.

(** ** Stepping through handler bodies *)

Lemma wp_getCurrentUser (cr : option string)
  (Q : exn + option string -> world -> Prop) w :
  Q (inr (match cr with Some token => getUser w token | None => None end)) w ->
  wp (getCurrentUser cr) Q w.
Proof. exact (fun H => H). Qed.

Lemma wp_cookie_user (c : Credentials)
  (Q : exn + option string -> world -> Prop) w :
  Q (inr (match access_token c with
          | Some token => if Js.truthy token then getUser w token else None
          | None => None
          end)) w ->
  wp (Route.cookie_user c) Q w.
Proof. exact (fun H => H). Qed.

Ltac wp_unfold :=
  unfold PollService.castVote, PollService.createPoll, PollService.updatePoll,
    PollService.deletePoll, PollService.fetchPollById, PollService.fetchPolls,
    PollService.select_active_poll, PollService.operation_failed,
    PollService.unbound_validateEditPollFormData,
    PollService.catch_mutation, PollService.catch_read, requireAuth,
    VoteRoute.POST, Route.DELETE, Route.PATCH, Route.catch_all, Route.json,
    Route.unauthenticated, Route.select_poll, Route.poll_fetch_failed.

Ltac wp_step :=
  lazymatch goal with
  | |- wp (ret _) _ _ => apply wp_ret; cbv beta iota
  | |- wp (throw _) _ _ => apply wp_throw; cbv beta iota
  | |- wp (lift _) _ _ => apply wp_lift; cbv beta iota
  | |- wp (bind _ _) _ _ => apply wp_bind
  | |- wp (try_catch _ _) _ _ => apply wp_try_catch
  | |- wp (getCurrentUser _) _ _ => apply wp_getCurrentUser; cbv beta iota
  | |- wp (Route.cookie_user _) _ _ => apply wp_cookie_user; cbv beta iota
  | |- wp (request _ (query _)) _ _ => apply wp_query; intros; cbv beta iota
  | |- wp (request _ _) _ _ => apply wp_request; intros; cbv beta iota
  | |- wp (match ?x with _ => _ end) _ _ =>
      first [ progress cbn [instanceof_AuthenticationError
                            instanceof_PollOperationError]
            | destruct x eqn:? ]
  | |- wp (let _ := _ in _) _ _ => cbv zeta
  | |- wp _ _ _ => progress wp_unfold
  end.

Ltac wp_run := repeat wp_step.

(** ** Requests that the environment serves *)

Lemma quiet_step (n : nat) (w : world) (c : call) (d : database) :
  quiet (S n) w -> next_fault w = false /\ quiet n (sent w c d).
Proof.
  unfold quiet, next_fault, sent. cbn [faults].
  destruct (faults w) as [|[] fs]; cbn; intros H.
  - split; [reflexivity|]. destruct n; reflexivity.
  - discriminate H.
  - split; [reflexivity|exact H].
Qed.

Lemma wp_query_quiet {A} (n : nat) (c : call) (f : database -> A) Q w :
  quiet (S n) w ->
  (quiet n (sent w c (db w)) ->
   Q (inr (Data (f (db w)))) (sent w c (db w))) ->
  wp (request c (query f)) Q w.
Proof.
  intros Hq H. destruct (quiet_step n w c (db w) Hq) as [Hn Hq'].
  apply wp_query; [congruence|auto].
Qed.

Lemma wp_request_quiet {A} (n : nat) (c : call)
  (stmt : database -> sql_result (A * database)) Q w :
  quiet (S n) w ->
  (forall a d', stmt (db w) = SqlOk (a, d') ->
                quiet n (sent w c d') -> Q (inr (Data a)) (sent w c d')) ->
  (forall e, stmt (db w) = SqlError e ->
             quiet n (sent w c (db w)) ->
             Q (inr (Failed (pg_error e))) (sent w c (db w))) ->
  wp (request c stmt) Q w.
Proof.
  intros Hq Hok Herr. apply wp_request.
  - destruct (quiet_step n w c (db w) Hq) as [Hn _]. congruence.
  - intros _ a d' E. apply Hok; [exact E|].
    exact (proj2 (quiet_step n w c d' Hq)).
  - intros _ e E. apply Herr; [exact E|].
    exact (proj2 (quiet_step n w c (db w) Hq)).
Qed.

Lemma wp_request_known {A} (n : nat) (c : call)
  (stmt : database -> sql_result (A * database)) (a : A) (d' : database)
  Q w :
  quiet (S n) w -> stmt (db w) = SqlOk (a, d') ->
  (quiet n (sent w c d') -> Q (inr (Data a)) (sent w c d')) ->
  wp (request c stmt) Q w.
Proof.
  intros Hq E H. apply (wp_request_quiet n); [exact Hq| |].
  - intros a0 d0 E0 Hq'. rewrite E in E0. inversion E0; subst. auto.
  - intros e E0. rewrite E in E0. discriminate E0.
Qed.

Lemma wp_request_served {A} (c : call)
  (stmt : database -> sql_result (A * database)) (a : A) (d' : database)
  Q w :
  next_fault w = false -> stmt (db w) = SqlOk (a, d') ->
  Q (inr (Data a)) (sent w c d') ->
  wp (request c stmt) Q w.
Proof.
  intros Hn E H. apply wp_request.
  - congruence.
  - intros _ a0 d0 E0. rewrite E in E0. inversion E0; subst. exact H.
  - intros _ e E0. rewrite E in E0. discriminate E0.
Qed.

Lemma wp_request_refused {A} (c : call)
  (stmt : database -> sql_result (A * database)) Q w :
  next_fault w = true ->
  Q (inr (Failed unavailable)) (sent w c (db w)) ->
  wp (request c stmt) Q w.
Proof.
  intros Hn H. apply wp_request; [auto|congruence|congruence].
Qed.

Lemma wp_eq {A} (m : M A) (x : exn + A) (w w0 : world) :
  wp m (fun r w' => r = x /\ w' = w0) w -> m w = (x, w0).
Proof.
  unfold wp. destruct (m w) as [r w']. cbn. intros [-> ->]. reflexivity.
Qed.

(** The steps that do not branch: sequencing, returns and throws. *)
Ltac wp_seq :=
  repeat lazymatch goal with
    | |- wp (ret _) _ _ => apply wp_ret; cbv beta iota
    | |- wp (throw _) _ _ => apply wp_throw; cbv beta iota
    | |- wp (lift _) _ _ => apply wp_lift; cbv beta iota
    | |- wp (bind _ _) _ _ => apply wp_bind
    | |- wp (try_catch _ _) _ _ => apply wp_try_catch
    | |- wp (getCurrentUser _) _ _ => apply wp_getCurrentUser; cbv beta iota
    | |- wp (Route.cookie_user _) _ _ => apply wp_cookie_user; cbv beta iota
    | |- wp (let _ := _ in _) _ _ => cbv zeta
    | |- wp (request _ _) _ _ => fail
    | |- wp (match _ with _ => _ end) _ _ =>
        progress cbn [instanceof_AuthenticationError
                      instanceof_PollOperationError]
    | |- wp _ _ _ => progress wp_unfold
    end.

(** A served read, and a served statement with a known result. *)
Ltac wp_read H :=
  eapply wp_query_quiet; [exact H|]; clear H; intros H; cbv beta iota.

(** ** Keys and lists *)

Lemma length_le_max_length (s : string) (used : list string) :
  In s used -> String.length s <= max_length used.
Proof.
  induction used as [|x r IH]; cbn; [tauto|].
  intros [->|H]; [lia|]. specialize (IH H). lia.
Qed.

Lemma length_repeat_char (c : ascii) (n : nat) :
  String.length (repeat_char c n) = n.
Proof. induction n; cbn; congruence. Qed.

(** The generated key is not in use. *)
Lemma uuid_generate_v4_fresh (used : list string) :
  ~ In (uuid_generate_v4 used) used.
Proof.
  intros H. apply length_le_max_length in H.
  unfold uuid_generate_v4 in H. rewrite length_repeat_char in H. lia.
Qed.

Lemma NoDup_map_filter {X Y} (f : X -> Y) (g : X -> bool) (l : list X) :
  NoDup (map f l) -> NoDup (map f (filter g l)).
Proof.
  induction l as [|x r IH]; cbn; [auto|].
  intros H. inversion H as [|? ? Hn Hr]; subst.
  destruct (g x); cbn; [|auto].
  constructor; [|auto].
  intros Hin. apply Hn. apply in_map_iff in Hin.
  destruct Hin as [y [Hy Hiny]]. apply filter_In in Hiny.
  apply in_map_iff. exists y. tauto.
Qed.

(** Rows selected by their key are at most one. *)
Lemma filter_key_unique {X Y} (f : X -> Y) (g : X -> bool) (k : Y)
  (l : list X) :
  NoDup (map f l) ->
  (forall x, g x = true -> f x = k) ->
  List.length (filter g l) <= 1.
Proof.
  intros Hnd Hk. induction l as [|x r IH]; cbn; [lia|].
  inversion Hnd as [|? ? Hn Hr]; subst. specialize (IH Hr).
  destruct (g x) eqn:E; [|exact IH]. cbn.
  destruct (filter g r) as [|y t] eqn:F; [cbn; lia|].
  exfalso. apply Hn.
  assert (In y (filter g r)) as Hy by (rewrite F; left; reflexivity).
  apply filter_In in Hy. destruct Hy as [Hy Gy].
  apply in_map_iff. exists y. split; [|exact Hy].
  rewrite (Hk _ Gy), (Hk _ E). reflexivity.
Qed.

(** A second key that is as fine as a first one on the listed rows has no
    duplicates either. *)
Lemma NoDup_map_finer {X Y Z'} (f : X -> Y) (g : X -> Z') (l : list X) :
  NoDup (map f l) ->
  (forall x y, In x l -> In y l -> g x = g y -> f x = f y) ->
  NoDup (map g l).
Proof.
  induction l as [|x r IH]; cbn; [constructor|].
  intros Hnd Hfine. inversion Hnd as [|? ? Hn Hr]; subst.
  constructor.
  - intros Hin. apply Hn. apply in_map_iff in Hin.
    destruct Hin as [y [Hy Hiny]]. apply in_map_iff. exists y.
    split; [|exact Hiny]. apply Hfine; auto.
  - apply IH; [exact Hr|]. intros a b Ha Hb. apply Hfine; auto.
Qed.

Lemma filter_none {X} (g : X -> bool) (l : list X) :
  (forall y, In y l -> g y = false) -> filter g l = [].
Proof.
  induction l as [|a r IH]; cbn; [reflexivity|].
  intros H. rewrite (H a) by auto. apply IH. intros y Hy. apply H. auto.
Qed.

(** A row selected by its key is the only row selected. *)
Lemma filter_key_single {X Y} (f : X -> Y) (g : X -> bool) (x : X)
  (l : list X) :
  NoDup (map f l) -> In x l -> g x = true ->
  (forall y, In y l -> g y = true -> f y = f x) ->
  filter g l = [x].
Proof.
  induction l as [|a r IH]; cbn [map filter In]; [tauto|].
  intros Hnd Hin Hgx Hkey. inversion Hnd as [|? ? Hn Hr]; subst.
  destruct Hin as [->|Hin].
  - rewrite Hgx. f_equal. apply filter_none. intros y Hy.
    destruct (g y) eqn:Gy; [|reflexivity]. exfalso. apply Hn.
    apply in_map_iff. exists y. split; [|exact Hy].
    apply Hkey; [right; exact Hy|exact Gy].
  - destruct (g a) eqn:Ga.
    + exfalso. apply Hn. apply in_map_iff. exists x. split; [|exact Hin].
      symmetry. apply Hkey; [left; reflexivity|exact Ga].
    + apply IH; auto.
Qed.

Lemma NoDup_map_inj {X Y} (f : X -> Y) (l : list X) (x y : X) :
  NoDup (map f l) -> In x l -> In y l -> f x = f y -> x = y.
Proof.
  induction l as [|a r IH]; cbn [map In]; [tauto|].
  intros Hnd Hx Hy E. inversion Hnd as [|? ? Hn Hr]; subst.
  destruct Hx as [->|Hx]; destruct Hy as [->|Hy]; auto.
  - exfalso. apply Hn. rewrite E. apply in_map. exact Hy.
  - exfalso. apply Hn. rewrite <- E. apply in_map. exact Hx.
Qed.

Lemma filter_filter_length {X} (f g : X -> bool) (l : list X) :
  List.length (filter (fun x => f x && g x) l)
  = List.length (filter g (filter f l)).
Proof.
  induction l as [|x r IH]; cbn; [reflexivity|].
  destruct (f x); cbn; [destruct (g x); cbn; congruence|exact IH].
Qed.

Lemma has_vote_true (d : database) (u p : string) :
  has_vote d u p = true <-> In (u, p) (map vote_key (votes d)).
Proof.
  unfold has_vote. rewrite existsb_exists, in_map_iff. split.
  - intros [v [Hin Hv]]. apply andb_true_iff in Hv. destruct Hv as [Hu Hp].
    apply String.eqb_eq in Hu. apply String.eqb_eq in Hp.
    exists v. unfold vote_key. subst. auto.
  - intros [v [Hk Hin]]. unfold vote_key in Hk. inversion Hk; subst.
    exists v. rewrite !String.eqb_refl. auto.
Qed.

(** ** What the lookups return *)

Lemma select_option_row (d : database) (B p : string) (o : PollOption) :
  options_ok d -> In o (poll_options d) -> option_id o = B ->
  option_poll_id o = p ->
  filter (fun x => (option_id x =? B)%string
                   && (option_poll_id x =? p)%string) (poll_options d)
  = [o].
Proof.
  intros Hok Hin HB Hp.
  apply (filter_key_single option_id); [exact Hok|exact Hin| |].
  - rewrite HB, Hp, !String.eqb_refl. reflexivity.
  - intros y _ Hy. apply andb_true_iff in Hy. destruct Hy as [Hy _].
    apply String.eqb_eq in Hy. congruence.
Qed.

Lemma has_option_In (d : database) (o : PollOption) :
  In o (poll_options d) -> has_option d (option_id o) = true.
Proof.
  intros H. unfold has_option. apply existsb_exists. exists o.
  rewrite String.eqb_refl. auto.
Qed.

(** What the select on [polls] by id and [is_active = true] returns. *)
Lemma select_active_row (d : database) (p : string) (poll : Poll) :
  polls_ok d -> In poll (polls d) -> poll_id poll = p ->
  filter (fun x => (poll_id x =? p)%string && poll_is_active x) (polls d)
  = if poll_is_active poll then [poll] else [].
Proof.
  intros Hok Hin Hid. destruct (poll_is_active poll) eqn:Ha.
  - apply (filter_key_single poll_id); [exact Hok|exact Hin| |].
    + rewrite Hid, String.eqb_refl, Ha. reflexivity.
    + intros y _ Hy. apply andb_true_iff in Hy. destruct Hy as [Hy _].
      apply String.eqb_eq in Hy. congruence.
  - apply filter_none. intros y Hy.
    destruct (poll_id y =? p)%string eqn:E; [|reflexivity].
    apply String.eqb_eq in E.
    assert (y = poll) as ->
      by (apply (NoDup_map_inj poll_id (polls d)); auto; congruence).
    rewrite Ha. reflexivity.
Qed.

Lemma select_poll_row (d : database) (id : string) (poll : Poll) :
  polls_ok d -> In poll (polls d) -> poll_id poll = id ->
  filter (fun x => (poll_id x =? id)%string) (polls d) = [poll].
Proof.
  intros Hok Hin Hid.
  apply (filter_key_single poll_id); [exact Hok|exact Hin| |].
  - rewrite Hid. apply String.eqb_refl.
  - intros y _ Hy. apply String.eqb_eq in Hy. congruence.
Qed.

Lemma is_poll_active_true (d : database) (p : string) (t : Z) :
  is_poll_active d p t = Some true ->
  exists poll,
    In poll (polls d) /\ poll_id poll = p /\ poll_is_active poll = true
    /\ match poll_expires_at poll with
       | Some e => (e <? t)%Z
       | None => false
       end = false.
Proof.
  unfold is_poll_active.
  destruct (find _ (polls d)) as [poll|] eqn:F; cbn [option_map].
  - apply find_some in F. destruct F as [Hin Hid].
    apply String.eqb_eq in Hid.
    intros H. exists poll.
    destruct (poll_is_active poll); [|discriminate H].
    repeat split; auto.
    destruct (poll_expires_at poll) as [e|]; [|reflexivity].
    cbn in H. destruct (t <? e)%Z eqn:E; [|discriminate H].
    apply Z.ltb_lt in E. apply Z.ltb_ge. lia.
  - cbn. discriminate.
Qed.

(** ** The statements on [votes] keep the table's constraints *)

Lemma insert_vote_ok (d d' : database) (p o u id : string) (t : Z) :
  votes_ok d -> insert_vote d p o u t = SqlOk (id, d') -> votes_ok d'.
Proof.
  intros [Hid Hkey] E. unfold insert_vote in E.
  destruct (has_vote d u p) eqn:Hv; [discriminate|].
  destruct (has_poll d p && has_option d o && has_profile d u);
    [|discriminate].
  inversion E; subst; clear E. unfold votes_ok; cbn [votes set_votes].
  rewrite !map_app. cbn [map]. split.
  - apply NoDup_app; [exact Hid|repeat constructor; cbn; tauto|].
    intros a Ha [Hb|[]]. subst a.
    exact (uuid_generate_v4_fresh _ Ha).
  - apply NoDup_app; [exact Hkey|repeat constructor; cbn; tauto|].
    intros a Ha [Hb|[]]. subst a. unfold vote_key in Ha; cbn in Ha.
    apply has_vote_true in Ha. congruence.
Qed.

Lemma update_vote_option_ok (d d' : database) (p u o : string)
  (r : option string) :
  votes_ok d -> update_vote_option d p u o = SqlOk (r, d') -> votes_ok d'.
Proof.
  intros [Hid Hkey] E. unfold update_vote_option in E.
  destruct (filter _ (votes d)) as [|v vs]; [inversion E; subst; split; auto|].
  destruct (has_option d o); [|discriminate].
  inversion E; subst; clear E. unfold votes_ok; cbn [votes set_votes].
  rewrite !map_map.
  assert (forall f : Vote -> Vote, (forall x, vote_id (f x) = vote_id x) ->
          map (fun x => vote_id (f x)) (votes d) = map vote_id (votes d))
    as Hi by (intros f Hf; apply map_ext; exact Hf).
  assert (forall f : Vote -> Vote, (forall x, vote_key (f x) = vote_key x) ->
          map (fun x => vote_key (f x)) (votes d) = map vote_key (votes d))
    as Hk by (intros f Hf; apply map_ext; exact Hf).
  split.
  - rewrite Hi; [exact Hid|]. intros x. destruct (_ && _); reflexivity.
  - rewrite Hk; [exact Hkey|]. intros x. destruct (_ && _); reflexivity.
Qed.

Lemma cast_vote_ok (d d' : database) (p o u : string) (t : Z)
  (r : option string) :
  votes_ok d -> cast_vote d p o u t = SqlOk (r, d') -> votes_ok d'.
Proof.
  intros Hok E. unfold cast_vote in E.
  destruct (sql_holds _); [discriminate|].
  destruct (insert_vote d p o u t) as [[id d1]|e] eqn:Ei.
  - inversion E; subst. eapply insert_vote_ok; eauto.
  - destruct e; try discriminate.
    eapply update_vote_option_ok; eauto.
Qed.

Lemma insert_vote_has (d d' : database) (p o u id : string) (t : Z) :
  insert_vote d p o u t = SqlOk (id, d') ->
  has_vote d' u p = true
  /\ forall u0 p0, has_vote d u0 p0 = true -> has_vote d' u0 p0 = true.
Proof.
  unfold insert_vote. destruct (has_vote d u p); [discriminate|].
  destruct (_ && _); [|discriminate].
  intros E. inversion E; subst; clear E.
  unfold has_vote. cbn [votes set_votes]. split.
  - rewrite existsb_app. cbn. rewrite !String.eqb_refl.
    apply orb_true_r.
  - intros u0 p0 H. rewrite existsb_app, H. reflexivity.
Qed.

Lemma update_vote_option_has (d d' : database) (p u o : string)
  (r : option string) :
  update_vote_option d p u o = SqlOk (r, d') ->
  forall u0 p0, has_vote d' u0 p0 = has_vote d u0 p0.
Proof.
  unfold update_vote_option.
  destruct (filter _ (votes d)) as [|v vs]; [intros E; inversion E; auto|].
  destruct (has_option d o); [|discriminate].
  intros E. inversion E; subst; clear E. intros u0 p0.
  unfold has_vote. cbn [votes set_votes].
  induction (votes d) as [|x l IH]; cbn [map existsb]; [reflexivity|].
  rewrite IH. f_equal.
  destruct ((vote_poll_id x =? p)%string && (vote_user_id x =? u)%string);
    reflexivity.
Qed.

(** After [cast_vote] has returned, the user has a vote on the poll, and
    so has everyone who had one. *)
Lemma cast_vote_has (d d' : database) (p o u : string) (t : Z)
  (r : option string) :
  cast_vote d p o u t = SqlOk (r, d') ->
  has_vote d' u p = true
  /\ forall u0 p0, has_vote d u0 p0 = true -> has_vote d' u0 p0 = true.
Proof.
  unfold cast_vote. destruct (sql_holds _); [discriminate|].
  destruct (insert_vote d p o u t) as [[id d1]|e] eqn:Ei.
  - intros E. inversion E; subst. eapply insert_vote_has; eauto.
  - destruct e; try discriminate. intros E.
    assert (has_vote d u p = true) as Hh.
    { unfold insert_vote in Ei. destruct (has_vote d u p); [reflexivity|].
      destruct (_ && _); discriminate. }
    pose proof (update_vote_option_has _ _ _ _ _ _ E) as Hsame.
    split; [rewrite Hsame; exact Hh|].
    intros u0 p0 H. rewrite Hsame. exact H.
Qed.

(** ** One vote per user and poll (C1) *)

Lemma service_castVote_keeps (I : database -> Prop) clk cr p o w :
  (forall d d' u id,
      I d -> insert_vote d p o u (now clk) = SqlOk (id, d') -> I d') ->
  I (db w) ->
  wp (PollService.castVote clk cr p o) (fun _ w' => I (db w')) w.
Proof.
  intros Hins HI. wp_run; cbn [db sent]; eauto.
Qed.

Lemma route_POST_keeps (I : database -> Prop) rs clk c p o w :
  (forall d d' o' u r,
      I d -> cast_vote d p o' u (now clk) = SqlOk (r, d') -> I d') ->
  I (db w) ->
  wp (VoteRoute.POST rs clk c p o) (fun _ w' => I (db w')) w.
Proof.
  intros Hcast HI. wp_run; cbn [db sent]; eauto.
Qed.

Lemma run_cast_votes_ok rs op w :
  votes_ok (db w) -> votes_ok (db (run_cast rs op w)).
Proof.
  intros Hok.
  destruct op as [clk cr p o|clk c p o|t p o u|t p o u]; cbn [run_cast].
  - apply (service_castVote_keeps votes_ok); [|exact Hok].
    intros. eapply insert_vote_ok; eauto.
  - apply (route_POST_keeps votes_ok); [|exact Hok].
    intros. eapply cast_vote_ok; eauto.
  - change (wp (request (Rpc "cast_vote") (fun d => cast_vote d p o u t))
              (fun _ w' => votes_ok (db w')) w).
    wp_run; cbn [db sent]; eauto using cast_vote_ok.
  - change (wp (request (Insert "votes") (fun d => insert_vote d p o u t))
              (fun _ w' => votes_ok (db w')) w).
    wp_run; cbn [db sent]; eauto using insert_vote_ok.
Qed.

Lemma run_casts_votes_ok rs ops w :
  votes_ok (db w) -> votes_ok (db (run_casts rs ops w)).
Proof.
  revert w. induction ops as [|op ops IH]; intros w Hok; cbn; [exact Hok|].
  apply IH. apply run_cast_votes_ok. exact Hok.
Qed.

Lemma votes_of_at_most_one (d : database) (u p : string) :
  votes_ok d -> List.length (votes_of d u p) <= 1.
Proof.
  intros [_ Hkey]. unfold votes_of.
  apply (filter_key_unique vote_key _ (u, p)); [exact Hkey|].
  intros v Hv. apply andb_true_iff in Hv. destruct Hv as [Hu Hp].
  apply String.eqb_eq in Hu. apply String.eqb_eq in Hp.
  unfold vote_key. congruence.
Qed.

(** With the constraints in force, the rows of a poll, their distinct ids
    and their distinct users are equally many. *)
Lemma poll_total_voters (d : database) (p : string) :
  votes_ok d ->
  count_poll_votes_distinct d p = poll_total d p
  /\ List.length (voters d p) = poll_total d p.
Proof.
  intros [Hid Hkey].
  unfold count_poll_votes_distinct, voters, poll_total.
  set (rows := filter (fun v => (vote_poll_id v =? p)%string) (votes d)).
  assert (NoDup (map vote_id rows)) as Hid' by (apply NoDup_map_filter; auto).
  assert (NoDup (map vote_key rows)) as Hkey'
    by (apply NoDup_map_filter; auto).
  assert (NoDup (map vote_user_id rows)) as Hu.
  { apply (NoDup_map_finer vote_key); [exact Hkey'|].
    intros x y Hx Hy E. unfold rows in Hx, Hy.
    apply filter_In in Hx. apply filter_In in Hy.
    destruct Hx as [_ Hx]. destruct Hy as [_ Hy].
    apply String.eqb_eq in Hx. apply String.eqb_eq in Hy.
    unfold vote_key. congruence. }
  rewrite (nodup_fixed_point string_dec Hid').
  rewrite (nodup_fixed_point string_dec Hu).
  rewrite !length_map. split; reflexivity.
Qed.

(** A vote row, once there, survives every later cast. *)
Lemma run_cast_has_vote rs op w u p :
  has_vote (db w) u p = true -> has_vote (db (run_cast rs op w)) u p = true.
Proof.
  intros H.
  destruct op as [clk cr p1 o|clk c p1 o|t p1 o u1|t p1 o u1];
    cbn [run_cast].
  - apply (service_castVote_keeps (fun d => has_vote d u p = true));
      [|exact H].
    intros d d' u0 id Hd E. apply (insert_vote_has _ _ _ _ _ _ _ E).
    exact Hd.
  - apply (route_POST_keeps (fun d => has_vote d u p = true)); [|exact H].
    intros d d' o' u0 r Hd E. apply (cast_vote_has _ _ _ _ _ _ _ E).
    exact Hd.
  - change (wp (request (Rpc "cast_vote") (fun d => cast_vote d p1 o u1 t))
              (fun _ w' => has_vote (db w') u p = true) w).
    wp_run; cbn [db sent]; auto.
    apply (cast_vote_has _ _ _ _ _ _ _ H1). exact H.
  - change (wp (request (Insert "votes") (fun d => insert_vote d p1 o u1 t))
              (fun _ w' => has_vote (db w') u p = true) w).
    wp_run; cbn [db sent]; auto.
    apply (insert_vote_has _ _ _ _ _ _ _ H1). exact H.
Qed.

Lemma run_casts_has_vote rs ops w u p :
  has_vote (db w) u p = true -> has_vote (db (run_casts rs ops w)) u p = true.
Proof.
  revert w. induction ops as [|op ops IH]; intros w H; cbn; [exact H|].
  apply IH. apply run_cast_has_vote. exact H.
Qed.

(** A cast reported as done has left a vote row of its user. *)
Lemma cast_done_has_vote rs op w u p :
  cast_done rs op w = Some (u, p) ->
  has_vote (db (run_cast rs op w)) u p = true.
Proof.
  destruct op as [clk cr p1 o|clk c p1 o|t p1 o u1|t p1 o u1];
    cbn [cast_done run_cast].
  - destruct (succeeded _) eqn:Hs; [|discriminate].
    destruct (session_user w cr) as [u0|] eqn:Hu; [|discriminate].
    cbn [option_map]. intros E. inversion E; subst u0 p1; clear E.
    revert Hs.
    change (wp (PollService.castVote clk cr p o)
              (fun r w' => succeeded r = true ->
                           has_vote (db w') u p = true) w).
    unfold session_user in Hu. wp_seq. rewrite Hu. wp_seq.
    wp_run; cbn [db sent succeeded is_success createErrorResponse
                 createSuccessResponse]; try discriminate.
    all: intros _;
      match goal with
      | H : insert_vote _ _ _ _ _ = SqlOk (_, _) |- _ =>
          exact (proj1 (insert_vote_has _ _ _ _ _ _ _ H))
      end.
  - destruct (http_status _) as [n|] eqn:Hs; [|discriminate].
    destruct (fst (Route.cookie_user c w)) as [e|[u0|]] eqn:Hu;
      try discriminate.
    destruct (n =? 200)%nat eqn:En; [|discriminate].
    apply Nat.eqb_eq in En. subst n.
    intros E. inversion E; subst u0 p1; clear E.
    revert Hs.
    change (wp (VoteRoute.POST rs clk c p o)
              (fun r w' => http_status r = Some 200 ->
                           has_vote (db w') u p = true) w).
    cbn [fst Route.cookie_user] in Hu. inversion Hu as [Hu']. clear Hu.
    wp_seq. wp_step; wp_seq; [|cbn; discriminate].
    wp_step; wp_seq; [cbn; discriminate|].
    rewrite Hu'. wp_seq.
    wp_run; cbn [db sent http_status status]; try discriminate.
    all: intros _;
      match goal with
      | H : cast_vote _ _ _ _ _ = SqlOk (_, _) |- _ =>
          exact (proj1 (cast_vote_has _ _ _ _ _ _ _ H))
      end.
  - unfold request. destruct (next_fault w); cbn; [discriminate|].
    destruct (cast_vote (db w) p1 o u1 t) as [[r d']|e] eqn:E; cbn;
      [|discriminate].
    intros E0. inversion E0; subst.
    exact (proj1 (cast_vote_has _ _ _ _ _ _ _ E)).
  - unfold request. destruct (next_fault w); cbn; [discriminate|].
    destruct (insert_vote (db w) p1 o u1 t) as [[r d']|e] eqn:E; cbn;
      [|discriminate].
    intros E0. inversion E0; subst.
    exact (proj1 (insert_vote_has _ _ _ _ _ _ _ E)).
Qed.

Lemma casts_done_has_vote rs ops : forall w u p,
  In (u, p) (casts_done rs ops w) ->
  has_vote (db (run_casts rs ops w)) u p = true.
Proof.
  induction ops as [|op ops IH]; intros w u p; cbn [casts_done];
    [intros []|].
  change (run_casts rs (op :: ops) w)
    with (run_casts rs ops (run_cast rs op w)).
  destruct (cast_done rs op w) as [[u0 p0]|] eqn:Hd; [|apply IH].
  intros [E|Hin]; [|apply IH; exact Hin].
  inversion E; subst. apply run_casts_has_vote.
  apply cast_done_has_vote. exact Hd.
Qed.

Lemma has_vote_votes_of (d : database) (u p : string) :
  has_vote d u p = true ->
  1 <= List.length (votes_of d u p) /\ In u (voters d p).
Proof.
  unfold has_vote. intros H. apply existsb_exists in H.
  destruct H as [v [Hin Hv]].
  assert (In v (votes_of d u p)) as Hvo
    by (unfold votes_of; apply filter_In; auto).
  split.
  - destruct (votes_of d u p); [destruct Hvo|cbn; lia].
  - apply andb_true_iff in Hv. destruct Hv as [Hu Hp].
    apply String.eqb_eq in Hu. unfold voters. apply nodup_In.
    apply in_map_iff. exists v. split; [exact Hu|].
    apply filter_In. auto.
Qed.

(** C1.  Starting from a [votes] table that meets its constraints, after
    any sequence of vote casts, by any users, through any of the entry
    paths, overlapping or not, and whatever requests the store refuses,
    each user has at most one vote row per poll, and the total of a poll,
    as [poll_details] reports it and as the service embeds it, is the
    number of distinct users with a vote on it; every user whose cast was
    reported as done is among them, with exactly one row. *)
Theorem castVote_one_vote_per_user
  (rs : numeric -> numeric -> Z) (ops : list cast_op) (w : world) :
  votes_ok (db w) ->
  let d' := db (run_casts rs ops w) in
  (forall u p, List.length (votes_of d' u p) <= 1)
  /\ (forall pd, In pd (poll_details d') ->
        total_votes pd = List.length (voters d' (poll_id (pd_poll pd))))
  /\ (forall b p, pr_votes (embed b d' p)
                  = List.length (voters d' (poll_id p)))
  /\ (forall u p, In (u, p) (casts_done rs ops w) ->
        List.length (votes_of d' u p) = 1 /\ In u (voters d' p)).
Proof.
  intros Hok d'.
  assert (votes_ok d') as Hok' by (apply run_casts_votes_ok; exact Hok).
  split; [|split; [|split]].
  - intros u p. apply votes_of_at_most_one. exact Hok'.
  - intros pd Hin. unfold poll_details in Hin. apply in_map_iff in Hin.
    destruct Hin as [q [Hpd _]]. subst pd. cbn [total_votes pd_poll].
    destruct (poll_total_voters d' (poll_id q) Hok') as [H1 H2].
    congruence.
  - intros b p. cbn [embed pr_votes].
    destruct (poll_total_voters d' (poll_id p) Hok') as [_ H2].
    rewrite H2. reflexivity.
  - intros u p Hdone.
    pose proof (casts_done_has_vote rs ops w u p Hdone) as Hh.
    fold d' in Hh. destruct (has_vote_votes_of d' u p Hh) as [H1 H2].
    pose proof (votes_of_at_most_one d' u p Hok'). split; [lia|exact H2].
Qed.

(** Four casts by Bob (two through the route, both done; one through the
    service and one overlapped insert, both refused) and one by Cleo leave
    two vote rows: the total counts users, not calls. *)
Lemma castVote_one_vote_per_user_witness :
  votes_ok (db example_world)
  /\ let d' :=
       db (run_casts example_scale
             [RouteCast example_clock (cookie "t2") "p1" (Some "red");
              RouteCast example_clock (cookie "t2") "p1" (Some "blue");
              ServiceCast example_clock (Some "t2") "p1" "red";
              OverlappedInsert 1000 "p1" "red" "u2";
              StoredCast 1000 "p1" "red" "u3"]
             example_world) in
     List.length (votes_of d' "u2" "p1") <= 1
     /\ map total_votes (poll_details d') = [2]
     /\ voters d' "p1" = ["u2"; "u3"]
     /\ casts_done example_scale
          [RouteCast example_clock (cookie "t2") "p1" (Some "red");
           RouteCast example_clock (cookie "t2") "p1" (Some "blue");
           ServiceCast example_clock (Some "t2") "p1" "red";
           OverlappedInsert 1000 "p1" "red" "u2";
           StoredCast 1000 "p1" "red" "u3"]
          example_world
        = [("u2", "p1"); ("u2", "p1"); ("u3", "p1")].
Proof.
  assert (votes_ok (db example_world)) as H0
    by (split; apply NoDup_nil).
  split; [exact H0|].
  pose proof (castVote_one_vote_per_user example_scale
                [RouteCast example_clock (cookie "t2") "p1" (Some "red");
                 RouteCast example_clock (cookie "t2") "p1" (Some "blue");
                 ServiceCast example_clock (Some "t2") "p1" "red";
                 OverlappedInsert 1000 "p1" "red" "u2";
                 StoredCast 1000 "p1" "red" "u3"]
                example_world H0) as [H1 _].
  split; [apply H1|].
  repeat split; vm_compute; reflexivity.
Defined.

(** ** Re-voting (C2) *)

(** Counting the votes of option [X] after the votes selected by [hit]
    were moved to option [B]. *)
Lemma count_after_move (hit : Vote -> bool) (B X : string) (l : list Vote) :
  let upd := fun v => if hit v
                      then mkVote (vote_id v) (vote_poll_id v) B
                             (vote_user_id v) (vote_created_at v)
                      else v in
  List.length (filter (fun v => (vote_option_id v =? X)%string) (map upd l))
  + List.length (filter (fun v => hit v && (vote_option_id v =? X)%string) l)
  = List.length (filter (fun v => (vote_option_id v =? X)%string) l)
    + (if (B =? X)%string then List.length (filter hit l) else 0).
Proof.
  intros upd. induction l as [|v r IH]; cbn [map filter List.length].
  - destruct (B =? X)%string; reflexivity.
  - unfold upd at 1. destruct (hit v) eqn:Hh; cbn [vote_option_id andb].
    + destruct (B =? X)%string eqn:EB;
        destruct (vote_option_id v =? X)%string eqn:EX;
        cbn [List.length]; lia.
    + destruct (vote_option_id v =? X)%string eqn:EX;
        destruct (B =? X)%string; cbn [List.length]; lia.
Qed.

Lemma votes_of_hit (d : database) (u p : string) :
  filter (fun v => (vote_poll_id v =? p)%string
                   && (vote_user_id v =? u)%string) (votes d)
  = votes_of d u p.
Proof.
  unfold votes_of. apply filter_ext. intros v. apply andb_comm.
Qed.

Lemma votes_of_In (d : database) (u p : string) (v : Vote) :
  In v (votes_of d u p) ->
  In v (votes d) /\ vote_user_id v = u /\ vote_poll_id v = p.
Proof.
  unfold votes_of. intros H. apply filter_In in H. destruct H as [Hin Hv].
  apply andb_true_iff in Hv. destruct Hv as [Hu Hp].
  apply String.eqb_eq in Hu. apply String.eqb_eq in Hp. auto.
Qed.

(** The stored function on a second vote: the row is kept and moved. *)
Lemma cast_vote_revote (d : database) (p A B u : string) (v : Vote) (t : Z) :
  votes_of d u p = [v] -> vote_option_id v = A ->
  is_poll_active d p t = Some true -> has_option d B = true -> A <> B ->
  exists d',
    cast_vote d p B u t = SqlOk (Some (vote_id v), d')
    /\ profiles d' = profiles d /\ polls d' = polls d
    /\ poll_options d' = poll_options d
    /\ votes_of d' u p = [mkVote (vote_id v) p B u (vote_created_at v)]
    /\ poll_total d' p = poll_total d p
    /\ count_option_votes d' A + 1 = count_option_votes d A
    /\ count_option_votes d' B = count_option_votes d B + 1.
Proof.
  intros Hv HA Hact HB Hne.
  assert (In v (votes_of d u p)) as Hin by (rewrite Hv; left; reflexivity).
  destruct (votes_of_In d u p v Hin) as [Hind [Hu Hp]].
  assert (has_vote d u p = true) as Hhas.
  { apply has_vote_true. apply in_map_iff. exists v.
    unfold vote_key. rewrite Hu, Hp. auto. }
  set (hit := fun x => (vote_poll_id x =? p)%string
                       && (vote_user_id x =? u)%string).
  set (upd := fun x => if hit x
                       then mkVote (vote_id x) (vote_poll_id x) B
                              (vote_user_id x) (vote_created_at x)
                       else x).
  assert (filter hit (votes d) = [v]) as Hhit
    by (unfold hit; rewrite votes_of_hit; exact Hv).
  assert (hit v = true) as Hhv
    by (unfold hit; rewrite Hu, Hp, !String.eqb_refl; reflexivity).
  exists (set_votes d (map upd (votes d))).
  split.
  { unfold cast_vote. rewrite Hact. cbn [sql_not option_map negb sql_holds].
    unfold insert_vote. rewrite Hhas.
    unfold update_vote_option. fold hit. rewrite Hhit, HB. reflexivity. }
  do 3 (split; [reflexivity|]).
  assert (forall x, vote_user_id (upd x) = vote_user_id x) as Uu
    by (intros x; unfold upd; destruct (hit x); reflexivity).
  assert (forall x, vote_poll_id (upd x) = vote_poll_id x) as Up
    by (intros x; unfold upd; destruct (hit x); reflexivity).
  split; [|split].
  - unfold votes_of at 1. cbn [votes set_votes].
    rewrite filter_map_swap.
    rewrite (filter_ext _ (fun x => (vote_user_id x =? u)%string
                                    && (vote_poll_id x =? p)%string))
      by (intros x; rewrite Uu, Up; reflexivity).
    fold (votes_of d u p). rewrite Hv. cbn [map]. unfold upd.
    rewrite Hhv, Hu, Hp. reflexivity.
  - unfold poll_total. cbn [votes set_votes].
    rewrite filter_map_swap, length_map.
    f_equal. apply filter_ext. intros x. rewrite Up. reflexivity.
  - pose proof (count_after_move hit B A (votes d)) as CA.
    pose proof (count_after_move hit B B (votes d)) as CB.
    cbv zeta in CA, CB. fold upd in CA, CB.
    rewrite filter_filter_length, Hhit in CA, CB.
    cbn [filter] in CA, CB.
    rewrite HA in CA, CB.
    rewrite String.eqb_refl in CA, CB.
    assert ((B =? A)%string = false) as E1
      by (apply String.eqb_neq; congruence).
    assert ((A =? B)%string = false) as E2
      by (apply String.eqb_neq; congruence).
    rewrite E1 in CA. rewrite E2 in CB. cbn [List.length] in CA, CB.
    unfold count_option_votes. cbn [votes set_votes].
    split; lia.
Qed.

(** The service on a second vote: rejected, nothing changes. *)
Lemma service_revote_rejected (clk : clock) (credential : option string)
  (p B u : string) (v : Vote) (w : world) :
  session_user w credential = Some u ->
  polls_ok (db w) -> options_ok (db w) ->
  votes_of (db w) u p = [v] ->
  is_poll_active (db w) p (now clk) = Some true ->
  (exists o, In o (poll_options (db w))
             /\ option_id o = B /\ option_poll_id o = p) ->
  quiet 3 w ->
  wp (PollService.castVote clk credential p B)
    (fun r w' => outcome_code r = Some "ALREADY_VOTED" /\ db w' = db w) w.
Proof.
  intros Hu Hpolls Hopt Hv Hact [o [Ho [HoB Hop]]] Hq.
  unfold session_user in Hu.
  destruct (is_poll_active_true _ _ _ Hact) as [poll [Hin [Hid [Ha He]]]].
  pose proof (select_active_row (db w) p poll Hpolls Hin Hid) as Hsel.
  rewrite Ha in Hsel.
  wp_seq. rewrite Hu. wp_seq.
  wp_read Hq. rewrite Hsel. wp_seq. cbn [single]. rewrite He. wp_seq.
  wp_read Hq. cbn [db sent].
  rewrite (select_option_row _ _ _ _ Hopt Ho HoB Hop). cbn [single]. wp_seq.
  wp_read Hq. cbn [db sent]. rewrite votes_of_hit, Hv. cbn [single].
  wp_seq. cbn. split; reflexivity.
Qed.

(** C2, as amended.  A user who has voted for option [A] of a poll and
    then votes for another option [B] of that poll through the vote route,
    while the poll is effectively active and the store serves the four
    requests of the handler, gets status 200 with the id of the vote; the
    user still has exactly one vote row on the poll, now on [B]; the total
    of the poll is unchanged, the count of [A] is one less and the count of
    [B] one more.  The same second vote through [PollService.castVote] is
    answered with ALREADY_VOTED and changes nothing. *)
Theorem revote_through_route_moves_vote
  (rs : numeric -> numeric -> Z) (clk : clock) (c : Credentials)
  (token p A B u : string) (v : Vote) (w : world) :
  access_token c = Some token -> Js.truthy token = true ->
  getUser w token = Some u ->
  options_ok (db w) ->
  votes_of (db w) u p = [v] -> vote_option_id v = A ->
  is_poll_active (db w) p (now clk) = Some true ->
  (exists o, In o (poll_options (db w))
             /\ option_id o = B /\ option_poll_id o = p) ->
  Js.truthy B = true -> A <> B -> quiet 4 w ->
  let r := VoteRoute.POST rs clk c p (Some B) w in
  let d' := db (snd r) in
  (exists options,
      fst r = inr (mkHttpResponse 200 (JVote (Some (vote_id v)) options)))
  /\ votes_of d' u p = [mkVote (vote_id v) p B u (vote_created_at v)]
  /\ poll_total d' p = poll_total (db w) p
  /\ count_option_votes d' A + 1 = count_option_votes (db w) A
  /\ count_option_votes d' B = count_option_votes (db w) B + 1
  /\ (forall credential,
         session_user w credential = Some u -> polls_ok (db w) ->
         let r := PollService.castVote clk credential p B w in
         outcome_code (fst r) = Some "ALREADY_VOTED"
         /\ db (snd r) = db w).
Proof.
  intros Htok Htr Hu Hopt Hv HA Hact Hex HB Hne Hq r d'.
  assert (forall credential,
             session_user w credential = Some u -> polls_ok (db w) ->
             let r := PollService.castVote clk credential p B w in
             outcome_code (fst r) = Some "ALREADY_VOTED"
             /\ db (snd r) = db w) as Hservice.
  { intros credential Hcr Hpolls.
    apply (service_revote_rejected clk credential p B u v w); auto.
    revert Hq. unfold quiet.
    destruct (faults w) as [|[] [|[] [|[] [|[] ?]]]]; cbn; congruence. }
  destruct Hex as [o [Ho [HoB Hop]]].
  assert (has_option (db w) B = true) as HhB
    by (rewrite <- HoB; apply has_option_In; exact Ho).
  destruct (cast_vote_revote (db w) p A B u v (now clk) Hv HA Hact HhB Hne)
    as [d1 [Ecast [_ [_ [_ [V1 [T1 [CA CB]]]]]]]].
  cut ((exists options,
           fst r = inr (mkHttpResponse 200
                          (JVote (Some (vote_id v)) options)))
       /\ votes_of d' u p = [mkVote (vote_id v) p B u (vote_created_at v)]
       /\ poll_total d' p = poll_total (db w) p
       /\ count_option_votes d' A + 1 = count_option_votes (db w) A
       /\ count_option_votes d' B = count_option_votes (db w) B + 1);
    [intros [H1 [H2 [H3 [H4 H5]]]]; repeat split; auto; apply Hservice; auto
    |].
  clear Hservice.
  change (wp (VoteRoute.POST rs clk c p (Some B))
            (fun r w' =>
               (exists options,
                   r = inr (mkHttpResponse 200
                              (JVote (Some (vote_id v)) options)))
               /\ votes_of (db w') u p
                  = [mkVote (vote_id v) p B u (vote_created_at v)]
               /\ poll_total (db w') p = poll_total (db w) p
               /\ count_option_votes (db w') A + 1
                  = count_option_votes (db w) A
               /\ count_option_votes (db w') B
                  = count_option_votes (db w) B + 1) w).
  wp_seq. rewrite HB. cbn [negb]. wp_seq.
  rewrite Htok, Htr, Hu. wp_seq.
  wp_read Hq. cbn [db sent]. rewrite Hact. cbn [sql_holds negb]. wp_seq.
  wp_read Hq. cbn [db sent].
  rewrite (select_option_row _ _ _ _ Hopt Ho HoB Hop). cbn [single]. wp_seq.
  eapply (wp_request_known 1); [exact Hq|exact Ecast|].
  clear Hq; intros Hq. cbv beta iota. wp_seq.
  eapply (wp_query_quiet 0); [exact Hq|]. intros _. cbv beta iota.
  wp_seq. cbn [db sent].
  split; [eexists; reflexivity|]. auto.
Qed.

(** Keys of a concrete table are pairwise different. *)
Ltac nodup_keys :=
  cbn; repeat (constructor; [cbn; intuition discriminate|]); constructor.

Lemma revote_through_route_moves_vote_witness :
  (votes_of (db example_world_voted) "u2" "p1"
   = [mkVote "v1" "p1" "red" "u2" 500]
   /\ is_poll_active (db example_world_voted) "p1" (now example_clock)
      = Some true
   /\ quiet 4 example_world_voted)
  /\ let r := VoteRoute.POST example_scale example_clock (cookie "t2") "p1"
                (Some "blue") example_world_voted in
     votes_of (db (snd r)) "u2" "p1" = [mkVote "v1" "p1" "blue" "u2" 500]
     /\ poll_total (db (snd r)) "p1" = 1
     /\ count_option_votes (db (snd r)) "red" = 0
     /\ count_option_votes (db (snd r)) "blue" = 1.
Proof.
  split; [repeat split|].
  pose proof (revote_through_route_moves_vote example_scale example_clock
                (cookie "t2") "t2" "p1" "red" "blue" "u2"
                (mkVote "v1" "p1" "red" "u2" 500) example_world_voted
                eq_refl eq_refl eq_refl) as H.
  assert (options_ok (db example_world_voted)) as Hopt
    by (unfold options_ok; nodup_keys).
  specialize (H Hopt eq_refl eq_refl eq_refl).
  assert (exists o, In o (poll_options (db example_world_voted))
                    /\ option_id o = "blue" /\ option_poll_id o = "p1")
    as Hex.
  { exists (mkPollOption "blue" "p1" "Blue" 10 10).
    cbn. repeat split. right. left. reflexivity. }
  assert ("red" <> "blue") as Hne by discriminate.
  specialize (H Hex eq_refl Hne eq_refl).
  cbv zeta in H. destruct H as [_ [H1 [H2 [H3 [H4 _]]]]].
  cbv zeta. split; [exact H1|]. split; [exact H2|].
  split; [|exact H4].
  change (count_option_votes (db example_world_voted) "red") with 1 in H3.
  lia.
Defined.

(** C2 does not hold as specified on the service path: after Bob's vote
    for Red, [PollService.castVote] for Blue on the same active poll is
    rejected with ALREADY_VOTED and the vote stays on Red. *)
Lemma revote_through_service_rejected :
  let r := PollService.castVote example_clock (Some "t2") "p1" "blue"
             example_world_voted in
  succeeded (fst r) = false
  /\ outcome_code (fst r) = Some "ALREADY_VOTED"
  /\ map vote_option_id (votes_of (db (snd r)) "u2" "p1") = ["red"].
Proof. vm_compute. repeat split. Qed.

(** ** The activity gate of [castVote] (C3) *)

(** C3, as amended.  For a call of [PollService.castVote] by a resolved
    user on a poll whose row exists, when the store serves the lookup of
    the poll: the result is POLL_NOT_FOUND if [is_active] is false
    (whatever [expires_at] is); it is POLL_EXPIRED if [is_active] is true
    and [expires_at] is set and strictly in the past; and it is neither of
    the two if [is_active] is true and [expires_at] is absent or strictly
    in the future. *)
Theorem castVote_activity_gate
  (clk : clock) (credential : option string) (pollId optionId u : string)
  (poll : Poll) (w : world) :
  session_user w credential = Some u ->
  polls_ok (db w) -> In poll (polls (db w)) -> poll_id poll = pollId ->
  quiet 1 w ->
  let r := fst (PollService.castVote clk credential pollId optionId w) in
  (poll_is_active poll = false -> outcome_code r = Some "POLL_NOT_FOUND")
  /\ (poll_is_active poll = true ->
      (exists e, poll_expires_at poll = Some e /\ (e < now clk)%Z) ->
      outcome_code r = Some "POLL_EXPIRED")
  /\ (poll_is_active poll = true ->
      (poll_expires_at poll = None
       \/ exists e, poll_expires_at poll = Some e /\ (now clk < e)%Z) ->
      outcome_code r <> Some "POLL_EXPIRED"
      /\ outcome_code r <> Some "POLL_NOT_FOUND").
Proof.
  intros Hu Hok Hin Hid Hq r.
  pose proof (select_active_row (db w) pollId poll Hok Hin Hid) as Hsel.
  unfold session_user in Hu.
  split; [|split].
  - intros Ha. rewrite Ha in Hsel.
    change (wp (PollService.castVote clk credential pollId optionId)
              (fun r _ => outcome_code r = Some "POLL_NOT_FOUND") w).
    wp_seq. rewrite Hu. wp_seq. wp_read Hq. rewrite Hsel. wp_seq.
    cbn [single]. wp_seq. reflexivity.
  - intros Ha [e [He Hlt]]. rewrite Ha in Hsel.
    change (wp (PollService.castVote clk credential pollId optionId)
              (fun r _ => outcome_code r = Some "POLL_EXPIRED") w).
    wp_seq. rewrite Hu. wp_seq. wp_read Hq. rewrite Hsel. wp_seq.
    cbn [single]. rewrite He.
    apply Z.ltb_lt in Hlt. rewrite Hlt. wp_seq. reflexivity.
  - intros Ha Hexp. rewrite Ha in Hsel.
    change (wp (PollService.castVote clk credential pollId optionId)
              (fun r _ => outcome_code r <> Some "POLL_EXPIRED"
                          /\ outcome_code r <> Some "POLL_NOT_FOUND") w).
    wp_seq. rewrite Hu. wp_seq. wp_read Hq. rewrite Hsel. wp_seq.
    cbn [single].
    assert (match poll_expires_at poll with
            | Some e => (e <? now clk)%Z
            | None => false
            end = false) as Hne.
    { destruct Hexp as [->|[e [-> Hlt]]]; [reflexivity|].
      apply Z.ltb_ge. lia. }
    rewrite Hne.
    wp_run; cbn; split; discriminate.
Qed.

Lemma castVote_activity_gate_witness :
  (session_user example_world_expired (Some "t3") = Some "u3"
   /\ In example_poll_expired (polls (db example_world_expired))
   /\ quiet 1 example_world_expired)
  /\ outcome_code
       (fst (PollService.castVote example_clock (Some "t3") "p1" "red"
               example_world_expired))
     = Some "POLL_EXPIRED".
Proof.
  split; [repeat split; left; reflexivity|].
  assert (polls_ok (db example_world_expired)) as Hok
    by (unfold polls_ok; nodup_keys).
  assert (In example_poll_expired (polls (db example_world_expired))) as Hin
    by (left; reflexivity).
  pose proof (castVote_activity_gate example_clock (Some "t3") "p1" "red"
                "u3" example_poll_expired example_world_expired
                eq_refl Hok Hin eq_refl eq_refl) as H.
  cbv zeta in H. destruct H as [_ [H _]].
  apply H; [reflexivity|].
  exists 900%Z. split; [reflexivity|]. cbn. lia.
Defined.

(** C3 does not hold as specified: the poll row exists with
    [is_active = false], and the authenticated [castVote] answers
    POLL_NOT_FOUND, not POLL_EXPIRED. *)
Lemma castVote_inactive_poll_reported_not_found :
  has_poll (db example_world_closed) "p1" = true
  /\ is_poll_active (db example_world_closed) "p1" (now example_clock)
     = Some false
  /\ outcome_code
       (fst (PollService.castVote example_clock (Some "t2") "p1" "red"
               example_world_closed))
     = Some "POLL_NOT_FOUND".
Proof. vm_compute. repeat split. Qed.

(** At the very instant of expiry the two paths part: [is_poll_active]
    takes the poll for expired ([expiry > now()] fails), while the
    service's test [expires_at < now] does not, and records the vote. *)
Lemma castVote_at_the_instant_of_expiry :
  let w := mkWorld
             (set_polls example_db
                [mkPoll "p1" "Favorite color?" None true "u1" 10
                   (Some 1000%Z) 10])
             example_sessions [] [] in
  is_poll_active (db w) "p1" (now example_clock) = Some false
  /\ succeeded
       (fst (PollService.castVote example_clock (Some "t2") "p1" "red" w))
     = true
  /\ http_status
       (fst (VoteRoute.POST example_scale example_clock (cookie "t2") "p1"
               (Some "red") w))
     = Some 400.
Proof. vm_compute. repeat split. Qed.

(** ** Unauthenticated and invalid requests (C4, C5) *)

(** C4, what the code does.  When the credential resolves to no user,
    each of the four mutating operations of the service answers with the
    code UNKNOWN_ERROR, where AUTHENTICATION_ERROR was specified:
    [requireAuth] throws [AuthError], which the [catch] block takes for
    neither an [AuthenticationError] nor a [PollOperationError].  The
    world is left as it was: no request reaches the store. *)
Theorem unauthenticated_mutations_answer_unknown_error
  (clk : clock) (credential : option string) (w : world) :
  session_user w credential = None ->
  (forall data,
      PollService.createPoll clk credential data w
      = (inr (createErrorResponse clk
                "An unexpected error occurred while creating the poll"
                (Some "UNKNOWN_ERROR") None), w))
  /\ (forall id data,
         PollService.updatePoll clk credential id data w
         = (inr (createErrorResponse clk
                   "An unexpected error occurred while updating the poll"
                   (Some "UNKNOWN_ERROR") None), w))
  /\ (forall id,
         PollService.deletePoll clk credential id w
         = (inr (createErrorResponse clk
                   "An unexpected error occurred while deleting the poll"
                   (Some "UNKNOWN_ERROR") None), w))
  /\ (forall pollId optionId,
         PollService.castVote clk credential pollId optionId w
         = (inr (createErrorResponse clk
                   "An unexpected error occurred while casting your vote"
                   (Some "UNKNOWN_ERROR") None), w)).
Proof.
  intros Hu. unfold session_user in Hu.
  repeat split; intros; apply wp_eq; wp_seq; rewrite Hu; wp_seq;
    cbn; split; reflexivity.
Qed.

Lemma unauthenticated_mutations_answer_unknown_error_witness :
  session_user example_world None = None
  /\ outcome_code
       (fst (PollService.createPoll example_clock None example_request
               example_world))
     = Some "UNKNOWN_ERROR"
  /\ snd (PollService.createPoll example_clock None example_request
            example_world)
     = example_world.
Proof.
  split; [reflexivity|].
  destruct (unauthenticated_mutations_answer_unknown_error example_clock
              None example_world eq_refl) as [H _].
  rewrite (H example_request). split; reflexivity.
Defined.

(** C5, what the code does.  When the request of an authenticated user
    breaks a validation rule, [createPoll] answers with the code
    UNKNOWN_ERROR and no details, where VALIDATION_ERROR with the list of
    violations was specified: [validateCreatePollRequest] throws the
    [ValidationError] of [validation.ts], which is not a
    [PollOperationError], and the [catch] block passes no details on.
    The world is left as it was. *)
Theorem invalid_createPoll_answers_unknown_error
  (clk : clock) (credential : option string) (u : string)
  (data : CreatePollRequest) (errors : list FieldError) (w : world) :
  session_user w credential = Some u ->
  validateCreatePollRequest clk data
  = inl (ValidationError "Validation failed" errors) ->
  PollService.createPoll clk credential data w
  = (inr (createErrorResponse clk
            "An unexpected error occurred while creating the poll"
            (Some "UNKNOWN_ERROR") None), w).
Proof.
  intros Hu Hv. unfold session_user in Hu.
  apply wp_eq. wp_seq. rewrite Hu. wp_seq. rewrite Hv. wp_seq.
  cbn. split; reflexivity.
Qed.

Lemma invalid_createPoll_answers_unknown_error_witness :
  (session_user example_world (Some "t1") = Some "u1"
   /\ validateCreatePollRequest example_clock example_bad_request
      = inl (ValidationError "Validation failed"
               [mkFieldError "title" "Poll title is required";
                mkFieldError "options"
                  "At least two poll options are required"]))
  /\ (let r := PollService.createPoll example_clock (Some "t1")
                 example_bad_request example_world in
      outcome_code (fst r) = Some "UNKNOWN_ERROR"
      /\ match fst r with
         | inr (ApiFailure e) => details e = None
         | _ => False
         end
      /\ snd r = example_world).
Proof.
  split; [split; reflexivity|].
  rewrite (invalid_createPoll_answers_unknown_error example_clock
             (Some "t1") "u1" example_bad_request _ example_world
             eq_refl eq_refl).
  cbn. repeat split.
Defined.

(** ** The compensating delete of [createPoll] (C6) *)

Lemma filter_other_ids (id : string) (ps : list Poll) :
  ~ In id (map poll_id ps) ->
  filter (fun p => negb (poll_id p =? id)%string) ps = ps.
Proof.
  induction ps as [|p r IH]; cbn; [reflexivity|].
  intros H. destruct (poll_id p =? id)%string eqn:E.
  - apply String.eqb_eq in E. tauto.
  - cbn. f_equal. apply IH. tauto.
Qed.

(** Deleting the poll that [insert_poll] has just added restores the
    [polls] table. *)
Lemma delete_inserted_poll (d d1 : database) (row : Poll) title dsc u e a t :
  insert_poll d title dsc u e a t = SqlOk (row, d1) ->
  polls (delete_polls d1 (poll_id row)) = polls d
  /\ has_poll (delete_polls d1 (poll_id row)) (poll_id row) = false.
Proof.
  unfold insert_poll. destruct (has_profile d u); [|discriminate].
  intros E. inversion E; subst; clear E. cbn [poll_id].
  set (id := uuid_generate_v4 (map poll_id (polls d))).
  assert (~ In id (map poll_id (polls d))) as Hfresh
    by apply uuid_generate_v4_fresh.
  assert (polls (delete_polls
                   (set_polls d
                      (polls d ++ [mkPoll id title dsc a u t e t])) id)
          = polls d) as Hp.
  { unfold delete_polls, has_poll. cbn [polls set_polls].
    rewrite existsb_app. cbn [existsb poll_id].
    rewrite String.eqb_refl, orb_true_r. cbn [polls].
    rewrite filter_app. cbn [filter poll_id].
    rewrite String.eqb_refl. cbn [negb].
    rewrite app_nil_r. apply filter_other_ids. exact Hfresh. }
  split; [exact Hp|].
  unfold has_poll. rewrite Hp.
  destruct (existsb _ (polls d)) eqn:E; [|reflexivity].
  apply existsb_exists in E. destruct E as [q [Hq Eq]].
  apply String.eqb_eq in Eq. exfalso. apply Hfresh. rewrite <- Eq.
  apply in_map. exact Hq.
Qed.

(** The [POST /api/polls] handler compensates in the same way. *)
Lemma polls_POST_compensating_delete
  (clk : clock) (c : Credentials) (token u : string)
  (b : CreatePollRequest) (w : world) (refused : bool) (rest : list bool) :
  Js.truthy (req_title b) = true -> 2 <= List.length (req_options b) ->
  authorization c = None -> access_token c = Some token ->
  Js.truthy token = true -> getUser w token = Some u ->
  has_profile (db w) u = true ->
  faults w = false :: true :: refused :: rest ->
  let r := PollsRoute.POST clk c b w in
  http_status (fst r) = Some 500
  /\ log (snd r)
     = log w ++ [Insert "polls"; Insert "poll_options"; Delete "polls"]
  /\ (refused = false -> polls (db (snd r)) = polls (db w)).
Proof.
  intros Ht Hn Hauth Hcookie Htok Hu Hprof Hf r.
  change (wp (PollsRoute.POST clk c b)
            (fun r w' =>
               http_status r = Some 500
               /\ log w'
                  = log w ++ [Insert "polls"; Insert "poll_options";
                              Delete "polls"]
               /\ (refused = false -> polls (db w') = polls (db w))) w).
  unfold PollsRoute.POST. wp_seq. rewrite Ht.
  assert ((List.length (req_options b) <? 2)%nat = false) as Hlen
    by (apply Nat.ltb_ge; exact Hn).
  rewrite Hlen, Hauth, Hcookie, Htok. cbn [negb orb]. wp_seq.
  unfold wp at 1, Route.token_user. cbn [fst snd]. rewrite Hu.
  destruct (insert_poll (db w) (req_title b)
              (match req_description b with
               | Some t => if Js.truthy t then Some t else None
               | None => None
               end) u (req_expiresAt b) true (now clk))
    as [[row d1]|e] eqn:Ei;
    [|unfold insert_poll in Ei; rewrite Hprof in Ei; discriminate].
  wp_seq.
  eapply wp_request_served;
    [unfold next_fault; rewrite Hf; reflexivity
    |rewrite Ei; reflexivity|].
  cbv beta iota. cbn [single]. wp_seq.
  apply wp_request_refused;
    [unfold next_fault, sent; cbn [faults]; rewrite Hf; reflexivity|].
  cbv beta iota. wp_seq.
  destruct (delete_inserted_poll _ _ _ _ _ _ _ _ _ Ei) as [Hpolls _].
  apply wp_request; intros; cbv beta iota; wp_seq;
    cbn [http_status status log db sent];
    (split; [reflexivity|]); (split; [rewrite <- !app_assoc; reflexivity|]).
  - intros ->. exfalso. revert H. unfold next_fault, sent. cbn [faults].
    rewrite Hf. discriminate.
  - intros _. inversion H0; subst. exact Hpolls.
  - discriminate H0.
Qed.




(** ** The ownership gate (C7) *)

Lemma wp_header_or_cookie_user (c : Credentials)
  (Q : exn + option string -> world -> Prop) w :
  Q (fst (Route.header_or_cookie_user c w)) w ->
  wp (Route.header_or_cookie_user c) Q w.
Proof.
  unfold wp, Route.header_or_cookie_user, Route.cookie_user.
  destruct (match authorization c with
            | Some h =>
                if Js.truthy h && Js.startsWith "Bearer " h
                then getUser w (Route.bearer_token h) else None
            | None => None
            end); cbn; auto.
Qed.

Section NonOwner.

Variables (clk : clock) (u id : string) (poll : Poll) (w : world).
Hypothesis Hok : polls_ok (db w).
Hypothesis Hin : In poll (polls (db w)).
Hypothesis Hid : poll_id poll = id.
Hypothesis Hother : poll_created_by poll <> u.

Lemma not_owner : (poll_created_by poll =? u)%string = false.
Proof. apply String.eqb_neq. exact Hother. Qed.

Lemma deletePoll_non_owner (credential : option string) :
  session_user w credential = Some u ->
  wp (PollService.deletePoll clk credential id)
    (fun r w' =>
       db w' = db w
       /\ (poll_is_active poll = true -> next_fault w = false ->
           outcome_code r = Some "PERMISSION_DENIED")) w.
Proof.
  intros Hu. unfold session_user in Hu.
  pose proof (select_active_row (db w) id poll Hok Hin Hid) as Hsel.
  wp_seq. rewrite Hu. wp_seq. apply wp_query; intros Hn; cbv beta iota.
  - wp_seq. cbn [single]. wp_seq. cbn. split; [reflexivity|congruence].
  - rewrite Hsel. destruct (poll_is_active poll); wp_seq; cbn [single].
    + rewrite not_owner. cbn [negb]. wp_seq. cbn. split; reflexivity.
    + wp_seq. cbn. split; [reflexivity|discriminate].
Qed.

Lemma route_DELETE_non_owner (c : Credentials) :
  fst (Route.header_or_cookie_user c w) = inr (Some u) ->
  wp (Route.DELETE c id)
    (fun r w' =>
       db w' = db w
       /\ (next_fault w = false -> http_status r = Some 403)) w.
Proof.
  intros Hu.
  pose proof (select_poll_row (db w) id poll Hok Hin Hid) as Hsel.
  wp_seq. apply wp_header_or_cookie_user. rewrite Hu. wp_seq.
  apply wp_query; intros Hn; cbv beta iota.
  - wp_seq. cbn [single]. wp_run; cbn; (split; [reflexivity|congruence]).
  - rewrite Hsel. wp_seq. cbn [single]. rewrite not_owner. cbn [negb].
    wp_seq. cbn. split; reflexivity.
Qed.

Lemma route_PATCH_non_owner (c : Credentials) (b : PatchBody) :
  fst (Route.cookie_user c w) = inr (Some u) ->
  wp (Route.PATCH clk c id b)
    (fun r w' =>
       db w' = db w
       /\ (next_fault w = false -> http_status r = Some 403)) w.
Proof.
  intros Hu. cbn [fst Route.cookie_user] in Hu.
  pose proof (select_poll_row (db w) id poll Hok Hin Hid) as Hsel.
  wp_seq. inversion Hu as [Hu']. rewrite Hu'. wp_seq.
  apply wp_query; intros Hn; cbv beta iota.
  - wp_seq. cbn [single]. wp_run; cbn; (split; [reflexivity|congruence]).
  - rewrite Hsel. wp_seq. cbn [single]. rewrite not_owner. cbn [negb].
    wp_seq. cbn. split; reflexivity.
Qed.

End NonOwner.

(** [updatePoll] sends nothing: it stops at [requireAuth] or, for a
    caller who is signed in, at the call of the unbound name. *)
Lemma updatePoll_world (clk : clock) (credential : option string)
  (id : string) (data : EditPollFormData) (w : world) :
  snd (PollService.updatePoll clk credential id data w) = w.
Proof.
  change (wp (PollService.updatePoll clk credential id data)
            (fun _ w' => w' = w) w).
  wp_seq. destruct (match credential with
                    | Some token => getUser w token
                    | None => None
                    end); wp_seq; cbn; reflexivity.
Qed.

(** C7, as amended.  For a poll and a credential whose resolved user is
    not the poll's [created_by]: [updatePoll] and [deletePoll] of the
    service, and the DELETE and PATCH handlers, leave every table as it
    was.  When the store serves the lookup of the poll, [deletePoll]
    answers PERMISSION_DENIED if the poll's [is_active] is true, and the
    two route handlers answer 403 whatever [is_active] is.  What
    [updatePoll] answers is not part of the statement. *)
Theorem non_owner_cannot_update_or_delete
  (clk : clock) (credential : option string) (u id : string) (poll : Poll)
  (w : world) :
  session_user w credential = Some u ->
  polls_ok (db w) -> In poll (polls (db w)) -> poll_id poll = id ->
  poll_created_by poll <> u ->
  (db (snd (PollService.deletePoll clk credential id w)) = db w
   /\ forall data,
        db (snd (PollService.updatePoll clk credential id data w)) = db w)
  /\ (poll_is_active poll = true -> quiet 1 w ->
      outcome_code (fst (PollService.deletePoll clk credential id w))
      = Some "PERMISSION_DENIED")
  /\ (forall c,
         fst (Route.header_or_cookie_user c w) = inr (Some u) ->
         db (snd (Route.DELETE c id w)) = db w
         /\ (quiet 1 w -> http_status (fst (Route.DELETE c id w)) = Some 403))
  /\ (forall c b,
         fst (Route.cookie_user c w) = inr (Some u) ->
         db (snd (Route.PATCH clk c id b w)) = db w
         /\ (quiet 1 w ->
             http_status (fst (Route.PATCH clk c id b w)) = Some 403)).
Proof.
  intros Hu Hok Hin Hid Hother.
  pose proof (deletePoll_non_owner clk u id poll w Hok Hin Hid Hother
                credential Hu) as HD.
  unfold wp in HD.
  assert (quiet 1 w -> next_fault w = false) as Hq
    by (intros Hq; exact (proj1 (quiet_step 0 w (Select "polls") (db w) Hq))).
  split; [|split; [|split]].
  - split; [exact (proj1 HD)|]. intros data.
    rewrite updatePoll_world. reflexivity.
  - intros Ha Hquiet. apply (proj2 HD); auto.
  - intros c Hc.
    pose proof (route_DELETE_non_owner u id poll w Hok Hin Hid Hother c Hc)
      as H.
    unfold wp in H. split; [exact (proj1 H)|].
    intros Hquiet. apply (proj2 H). auto.
  - intros c b Hc.
    pose proof (route_PATCH_non_owner clk u id poll w Hok Hin Hid Hother
                  c b Hc) as H.
    unfold wp in H. split; [exact (proj1 H)|].
    intros Hquiet. apply (proj2 H). auto.
Qed.

Lemma non_owner_cannot_update_or_delete_witness :
  (session_user example_world (Some "t2") = Some "u2"
   /\ In example_poll (polls (db example_world))
   /\ poll_created_by example_poll <> "u2")
  /\ outcome_code
       (fst (PollService.deletePoll example_clock (Some "t2") "p1"
               example_world))
     = Some "PERMISSION_DENIED"
  /\ db (snd (PollService.deletePoll example_clock (Some "t2") "p1"
                example_world))
     = db example_world
  /\ db (snd (PollService.updatePoll example_clock (Some "t2") "p1"
                example_edit example_world))
     = db example_world
  /\ http_status
       (fst (Route.DELETE (cookie "t2") "p1" example_world))
     = Some 403
  /\ http_status
       (fst (Route.PATCH example_clock (cookie "t2") "p1"
               (mkPatchBody None (Some "Mine now") None None None)
               example_world))
     = Some 403.
Proof.
  assert (polls_ok (db example_world)) as Hok by (unfold polls_ok; nodup_keys).
  assert (In example_poll (polls (db example_world))) as Hin
    by (left; reflexivity).
  assert (poll_created_by example_poll <> "u2") as Hother by discriminate.
  split; [repeat split; assumption|].
  destruct (non_owner_cannot_update_or_delete example_clock (Some "t2") "u2"
              "p1" example_poll example_world eq_refl Hok Hin eq_refl Hother)
    as [[Hkept Hsame] [Hdenied [Hdelete Hpatch]]].
  split; [exact (Hdenied eq_refl eq_refl)|].
  split; [exact Hkept|]. split; [apply Hsame|].
  split.
  - exact (proj2 (Hdelete (cookie "t2") eq_refl) eq_refl).
  - exact (proj2 (Hpatch (cookie "t2")
                    (mkPatchBody None (Some "Mine now") None None None)
                    eq_refl) eq_refl).
Defined.

(** C7 does not hold as specified: on the poll that is switched off, the
    [deletePoll] of a user who is not its owner answers POLL_NOT_FOUND,
    not PERMISSION_DENIED. *)
Lemma non_owner_deletePoll_inactive_not_found :
  map poll_created_by (polls (db example_world_closed)) = ["u1"]
  /\ session_user example_world_closed (Some "t2") = Some "u2"
  /\ outcome_code
       (fst (PollService.deletePoll example_clock (Some "t2") "p1"
               example_world_closed))
     = Some "POLL_NOT_FOUND".
Proof. vm_compute. repeat split. Qed.

(** ** Removing options (C8) *)

(** The cascade keeps the foreign key: whichever options a delete removes,
    the votes left all reference options that are left. *)
Lemma delete_options_where_references (d : database)
  (sel : PollOption -> bool) :
  votes_reference_options d ->
  votes_reference_options (delete_options_where d sel).
Proof.
  intros Hfk v Hv. unfold delete_options_where in *.
  cbn [votes poll_options] in *. apply filter_In in Hv.
  destruct Hv as [Hv Hkeep]. apply negb_true_iff in Hkeep.
  specialize (Hfk v Hv). unfold has_option in *. cbn [poll_options].
  apply existsb_exists in Hfk. destruct Hfk as [o [Ho Eo]].
  apply existsb_exists. exists o. split; [|exact Eo].
  apply filter_In. split; [exact Ho|].
  destruct (sel o) eqn:Es; [|reflexivity].
  exfalso. assert (existsb
                     (fun o0 => (option_id o0 =? vote_option_id v)%string)
                     (filter sel (poll_options d)) = true) as Hex.
  { apply existsb_exists. exists o. split; [|exact Eo].
    apply filter_In. auto. }
  congruence.
Qed.







(** Deleting an option without votes removes no vote and no other
    option. *)
Lemma delete_poll_option_votes_kept (d : database) (oid pid : string) :
  count_option_votes d oid = 0 ->
  votes_kept d (delete_poll_option d oid pid).
Proof.
  intros Hc. unfold delete_poll_option, delete_options_where.
  split; cbn [votes poll_options].
  - unfold count_option_votes in Hc. apply length_zero_iff_nil in Hc.
    induction (votes d) as [|v r IH]; cbn [filter]; [reflexivity|].
    cbn [filter] in Hc.
    destruct (vote_option_id v =? oid)%string eqn:E; [discriminate|].
    specialize (IH Hc).
    assert (existsb (fun o => (option_id o =? vote_option_id v)%string)
              (filter (fun o => (option_id o =? oid)%string
                                && (option_poll_id o =? pid)%string)
                 (poll_options d)) = false) as Hno.
    { destruct (existsb _ _) eqn:Ex; [|reflexivity].
      apply existsb_exists in Ex. destruct Ex as [o [Ho Eo]].
      apply filter_In in Ho. destruct Ho as [_ Ho].
      apply andb_true_iff in Ho. destruct Ho as [Ho _].
      apply String.eqb_eq in Ho. apply String.eqb_eq in Eo.
      apply String.eqb_neq in E. congruence. }
    rewrite Hno. cbn [negb]. f_equal. exact IH.
  - intros o Hpos Ho. unfold has_option in *. cbn [poll_options].
    apply existsb_exists in Ho. destruct Ho as [x [Hx Ex]].
    apply existsb_exists. exists x. split; [|exact Ex].
    apply filter_In. split; [exact Hx|].
    destruct (option_id x =? oid)%string eqn:E; [|reflexivity].
    apply String.eqb_eq in E. apply String.eqb_eq in Ex. subst. lia.
Qed.




























Lemma user_vote_returns (c : Credentials) (id : string)
  (Q : exn + option string -> world -> Prop) (w : world) :
  (forall uv w', db w' = db w -> Q (inr uv) w') ->
  wp (RouteGet.user_vote c id) Q w.
Proof.
  intros HQ. unfold RouteGet.user_vote.
  destruct (access_token c) as [token|]; [|apply wp_ret; apply HQ; reflexivity].
  destruct (Js.truthy token); [|apply wp_ret; apply HQ; reflexivity].
  apply wp_bind. unfold wp at 1, Route.token_user. cbn [fst snd].
  destruct (getUser w token) as [uid|]; [|apply wp_ret; apply HQ; reflexivity].
  apply wp_bind. apply wp_query; intros _;
    destruct (single _); apply wp_ret; apply HQ; reflexivity.
Qed.






(** ** The percentage column of [poll_options_with_stats] (C9) *)

Section Rounding.

Local Open Scope Z_scope.

Lemma div_round_nonneg (a b : Z) :
  0 <= a -> div_round a b = (2 * a + b) / (2 * b).
Proof.
  intros Ha. unfold div_round.
  destruct (0 <=? a) eqn:E; [reflexivity|].
  apply Z.leb_gt in E. lia.
Qed.

Lemma div_round_bounds (a b : Z) :
  0 <= a -> 0 < b ->
  2 * b * div_round a b <= 2 * a + b < 2 * b * (div_round a b + 1).
Proof.
  intros Ha Hb. rewrite (div_round_nonneg a b Ha).
  split.
  - apply Z.mul_div_le. lia.
  - replace (2 * b * ((2 * a + b) / (2 * b) + 1))
      with (2 * b * Z.succ ((2 * a + b) / (2 * b))) by lia.
    apply Z.mul_succ_div_gt. lia.
Qed.

Lemma div_round_pos (a b : Z) : 0 <= a -> 0 < b -> 0 <= div_round a b.
Proof.
  intros Ha Hb. rewrite (div_round_nonneg a b Ha).
  apply Z.div_pos; lia.
Qed.

(** The tenth chosen is within half a tenth of the exact quotient. *)
Lemma nearest_tenths_close (k n : Z) :
  0 <= k -> 0 < n ->
  2 * Z.abs (n * nearest_tenths k n - 1000 * k) <= n.
Proof.
  intros Hk Hn. unfold nearest_tenths.
  pose proof (Z.mul_div_le (2 * (1000 * k) + n) (2 * n)) as L.
  pose proof (Z.mul_succ_div_gt (2 * (1000 * k) + n) (2 * n)) as U.
  assert (0 < 2 * n) as H2 by lia.
  specialize (L H2). specialize (U H2).
  set (e := (2 * (1000 * k) + n) / (2 * n)) in *.
  lia.
Qed.

(** Rounding the quotient first to [s] digits and then to one digit gives
    the directly rounded tenth as long as the divisor has fewer than
    [s - 3] digits. *)
Lemma double_rounding (k n D : Z) :
  0 <= k -> 0 < n -> n < D ->
  div_round (div_round (k * (1000 * D)) n * 100 * 10) (1000 * D)
  = nearest_tenths k n.
Proof.
  intros Hk Hn HD.
  assert (0 <= k * (1000 * D)) as Hnum by nia.
  pose proof (div_round_bounds _ n Hnum Hn) as [QL QU].
  pose proof (div_round_pos _ n Hnum Hn) as Q0.
  set (q := div_round (k * (1000 * D)) n) in *.
  rewrite div_round_nonneg by lia.
  replace (2 * (q * 100 * 10) + 1000 * D) with (1000 * (2 * q + D)) by lia.
  replace (2 * (1000 * D)) with (1000 * (2 * D)) by lia.
  rewrite Z.div_mul_cancel_l by lia.
  unfold nearest_tenths.
  pose proof (Z.mul_div_le (2 * (1000 * k) + n) (2 * n)) as EL.
  pose proof (Z.mul_succ_div_gt (2 * (1000 * k) + n) (2 * n)) as EU.
  assert (0 < 2 * n) as H2 by lia.
  specialize (EL H2). specialize (EU H2).
  set (e := (2 * (1000 * k) + n) / (2 * n)) in *.
  apply Z.le_antisymm.
  - assert ((2 * q + D) / (2 * D) < e + 1); [|lia].
    apply Z.div_lt_upper_bound; [lia|].
    assert (n * (2 * q) < n * ((2 * e + 1) * D)); [|nia].
    nia.
  - apply Z.div_le_lower_bound; [lia|].
    assert (n * ((2 * e - 1) * D) < n * (2 * q + 1)); [|nia].
    nia.
Qed.

End Rounding.

Lemma poll_vote_count_total (d : database) (pid : string) :
  poll_vote_count d pid
  = if (poll_total d pid =? 0)%nat then None else Some (poll_total d pid).
Proof.
  unfold poll_vote_count, poll_total.
  destruct (List.length _); reflexivity.
Qed.

Lemma stats_percentage_spec (rs : numeric -> numeric -> Z) (k n : nat) :
  (0 < n)%nat ->
  (Z.of_nat n
   < 10 ^ (rs (numeric_of_int (Z.of_nat k)) (numeric_of_int (Z.of_nat n))
           - 3))%Z ->
  stats_percentage rs k (Some n) = spec_percentage k n.
Proof.
  intros Hn Hs.
  unfold stats_percentage, spec_percentage.
  destruct (0 <? Z.of_nat n)%Z eqn:E; [|apply Z.ltb_ge in E; lia].
  destruct (n =? 0)%nat eqn:E0; [apply Nat.eqb_eq in E0; lia|].
  unfold numeric_round, numeric_mul, numeric_div, numeric_of_int;
    cbn [unscaled dscale].
  set (s := rs _ _) in *.
  assert (3 <= s)%Z as Hs3.
  { destruct (Z_lt_le_dec s 3) as [L|L]; [|exact L].
    rewrite Z.pow_neg_r in Hs by lia. lia. }
  replace (s + 0 + 0)%Z with s by lia.
  replace (s + 0)%Z with s by lia.
  assert (10 ^ s = 1000 * 10 ^ (s - 3))%Z as Hp.
  { replace s with (3 + (s - 3))%Z at 1 by lia.
    rewrite Z.pow_add_r by lia. reflexivity. }
  rewrite Hp.
  change (10 ^ 0)%Z with 1%Z. change (10 ^ 1)%Z with 10%Z.
  rewrite Z.mul_1_r.
  f_equal. apply double_rounding; lia.
Qed.

(** C9.  Every row of [poll_options_with_stats] reports the option's own
    vote count [k], and its percentage is [100 * k / n] rounded to one
    decimal place when the poll's total [n] is positive and 0 when it is
    zero.  The quotient is computed by the store with a finite number of
    fractional digits; the equality needs that number to exceed the digits
    of [n] by three, which the sixteen significant digits PostgreSQL keeps
    give for every total below ten to the thirteen. *)
Theorem poll_options_with_stats_percentage
  (rs : numeric -> numeric -> Z) (d : database) (row : PollOptionWithStats) :
  In row (poll_options_with_stats rs d) ->
  let k := count_option_votes d (pos_id row) in
  let n := poll_total d (pos_poll_id row) in
  ((0 < n)%nat ->
   (Z.of_nat n
    < 10 ^ (rs (numeric_of_int (Z.of_nat k)) (numeric_of_int (Z.of_nat n))
            - 3))%Z) ->
  pos_votes row = k
  /\ percentage row = spec_percentage k n
  /\ (n = 0%nat -> percentage row = numeric_of_int 0)
  /\ ((0 < n)%nat ->
      dscale (percentage row) = 1%Z
      /\ (2 * Z.abs (Z.of_nat n * unscaled (percentage row)
                     - 1000 * Z.of_nat k) <= Z.of_nat n)%Z).
Proof.
  intros Hin k n Hprec.
  unfold poll_options_with_stats in Hin.
  apply in_map_iff in Hin. destruct Hin as [po [Hrow _]].
  subst row. cbn [pos_votes pos_id pos_poll_id percentage] in *.
  fold k. 
  assert (stats_percentage rs k (poll_vote_count d (option_poll_id po))
          = spec_percentage k n) as Hpct.
  { rewrite poll_vote_count_total. fold n.
    destruct (n =? 0)%nat eqn:E.
    - apply Nat.eqb_eq in E. rewrite E. reflexivity.
    - apply Nat.eqb_neq in E.
      apply stats_percentage_spec; [lia|apply Hprec; lia]. }
  split; [reflexivity|]. split; [exact Hpct|]. split.
  - intros Hz. rewrite Hpct, Hz. reflexivity.
  - intros Hpos. rewrite Hpct. unfold spec_percentage.
    destruct (n =? 0)%nat eqn:E; [apply Nat.eqb_eq in E; lia|].
    cbn [dscale unscaled]. split; [reflexivity|].
    apply nearest_tenths_close; lia.
Qed.

(** One vote out of three is reported as 33.3, two out of three as 66.7. *)
Lemma poll_options_with_stats_percentage_witness :
  In (mkPollOptionWithStats "red" "p1" "Red" 1 (mkNumeric 333 1))
    (poll_options_with_stats example_scale example_db_three)
  /\ map percentage (poll_options_with_stats example_scale example_db_three)
     = [spec_percentage 1 3; spec_percentage 2 3]
  /\ spec_percentage 2 3 = mkNumeric 667 1.
Proof.
  assert (In (mkPollOptionWithStats "red" "p1" "Red" 1 (mkNumeric 333 1))
            (poll_options_with_stats example_scale example_db_three)) as Hin
    by (left; reflexivity).
  split; [exact Hin|]. split; [|reflexivity].
  pose proof (poll_options_with_stats_percentage example_scale
                example_db_three _ Hin) as H1.
  assert (In (mkPollOptionWithStats "blue" "p1" "Blue" 2 (mkNumeric 667 1))
            (poll_options_with_stats example_scale example_db_three)) as Hin2
    by (right; left; reflexivity).
  pose proof (poll_options_with_stats_percentage example_scale
                example_db_three _ Hin2) as H2.
  cbv zeta in H1, H2.
  destruct H1 as [_ [H1 _]]; [intros _; vm_compute; reflexivity|].
  destruct H2 as [_ [H2 _]]; [intros _; vm_compute; reflexivity|].
  cbn [percentage pos_id pos_poll_id] in H1, H2.
  change (count_option_votes example_db_three "red") with 1 in H1.
  change (count_option_votes example_db_three "blue") with 2 in H2.
  change (poll_total example_db_three "p1") with 3 in H1, H2.
  change (map percentage
            (poll_options_with_stats example_scale example_db_three))
    with [mkNumeric 333 1; mkNumeric 667 1].
  rewrite H1, H2. reflexivity.
Defined.

(** ** Soft delete (C10) *)

Lemma In_insert_desc (x y : PollWithRelations) (l : list PollWithRelations) :
  In y (insert_desc x l) -> y = x \/ In y l.
Proof.
  induction l as [|a r IH]; cbn.
  - intros [H|[]]; auto.
  - destruct (_ <? _)%Z; cbn.
    + intros [H|[H|H]]; auto.
    + intros [H|H]; auto. destruct (IH H); auto.
Qed.

Lemma In_order_by_created_at_desc (y : PollWithRelations)
  (l : list PollWithRelations) :
  In y (order_by_created_at_desc l) -> In y l.
Proof.
  induction l as [|a r IH]; cbn; [auto|].
  intros H. apply In_insert_desc in H. destruct H; auto.
Qed.

Lemma select_switched_off (d : database) (id : string) :
  switched_off d id ->
  filter (fun p => (poll_id p =? id)%string && poll_is_active p) (polls d)
  = [].
Proof.
  intros Hoff. apply filter_none. intros p Hp.
  destruct (poll_id p =? id)%string eqn:E; [|reflexivity].
  apply String.eqb_eq in E. rewrite (Hoff p Hp E). reflexivity.
Qed.

Lemma fetchPollById_switched_off (clk : clock) (id : string) (w : world) :
  switched_off (db w) id ->
  wp (PollService.fetchPollById clk id)
    (fun r _ =>
       succeeded r = false
       /\ (next_fault w = false -> outcome_code r = Some "POLL_NOT_FOUND"))
    w.
Proof.
  intros Hoff. wp_seq. apply wp_query; intros Hn; cbv beta iota.
  - cbn [single]. wp_run; cbn; (split; [reflexivity|congruence]).
  - rewrite (select_switched_off _ _ Hoff). cbn [single map].
    wp_run; cbn; (split; [reflexivity|]); try reflexivity;
      cbn in *; discriminate.
Qed.

Lemma fetchPolls_lists_active (clk : clock) (w : world) :
  wp (PollService.fetchPolls clk)
    (fun r _ =>
       forall l t, r = inr (ApiSuccess l t) ->
       forall x, In x l ->
       In (pr_poll x) (polls (db w)) /\ poll_is_active (pr_poll x) = true) w.
Proof.
  wp_seq. apply wp_query; intros Hn; cbv beta iota.
  - wp_run; cbn; intros; discriminate.
  - wp_seq. intros l t E x Hx. cbn in E. inversion E; subst.
    apply In_order_by_created_at_desc in Hx. apply in_map_iff in Hx.
    destruct Hx as [p [Hp Hin]]. subst x. cbn [embed pr_poll].
    apply filter_In in Hin. exact Hin.
Qed.

(** What a successful [deletePoll] has done to the tables. *)
Lemma deletePoll_success (clk : clock) (credential : option string)
  (id : string) (w : world) :
  wp (PollService.deletePoll clk credential id)
    (fun r w' =>
       forall data t, r = inr (ApiSuccess data t) ->
       (exists p, In p (polls (db w)) /\ poll_id p = id
                  /\ poll_is_active p = true)
       /\ db w'
          = set_polls (db w)
              (map (fun p => if (poll_id p =? id)%string
                             then switch_off (now clk) p else p)
                 (polls (db w)))) w.
Proof.
  wp_seq. wp_step; wp_seq; [|cbn; intros; discriminate].
  apply wp_query; intros Hn; cbv beta iota.
  - wp_seq. cbn [single]. wp_seq. cbn. intros; discriminate.
  - wp_seq.
    destruct (filter _ (polls (db w))) as [|p [|q r]] eqn:F; cbn [single];
      wp_seq; try (cbn; intros; discriminate).
    destruct (negb _); wp_seq; [cbn; intros; discriminate|].
    apply wp_request; intros; cbv beta iota; wp_seq;
      try (cbn; intros; discriminate).
    intros data t _. split.
    + exists p. assert (In p (filter (fun p0 => (poll_id p0 =? id)%string
                                                 && poll_is_active p0)
                                (polls (db w)))) as Hp
        by (rewrite F; left; reflexivity).
      apply filter_In in Hp. destruct Hp as [Hp Hc].
      apply andb_true_iff in Hc. destruct Hc as [Hc1 Hc2].
      apply String.eqb_eq in Hc1. auto.
    + cbn [db sent] in *. inversion H0; subst. reflexivity.
Qed.

(** C10.  After a successful [deletePoll] of the service the row of the
    poll is still in [polls], with [is_active] false and [updated_at]
    stamped and every other column as before; the other poll rows, the
    options, the votes and the profiles are untouched.  In any world with
    these tables, [fetchPolls] never lists the poll and [fetchPollById]
    never succeeds for its id: it answers POLL_NOT_FOUND whenever the
    store serves the lookup. *)
Theorem deletePoll_is_soft_delete
  (clk : clock) (credential : option string) (id : string) (w : world)
  (data : bool) (t : Z) :
  fst (PollService.deletePoll clk credential id w)
  = inr (ApiSuccess data t) ->
  let d' := db (snd (PollService.deletePoll clk credential id w)) in
  polls d'
  = map (fun p => if (poll_id p =? id)%string
                  then switch_off (now clk) p else p) (polls (db w))
  /\ profiles d' = profiles (db w)
  /\ poll_options d' = poll_options (db w)
  /\ votes d' = votes (db w)
  /\ (exists p, In p (polls (db w)) /\ poll_id p = id
                /\ poll_is_active p = true
                /\ In (switch_off (now clk) p) (polls d'))
  /\ switched_off d' id
  /\ forall clk' w2,
       db w2 = d' ->
       (forall l t',
           fst (PollService.fetchPolls clk' w2) = inr (ApiSuccess l t') ->
           forall x, In x l -> poll_id (pr_poll x) <> id)
       /\ succeeded (fst (PollService.fetchPollById clk' id w2)) = false
       /\ (quiet 1 w2 ->
           outcome_code (fst (PollService.fetchPollById clk' id w2))
           = Some "POLL_NOT_FOUND").
Proof.
  intros Hs d'.
  pose proof (deletePoll_success clk credential id w) as H.
  unfold wp in H. destruct (H data t Hs) as [[p [Hp [Hid Ha]]] Hd].
  fold d' in Hd.
  assert (switched_off d' id) as Hoff.
  { intros q Hq Hqid. rewrite Hd in Hq. cbn [polls set_polls] in Hq.
    apply in_map_iff in Hq. destruct Hq as [q0 [E _]].
    destruct (poll_id q0 =? id)%string eqn:E0; subst q.
    - reflexivity.
    - apply String.eqb_neq in E0. tauto. }
  rewrite Hd at 1 2 3 4. cbn [polls profiles poll_options votes set_polls].
  do 4 (split; [reflexivity|]).
  split; [|split; [exact Hoff|]].
  - exists p. repeat split; auto. rewrite Hd. cbn [polls set_polls].
    apply in_map_iff. exists p. rewrite <- Hid, String.eqb_refl. auto.
  - intros clk' w2 Hw2. rewrite <- Hw2 in Hoff.
    pose proof (fetchPollById_switched_off clk' id w2 Hoff) as [F1 F2].
    pose proof (fetchPolls_lists_active clk' w2) as F3. unfold wp in F3.
    split; [|split].
    + intros l t' E x Hx Hxid.
      destruct (F3 l t' E x Hx) as [Hq Hact].
      rewrite (Hoff _ Hq Hxid) in Hact. discriminate.
    + exact F1.
    + intros Hq. apply F2.
      exact (proj1 (quiet_step 0 w2 (Select "polls") (db w2) Hq)).
Qed.

Lemma deletePoll_is_soft_delete_witness :
  fst (PollService.deletePoll example_clock (Some "t1") "p1" example_world)
  = inr (ApiSuccess true 1000%Z)
  /\ let w' := snd (PollService.deletePoll example_clock (Some "t1") "p1"
                      example_world) in
     polls (db w') = [switch_off 1000 example_poll]
     /\ poll_options (db w') = poll_options example_db
     /\ outcome_code (fst (PollService.fetchPollById example_clock "p1"
                             (mkWorld (db w') example_sessions [] [])))
        = Some "POLL_NOT_FOUND".
Proof.
  assert (fst (PollService.deletePoll example_clock (Some "t1") "p1"
                 example_world)
          = inr (ApiSuccess true 1000%Z)) as Hs by reflexivity.
  split; [exact Hs|].
  pose proof (deletePoll_is_soft_delete example_clock (Some "t1") "p1"
                example_world true 1000%Z Hs) as H.
  cbv zeta in H. destruct H as [Hp [_ [Ho [_ [_ [_ Hafter]]]]]].
  cbv zeta. split; [rewrite Hp; reflexivity|]. split; [exact Ho|].
  destruct (Hafter example_clock
              (mkWorld
                 (db (snd (PollService.deletePoll example_clock (Some "t1")
                             "p1" example_world)))
                 example_sessions [] [])
              eq_refl) as [_ [_ Hnf]].
  apply Hnf. reflexivity.
Defined.

(** * Further properties *)

(** ** What the validators accept *)

Lemma truthy_false (s : string) : Js.truthy s = false -> s = "".
Proof. destruct s; [reflexivity|discriminate]. Qed.

Lemma app_nil_iff {X} (a b : list X) : a ++ b = [] <-> a = [] /\ b = [].
Proof.
  split; [apply app_eq_nil|]. intros [-> ->]. reflexivity.
Qed.

Lemma validatePollTitle_nil (title : string) :
  validatePollTitle title = []
  <-> 3 <= String.length (Js.trim title) <= 200.
Proof.
  unfold validatePollTitle.
  destruct (Js.truthy title) eqn:T; cbn [negb orb].
  - destruct (String.length (Js.trim title) =? 0)%nat eqn:E0.
    + apply Nat.eqb_eq in E0. split; [discriminate|lia].
    + apply Nat.eqb_neq in E0.
      destruct (String.length (Js.trim title) <? 3)%nat eqn:E3.
      * apply Nat.ltb_lt in E3. split; [discriminate|lia].
      * apply Nat.ltb_ge in E3.
        destruct (200 <? String.length (Js.trim title))%nat eqn:E2.
        -- apply Nat.ltb_lt in E2. split; [discriminate|lia].
        -- apply Nat.ltb_ge in E2. split; [lia|reflexivity].
  - apply truthy_false in T. subst title. cbn. split; [discriminate|lia].
Qed.

Lemma validatePollDescription_nil (description : option string) :
  validatePollDescription description = []
  <-> forall d, description = Some d -> String.length (Js.trim d) <= 1000.
Proof.
  unfold validatePollDescription. destruct description as [d|].
  - destruct (Js.truthy d) eqn:T; cbn [andb].
    + destruct (1000 <? String.length (Js.trim d))%nat eqn:E.
      * apply Nat.ltb_lt in E. split; [discriminate|].
        intros H. specialize (H d eq_refl). lia.
      * apply Nat.ltb_ge in E. split; [|reflexivity].
        intros _ d0 E0. inversion E0; subst. exact E.
    + apply truthy_false in T. subst d. split; [|reflexivity].
      intros _ d0 E0. inversion E0; subst. cbn. lia.
  - split; [|reflexivity]. intros _ d E. discriminate E.
Qed.

Lemma validateOption_nil (index : nat) (option : string) :
  validateOption index option = []
  <-> 1 <= String.length (Js.trim option) <= 100.
Proof.
  unfold validateOption.
  destruct (Js.truthy option) eqn:T; cbn [negb orb].
  - destruct (String.length (Js.trim option) =? 0)%nat eqn:E0.
    + apply Nat.eqb_eq in E0. split; [discriminate|lia].
    + apply Nat.eqb_neq in E0.
      destruct (100 <? String.length (Js.trim option))%nat eqn:E1.
      * apply Nat.ltb_lt in E1. split; [discriminate|lia].
      * apply Nat.ltb_ge in E1. split; [lia|reflexivity].
  - apply truthy_false in T. subst option. cbn. split; [discriminate|lia].
Qed.

Lemma validateEachOption_nil (options : list string) : forall index,
  validateEachOption index options = []
  <-> Forall (fun o => 1 <= String.length (Js.trim o) <= 100) options.
Proof.
  induction options as [|o r IH]; intros index; cbn [validateEachOption].
  - split; [constructor|reflexivity].
  - rewrite app_nil_iff, validateOption_nil, IH. split.
    + intros [H1 H2]. constructor; assumption.
    + intros H. inversion H; subst. split; assumption.
Qed.

Lemma length_nodup_le {X} (dec : forall x y : X, {x = y} + {x <> y})
  (l : list X) : List.length (nodup dec l) <= List.length l.
Proof.
  induction l as [|a r IH]; cbn; [lia|].
  destruct (in_dec dec a r); cbn; lia.
Qed.

(** A [Set] built from a list has the size of the list exactly when the
    list has no duplicates. *)
Lemma set_size_length (l : list string) :
  Js.set_size l = List.length l <-> NoDup l.
Proof.
  unfold Js.set_size. split.
  - induction l as [|a r IH]; cbn; [constructor|].
    destruct (in_dec string_dec a r) as [Hin|Hn]; cbn.
    + pose proof (length_nodup_le string_dec r). lia.
    + intros E. constructor; [exact Hn|]. apply IH. lia.
  - intros H. rewrite (nodup_fixed_point string_dec H). reflexivity.
Qed.

Lemma validatePollOptions_nil (options : list string) :
  validatePollOptions options = []
  <-> 2 <= List.length options <= 10
      /\ Forall (fun o => 1 <= String.length (Js.trim o) <= 100) options
      /\ NoDup (map (fun o => Js.toLowerCase (Js.trim o)) options).
Proof.
  unfold validatePollOptions.
  destruct (List.length options =? 0)%nat eqn:E0.
  { apply Nat.eqb_eq in E0. split; [discriminate|lia]. }
  destruct (List.length options <? 2)%nat eqn:E2.
  { apply Nat.ltb_lt in E2. split; [discriminate|lia]. }
  destruct (10 <? List.length options)%nat eqn:E10.
  { apply Nat.ltb_lt in E10. split; [discriminate|lia]. }
  apply Nat.ltb_ge in E2. apply Nat.ltb_ge in E10.
  rewrite app_nil_iff, validateEachOption_nil.
  rewrite <- set_size_length, length_map.
  destruct (Js.set_size _ =? List.length options)%nat eqn:Es; cbn [negb].
  - apply Nat.eqb_eq in Es. tauto.
  - apply Nat.eqb_neq in Es. split; [intros [_ H]; discriminate H|tauto].
Qed.


Lemma no_errors {X} (errors : list FieldError) (e : exn) (x : X) :
  (if (0 <? List.length errors)%nat then inl e else inr x) = inr x
  <-> errors = [].
Proof.
  destruct errors; cbn; split; intros H; try reflexivity; discriminate H.
Qed.


(** ** Where a blank option is reported *)

Lemma show_nat_inj (i j : nat) : Js.show_nat i = Js.show_nat j -> i = j.
Proof.
  unfold Js.show_nat. intros H.
  assert (Some (Nat.to_uint i) = Some (Nat.to_uint j)) as E
    by (rewrite <- !NilEmpty.usu, H; reflexivity).
  inversion E as [E']. apply (f_equal Nat.of_uint) in E'.
  rewrite !Unsigned.of_to in E'. exact E'.
Qed.

Lemma append_bracket_inj (a b : string) :
  (a ++ "]")%string = (b ++ "]")%string -> a = b.
Proof.
  revert b. induction a as [|c a IH]; intros [|c' b]; cbn; intros H.
  - reflexivity.
  - inversion H as [[Hc Hb]]. destruct b; discriminate Hb.
  - inversion H as [[Hc Ha]]. destruct a; discriminate Ha.
  - inversion H as [[Hc Ha]]. f_equal. apply IH. exact Ha.
Qed.

Lemma option_field_inj (i j : nat) :
  ("options[" ++ Js.show_nat i ++ "]")%string
  = ("options[" ++ Js.show_nat j ++ "]")%string -> i = j.
Proof.
  cbn. intros H. inversion H as [H']. apply append_bracket_inj in H'.
  apply show_nat_inj. exact H'.
Qed.

Lemma validateOption_blank (index : nat) (option : string) (k : nat) :
  In (mkFieldError ("options[" ++ Js.show_nat k ++ "]")%string
        "Poll option cannot be empty")
    (validateOption index option)
  <-> k = index /\ String.length (Js.trim option) = 0.
Proof.
  unfold validateOption.
  destruct (Js.truthy option) eqn:T; cbn [negb orb].
  - destruct (String.length (Js.trim option) =? 0)%nat eqn:E0.
    + apply Nat.eqb_eq in E0. split.
      * intros [H|[]]. apply (f_equal field) in H. cbn [field] in H.
        apply option_field_inj in H. split; [congruence|exact E0].
      * intros [-> _]. left. reflexivity.
    + apply Nat.eqb_neq in E0.
      destruct (100 <? String.length (Js.trim option))%nat.
      * split; [intros [H|[]]; discriminate H|tauto].
      * split; [intros []|tauto].
  - apply truthy_false in T. subst option. cbn [Js.trim Js.trimStart
      Js.trimEnd String.length]. split.
    + intros [H|[]]. apply (f_equal field) in H. cbn [field] in H.
      apply option_field_inj in H. split; [congruence|reflexivity].
    + intros [-> _]. left. reflexivity.
Qed.

Lemma validateEachOption_blank (options : list string) : forall index k,
  In (mkFieldError ("options[" ++ Js.show_nat k ++ "]")%string
        "Poll option cannot be empty")
    (validateEachOption index options)
  <-> index <= k < index + List.length options
      /\ String.length (Js.trim (nth (k - index) options "")) = 0.
Proof.
  induction options as [|o r IH]; intros index k;
    cbn [validateEachOption List.length].
  - split; [intros []|lia].
  - rewrite in_app_iff, validateOption_blank, IH. split.
    + intros [[-> H]|[H1 H2]].
      * rewrite Nat.sub_diag. cbn [nth]. split; [lia|exact H].
      * split; [lia|]. replace (k - index) with (S (k - S index)) by lia.
        exact H2.
    + intros [H1 H2]. destruct (Nat.eq_dec k index) as [->|Hne].
      * left. rewrite Nat.sub_diag in H2. auto.
      * right. split; [lia|].
        replace (k - index) with (S (k - S index)) in H2 by lia. exact H2.
Qed.

(** X2.  With 2 to 10 options, [validatePollOptions] reports "Poll option
    cannot be empty" under the field [options[i]] exactly for the indices
    [i] of the options that are empty after trimming. *)
Theorem validatePollOptions_reports_blank_option
  (options : list string) (i : nat) :
  2 <= List.length options <= 10 ->
  (In (mkFieldError ("options[" ++ Js.show_nat i ++ "]")%string
         "Poll option cannot be empty")
     (validatePollOptions options)
   <-> i < List.length options
       /\ String.length (Js.trim (nth i options "")) = 0).
Proof.
  intros [H2 H10]. unfold validatePollOptions.
  assert ((List.length options =? 0)%nat = false) as E0
    by (apply Nat.eqb_neq; lia).
  assert ((List.length options <? 2)%nat = false) as E2
    by (apply Nat.ltb_ge; lia).
  assert ((10 <? List.length options)%nat = false) as E10
    by (apply Nat.ltb_ge; lia).
  rewrite E0, E2, E10. rewrite in_app_iff, validateEachOption_blank.
  rewrite Nat.sub_0_r. split.
  - intros [[H1 H3]|H]; [split; [lia|exact H3]|].
    destruct (negb _); [destruct H as [H|[]]; discriminate H|destruct H].
  - intros [H1 H3]. left. split; [lia|exact H3].
Qed.

Lemma validatePollOptions_reports_blank_option_witness :
  2 <= List.length ["Red"; "  "; "Blue"] <= 10
  /\ In (mkFieldError "options[1]" "Poll option cannot be empty")
       (validatePollOptions ["Red"; "  "; "Blue"])
  /\ ~ In (mkFieldError "options[2]" "Poll option cannot be empty")
         (validatePollOptions ["Red"; "  "; "Blue"]).
Proof.
  assert (2 <= List.length ["Red"; "  "; "Blue"] <= 10) as H
    by (cbn; lia).
  split; [exact H|]. split.
  - apply (validatePollOptions_reports_blank_option ["Red"; "  "; "Blue"] 1 H).
    cbn. split; [lia|reflexivity].
  - intros Hin.
    apply (validatePollOptions_reports_blank_option ["Red"; "  "; "Blue"] 2 H)
      in Hin.
    destruct Hin as [_ Hin]. cbn in Hin. discriminate Hin.
Defined.

(** ** Trimming twice *)

Lemma trimEnd_cons (c : ascii) (r : string) :
  Js.is_space c = false -> exists r', Js.trimEnd (String c r) = String c r'.
Proof.
  intros H. cbn [Js.trimEnd]. destruct (Js.trimEnd r).
  - rewrite H. eexists; reflexivity.
  - eexists; reflexivity.
Qed.

Lemma trimEnd_step (c : ascii) (r : string) :
  Js.trimEnd (String c r)
  = match Js.trimEnd r with
    | EmptyString =>
        if Js.is_space c then EmptyString else String c EmptyString
    | r' => String c r'
    end.
Proof. reflexivity. Qed.

Lemma trimEnd_trimEnd (s : string) : Js.trimEnd (Js.trimEnd s) = Js.trimEnd s.
Proof.
  induction s as [|c r IH]; [reflexivity|]. rewrite trimEnd_step.
  destruct (Js.trimEnd r) as [|c' r'] eqn:E.
  - destruct (Js.is_space c) eqn:Hc; [reflexivity|].
    cbn [Js.trimEnd]. rewrite Hc. reflexivity.
  - rewrite trimEnd_step, IH. reflexivity.
Qed.

Lemma trimStart_head (s : string) :
  Js.trimStart s = ""
  \/ exists c r, Js.trimStart s = String c r /\ Js.is_space c = false.
Proof.
  induction s as [|c r IH]; [left; reflexivity|]. cbn [Js.trimStart].
  destruct (Js.is_space c) eqn:Hc; [exact IH|].
  right. exists c, r. auto.
Qed.

(** [trim] is idempotent. *)
Lemma trim_trim (s : string) : Js.trim (Js.trim s) = Js.trim s.
Proof.
  unfold Js.trim. destruct (trimStart_head s) as [E|[c [r [E Hc]]]].
  - rewrite E. reflexivity.
  - rewrite E. destruct (trimEnd_cons c r Hc) as [r' E'].
    rewrite E'. cbn [Js.trimStart]. rewrite Hc, <- E'.
    apply trimEnd_trimEnd.
Qed.

(** X3.  What [createPoll] sends to the store of an accepted request (the
    trimmed title, description and option texts) is accepted by
    [validateEditPollFormData] again, whatever ids the options carry. *)
Theorem stored_poll_passes_edit_validation
  (clk : clock) (data : CreatePollRequest) (stored : list EditOption) :
  validateCreatePollRequest clk data = inr tt ->
  map eo_text stored = map Js.trim (req_options data) ->
  validateEditPollFormData
    (mkEditPollFormData (Js.trim (req_title data))
       (option_map Js.trim (req_description data)) stored)
  = inr tt.
Proof.
  unfold validateCreatePollRequest, validateEditPollFormData. cbv zeta.
  rewrite !no_errors, !app_nil_iff.
  rewrite !validatePollTitle_nil, !validatePollDescription_nil,
    !validatePollOptions_nil.
  cbn [edit_title edit_description edit_options].
  intros [Ht [Hd [[Hn [Ho Hu]] _]]] Hs. rewrite Hs, trim_trim.
  split; [exact Ht|]. split; [|split; [|split]].
  - intros d E. destruct (req_description data) as [d0|]; [|discriminate E].
    cbn in E. inversion E; subst. rewrite trim_trim. apply Hd. reflexivity.
  - rewrite length_map. exact Hn.
  - apply Forall_map. revert Ho. apply Forall_impl. intros o H.
    rewrite trim_trim. exact H.
  - rewrite map_map.
    rewrite (map_ext _ (fun o => Js.toLowerCase (Js.trim o)));
      [exact Hu|]. intros o. rewrite trim_trim. reflexivity.
Qed.

Lemma stored_poll_passes_edit_validation_witness :
  validateCreatePollRequest example_clock
    (mkCreatePollRequest "  Favorite animal?  " None [" Cat"; "Dog "] None)
  = inr tt
  /\ validateEditPollFormData
       (mkEditPollFormData "Favorite animal?" None
          [mkEditOption "o1" "Cat"; mkEditOption "o2" "Dog"])
     = inr tt.
Proof.
  split; [reflexivity|].
  exact (stored_poll_passes_edit_validation example_clock
           (mkCreatePollRequest "  Favorite animal?  " None
              [" Cat"; "Dog "] None)
           [mkEditOption "o1" "Cat"; mkEditOption "o2" "Dog"]
           eq_refl eq_refl).
Defined.

(** ** A vote for a poll that does not exist *)

Lemma has_poll_false_find (d : database) (p : string) :
  has_poll d p = false ->
  find (fun x => (poll_id x =? p)%string) (polls d) = None.
Proof.
  unfold has_poll. induction (polls d) as [|x r IH]; cbn; [reflexivity|].
  destruct (poll_id x =? p)%string; cbn; [discriminate|exact IH].
Qed.

(** X4.  For a poll id without a row, [is_poll_active] returns NULL, so
    the guard [IF NOT is_poll_active(...)] of [cast_vote] does not raise
    "Poll is not active": the function goes on to the insert, which fails
    on the foreign key of [votes.poll_id].  The vote route reads the NULL
    as "not active" and answers 400 before calling [cast_vote]; the tables
    stay as they were. *)
Theorem cast_vote_unknown_poll
  (rs : numeric -> numeric -> Z) (clk : clock) (c : Credentials)
  (p o u : string) (w : world) :
  has_poll (db w) p = false -> has_vote (db w) u p = false ->
  is_poll_active (db w) p (now clk) = None
  /\ cast_vote (db w) p o u (now clk) = SqlError foreign_key_violation
  /\ (Js.truthy o = true -> fst (Route.cookie_user c w) = inr (Some u) ->
      next_fault w = false ->
      VoteRoute.POST rs clk c p (Some o) w
      = (inr (mkHttpResponse 400 (JError "This poll is not active")),
         sent w (Rpc "is_poll_active") (db w))).
Proof.
  intros Hp Hv.
  assert (is_poll_active (db w) p (now clk) = None) as Hact.
  { unfold is_poll_active. rewrite (has_poll_false_find _ _ Hp).
    reflexivity. }
  split; [exact Hact|]. split.
  - unfold cast_vote. rewrite Hact. cbn [sql_not option_map sql_holds].
    unfold insert_vote. rewrite Hv, Hp. reflexivity.
  - intros Ho Hu Hn. cbn [fst Route.cookie_user] in Hu.
    inversion Hu as [Hu']. clear Hu.
    apply wp_eq. wp_seq. rewrite Ho. cbn [negb]. wp_seq. rewrite Hu'.
    wp_seq. apply wp_query; [congruence|]. intros _.
    rewrite Hact. cbn [sql_holds negb]. wp_seq. split; reflexivity.
Qed.

Lemma cast_vote_unknown_poll_witness :
  has_poll (db example_world) "p9" = false
  /\ cast_vote (db example_world) "p9" "red" "u2" 1000
     = SqlError foreign_key_violation
  /\ http_status
       (fst (VoteRoute.POST example_scale example_clock (cookie "t2") "p9"
               (Some "red") example_world))
     = Some 400.
Proof.
  split; [reflexivity|].
  destruct (cast_vote_unknown_poll example_scale example_clock (cookie "t2")
              "p9" "red" "u2" example_world eq_refl eq_refl)
    as [_ [H1 H2]].
  split; [exact H1|]. rewrite (H2 eq_refl eq_refl eq_refl). reflexivity.
Defined.

(** ** The counts of the options and the total of the poll *)

Lemma list_sum_map_add {X} (a b : X -> nat) (l : list X) :
  list_sum (map (fun x => a x + b x) l)
  = list_sum (map a l) + list_sum (map b l).
Proof.
  unfold list_sum. induction l as [|x r IH]; cbn [map fold_right];
    [reflexivity|]. rewrite IH. lia.
Qed.

Lemma list_sum_map_zero {X} (l : list X) :
  list_sum (map (fun _ => 0) l) = 0.
Proof.
  unfold list_sum. induction l as [|x r IH]; cbn [map fold_right]; auto.
Qed.

(** Among rows with distinct keys, the rows with key [k] are one or
    none. *)
Lemma list_sum_indicator {X} (key : X -> string) (k : string) (l : list X) :
  NoDup (map key l) ->
  list_sum (map (fun x => if (k =? key x)%string then 1 else 0) l)
  = if existsb (fun x => (k =? key x)%string) l then 1 else 0.
Proof.
  unfold list_sum.
  induction l as [|x r IH]; cbn [map fold_right existsb]; [reflexivity|].
  intros Hnd. inversion Hnd as [|? ? Hn Hr]; subst. rewrite (IH Hr).
  destruct (k =? key x)%string eqn:E; cbn [orb]; [|reflexivity].
  apply String.eqb_eq in E. subst k.
  destruct (existsb _ r) eqn:Ex; [|reflexivity].
  exfalso. apply Hn. apply existsb_exists in Ex.
  destruct Ex as [y [Hy Ey]]. apply String.eqb_eq in Ey. rewrite Ey.
  apply in_map. exact Hy.
Qed.

(** Whether a vote counts for one of the options of poll [p]. *)
Lemma vote_among_options_of (d : database) (p : string) (v : Vote) :
  options_ok d ->
  (exists o, In o (poll_options d)
             /\ option_id o = vote_option_id v
             /\ option_poll_id o = vote_poll_id v) ->
  existsb (fun o => (vote_option_id v =? option_id o)%string)
    (filter (fun o => (option_poll_id o =? p)%string) (poll_options d))
  = (vote_poll_id v =? p)%string.
Proof.
  intros Hok [o [Ho [Hid Hp]]].
  destruct (vote_poll_id v =? p)%string eqn:E.
  - apply String.eqb_eq in E. apply existsb_exists. exists o. split.
    + apply filter_In. split; [exact Ho|]. apply String.eqb_eq. congruence.
    + apply String.eqb_eq. congruence.
  - apply String.eqb_neq in E.
    destruct (existsb _ _) eqn:Ex; [|reflexivity]. exfalso.
    apply existsb_exists in Ex. destruct Ex as [o' [Ho' Eo']].
    apply filter_In in Ho'. destruct Ho' as [Ho' Hp'].
    apply String.eqb_eq in Eo'. apply String.eqb_eq in Hp'.
    assert (o' = o) as ->
      by (apply (NoDup_map_inj option_id (poll_options d)); auto; congruence).
    congruence.
Qed.

Lemma option_counts_sum (d : database) (p : string) (vs : list Vote) :
  options_ok d ->
  (forall v, In v vs ->
     exists o, In o (poll_options d)
               /\ option_id o = vote_option_id v
               /\ option_poll_id o = vote_poll_id v) ->
  list_sum
    (map (fun o =>
            List.length
              (filter (fun v => (vote_option_id v =? option_id o)%string) vs))
       (filter (fun o => (option_poll_id o =? p)%string) (poll_options d)))
  = List.length (filter (fun v => (vote_poll_id v =? p)%string) vs).
Proof.
  intros Hok. induction vs as [|v r IH]; intros Hown; cbn [filter].
  - apply list_sum_map_zero.
  - rewrite (map_ext _
               (fun o =>
                  (if (vote_option_id v =? option_id o)%string then 1 else 0)
                  + List.length
                      (filter
                         (fun v0 => (vote_option_id v0 =? option_id o)%string)
                         r)))
      by (intros o; destruct (_ =? _)%string; reflexivity).
    rewrite list_sum_map_add, IH by (intros; apply Hown; right; assumption).
    rewrite (list_sum_indicator option_id)
      by (apply NoDup_map_filter; exact Hok).
    rewrite (vote_among_options_of d p v Hok)
      by (apply Hown; left; reflexivity).
    destruct (vote_poll_id v =? p)%string; reflexivity.
Qed.

(** X5.  When every vote is for an option of the poll it is on, the vote
    counts that [poll_options_with_stats] reports for the options of a
    poll add up to the [total_votes] that [poll_details] reports for the
    poll. *)
Theorem option_votes_add_up
  (rs : numeric -> numeric -> Z) (d : database) (pd : PollDetails) :
  options_ok d -> votes_ok d -> votes_on_own_options d ->
  In pd (poll_details d) ->
  list_sum
    (map pos_votes
       (filter (fun o => (pos_poll_id o =? poll_id (pd_poll pd))%string)
          (poll_options_with_stats rs d)))
  = total_votes pd.
Proof.
  intros Hopt Hvotes Hown Hpd.
  unfold poll_details in Hpd. apply in_map_iff in Hpd.
  destruct Hpd as [q [E _]]. subst pd. cbn [pd_poll total_votes].
  rewrite (proj1 (poll_total_voters d (poll_id q) Hvotes)).
  unfold poll_options_with_stats, poll_total.
  rewrite filter_map_swap, map_map. cbn [pos_poll_id pos_votes].
  unfold count_option_votes.
  apply (option_counts_sum d (poll_id q) (votes d) Hopt). exact Hown.
Qed.

Lemma option_votes_add_up_witness :
  votes_on_own_options example_db_three
  /\ map pos_votes (poll_options_with_stats example_scale example_db_three)
     = [1; 2]
  /\ map total_votes (poll_details example_db_three) = [3]
  /\ list_sum
       (map pos_votes
          (filter (fun o => (pos_poll_id o =? "p1")%string)
             (poll_options_with_stats example_scale example_db_three)))
     = 3.
Proof.
  assert (votes_on_own_options example_db_three) as Hown.
  { intros v [<-|[<-|[<-|[]]]]; cbn;
      [exists (mkPollOption "red" "p1" "Red" 10 10)
      |exists (mkPollOption "blue" "p1" "Blue" 10 10)
      |exists (mkPollOption "blue" "p1" "Blue" 10 10)];
      cbn; intuition. }
  split; [exact Hown|]. split; [reflexivity|]. split; [reflexivity|].
  assert (options_ok example_db_three) as Hopt
    by (unfold options_ok; nodup_keys).
  assert (votes_ok example_db_three) as Hvotes
    by (split; nodup_keys).
  exact (option_votes_add_up example_scale example_db_three
           (mkPollDetails example_poll 3 (Some "Ann"))
           Hopt Hvotes Hown (or_introl eq_refl)).
Defined.

(** ** Votes stay on options of their poll *)

Lemma single_filter_In {X} (f : X -> bool) (l : list X) (x : X) :
  single (Data (filter f l)) = Data x -> In x l /\ f x = true.
Proof.
  cbn [single]. destruct (filter f l) as [|y [|z t]] eqn:F;
    try discriminate.
  intros E. inversion E; subst. apply filter_In. rewrite F. left. reflexivity.
Qed.

Lemma insert_vote_own_option (d d' : database) (p o u id : string) (t : Z) :
  votes_on_own_options d ->
  (exists x, In x (poll_options d) /\ option_id x = o
             /\ option_poll_id x = p) ->
  insert_vote d p o u t = SqlOk (id, d') -> votes_on_own_options d'.
Proof.
  intros Hown Hx. unfold insert_vote.
  destruct (has_vote d u p); [discriminate|].
  destruct (_ && _); [|discriminate].
  intros E. inversion E; subst; clear E.
  intros v Hv. cbn [votes set_votes poll_options] in *.
  apply in_app_iff in Hv. destruct Hv as [Hv|[<-|[]]]; [apply Hown; exact Hv|].
  exact Hx.
Qed.

Lemma update_vote_option_own_option (d d' : database) (p u o : string)
  (r : option string) :
  votes_on_own_options d ->
  (exists x, In x (poll_options d) /\ option_id x = o
             /\ option_poll_id x = p) ->
  update_vote_option d p u o = SqlOk (r, d') -> votes_on_own_options d'.
Proof.
  intros Hown Hx. unfold update_vote_option.
  destruct (filter _ (votes d)) as [|v0 vs];
    [intros E; inversion E; subst; exact Hown|].
  destruct (has_option d o); [|discriminate].
  intros E. inversion E; subst; clear E.
  intros v Hv. cbn [votes set_votes poll_options] in *.
  apply in_map_iff in Hv. destruct Hv as [v1 [Ev Hv1]].
  destruct ((vote_poll_id v1 =? p)%string && (vote_user_id v1 =? u)%string)
    eqn:Hit; subst v.
  - apply andb_true_iff in Hit. destruct Hit as [Hp _].
    apply String.eqb_eq in Hp. cbn [vote_option_id vote_poll_id].
    rewrite Hp. exact Hx.
  - apply Hown. exact Hv1.
Qed.

Lemma cast_vote_own_option (d d' : database) (p o u : string) (t : Z)
  (r : option string) :
  votes_on_own_options d ->
  (exists x, In x (poll_options d) /\ option_id x = o
             /\ option_poll_id x = p) ->
  cast_vote d p o u t = SqlOk (r, d') -> votes_on_own_options d'.
Proof.
  intros Hown Hx. unfold cast_vote. destruct (sql_holds _); [discriminate|].
  destruct (insert_vote d p o u t) as [[id d1]|e] eqn:Ei.
  - intros E. inversion E; subst. eapply insert_vote_own_option; eauto.
  - destruct e; try discriminate.
    apply update_vote_option_own_option; assumption.
Qed.

Lemma delete_votes_own_option (d : database) (p u : string) :
  votes_on_own_options d -> votes_on_own_options (delete_votes d p u).
Proof.
  intros Hown v Hv. unfold delete_votes in *.
  cbn [votes set_votes poll_options] in *.
  apply filter_In in Hv. apply Hown. exact (proj1 Hv).
Qed.

Lemma selected_option (d : database) (o p : string) (x : PollOption) :
  single
    (Data (filter (fun y => (option_id y =? o)%string
                            && (option_poll_id y =? p)%string)
             (poll_options d)))
  = Data x ->
  exists x, In x (poll_options d) /\ option_id x = o /\ option_poll_id x = p.
Proof.
  intros H. apply single_filter_In in H. destruct H as [Hin Hx].
  apply andb_true_iff in Hx. destruct Hx as [H1 H2].
  apply String.eqb_eq in H1. apply String.eqb_eq in H2. eauto.
Qed.

(** A lookup that failed gave no row. *)
Ltac absurd_single :=
  solve [ match goal with
          | H : single (Failed _) = Data _ |- _ => discriminate H
          end ].

(** X6.  A vote cast through [PollService.castVote] or through the vote
    route, and a vote withdrawn through the route, keep every vote on an
    option of the poll it is on, whatever the arguments and whatever the
    store refuses: both paths look the option up under the poll before
    they write. *)
Theorem casts_keep_votes_on_own_options
  (rs : numeric -> numeric -> Z) (clk : clock) (w : world) :
  votes_on_own_options (db w) ->
  (forall credential p o,
      votes_on_own_options
        (db (snd (PollService.castVote clk credential p o w))))
  /\ (forall c p o,
         votes_on_own_options (db (snd (VoteRoute.POST rs clk c p o w))))
  /\ (forall c p,
         votes_on_own_options (db (snd (VoteRoute.DELETE rs c p w)))).
Proof.
  intros Hown. split; [|split].
  - intros credential p o.
    change (wp (PollService.castVote clk credential p o)
              (fun _ w' => votes_on_own_options (db w')) w).
    wp_run; cbn [db sent] in *; try exact Hown; try absurd_single.
    all: match goal with
         | Hs : single (Data (filter _ (poll_options _))) = Data _,
           Hi : insert_vote _ _ _ _ _ = SqlOk _ |- _ =>
             exact (insert_vote_own_option _ _ _ _ _ _ _ Hown
                      (selected_option _ _ _ _ Hs) Hi)
         end.
  - intros c p o.
    change (wp (VoteRoute.POST rs clk c p o)
              (fun _ w' => votes_on_own_options (db w')) w).
    wp_run; cbn [db sent] in *; try exact Hown; try absurd_single.
    all: match goal with
         | Hs : single (Data (filter _ (poll_options _))) = Data _,
           Hi : cast_vote _ _ _ _ _ = SqlOk _ |- _ =>
             exact (cast_vote_own_option _ _ _ _ _ _ _ Hown
                      (selected_option _ _ _ _ Hs) Hi)
         end.
  - intros c p.
    change (wp (VoteRoute.DELETE rs c p)
              (fun _ w' => votes_on_own_options (db w')) w).
    unfold VoteRoute.DELETE.
    wp_run; cbn [db sent] in *; try exact Hown.
    all: match goal with
         | Hd : SqlOk _ = SqlOk _ |- _ =>
             inversion Hd; subst; apply delete_votes_own_option; exact Hown
         end.
Qed.

Lemma casts_keep_votes_on_own_options_witness :
  votes_on_own_options (db example_world)
  /\ votes_on_own_options
       (db (snd (VoteRoute.POST example_scale example_clock (cookie "t2")
                   "p1" (Some "red") example_world)))
  /\ List.length
       (votes (db (snd (VoteRoute.POST example_scale example_clock
                          (cookie "t2") "p1" (Some "red") example_world))))
     = 1.
Proof.
  assert (votes_on_own_options (db example_world)) as Hown
    by (intros v []).
  split; [exact Hown|]. split; [|reflexivity].
  apply (casts_keep_votes_on_own_options example_scale example_clock
           example_world Hown).
Defined.

(** ** Newest first *)

Lemma insert_by_desc_perm {X} (key : X -> Z) (x : X) (l : list X) :
  Permutation (insert_by_desc key x l) (x :: l).
Proof.
  induction l as [|y r IH]; cbn [insert_by_desc]; [reflexivity|].
  destruct (key y <? key x)%Z; [reflexivity|].
  rewrite IH. apply perm_swap.
Qed.

Lemma insert_by_desc_sorted {X} (key : X -> Z) (x : X) (l : list X) :
  StronglySorted (fun a b => (key b <= key a)%Z) l ->
  StronglySorted (fun a b => (key b <= key a)%Z) (insert_by_desc key x l).
Proof.
  induction l as [|y r IH]; cbn [insert_by_desc]; intros Hs.
  - repeat constructor.
  - inversion Hs as [|? ? Hr Hy]; subst.
    destruct (key y <? key x)%Z eqn:E.
    + apply Z.ltb_lt in E. constructor; [exact Hs|].
      constructor; [lia|]. revert Hy. apply Forall_impl. intros a Ha. lia.
    + apply Z.ltb_ge in E. constructor; [apply IH; exact Hr|].
      rewrite (insert_by_desc_perm key x r). constructor; assumption.
Qed.

Lemma fold_insert_by_desc {X} (key : X -> Z) (l : list X) :
  Permutation (fold_right (insert_by_desc key) [] l) l
  /\ StronglySorted (fun a b => (key b <= key a)%Z)
       (fold_right (insert_by_desc key) [] l).
Proof.
  induction l as [|x r [IH1 IH2]]; cbn [fold_right].
  - split; constructor.
  - split; [|apply insert_by_desc_sorted; exact IH2].
    rewrite insert_by_desc_perm. constructor. exact IH1.
Qed.

Lemma order_by_created_at_desc_by (l : list PollWithRelations) :
  order_by_created_at_desc l
  = fold_right
      (insert_by_desc (fun x => poll_created_at (pr_poll x))) [] l.
Proof.
  unfold order_by_created_at_desc.
  induction l as [|x r IH]; cbn [fold_right]; [reflexivity|].
  rewrite IH. generalize (fold_right
                            (insert_by_desc
                               (fun x => poll_created_at (pr_poll x))) [] r).
  intros l. induction l as [|y t IHl]; cbn; [reflexivity|].
  rewrite IHl. reflexivity.
Qed.

Lemma details_by_created_at_desc_by (l : list PollDetails) :
  details_by_created_at_desc l
  = fold_right
      (insert_by_desc (fun x => poll_created_at (pd_poll x))) [] l.
Proof.
  unfold details_by_created_at_desc.
  induction l as [|x r IH]; cbn [fold_right]; [reflexivity|].
  rewrite IH. generalize (fold_right
                            (insert_by_desc
                               (fun x => poll_created_at (pd_poll x))) [] r).
  intros l. induction l as [|y t IHl]; cbn; [reflexivity|].
  rewrite IHl. reflexivity.
Qed.

(** X7.  When the store serves its one request, [fetchPolls] answers with
    the polls whose [is_active] is true, each exactly once with its options
    and its count of votes, ordered from the newest to the oldest; when the
    store refuses the request it answers FETCH_ERROR. *)
Theorem fetchPolls_newest_first (clk : clock) (w : world) :
  (next_fault w = false ->
   exists l,
     fst (PollService.fetchPolls clk w) = inr (ApiSuccess l (now clk))
     /\ Permutation l
          (map (embed false (db w)) (filter poll_is_active (polls (db w))))
     /\ StronglySorted (fun a b => newer_or_same (pr_poll a) (pr_poll b)) l)
  /\ (next_fault w = true ->
      outcome_code (fst (PollService.fetchPolls clk w))
      = Some "FETCH_ERROR").
Proof.
  split; intros Hn.
  - exists (order_by_created_at_desc
              (map (embed false (db w))
                 (filter poll_is_active (polls (db w))))).
    split.
    + change (wp (PollService.fetchPolls clk)
                (fun r _ =>
                   r = inr (ApiSuccess
                              (order_by_created_at_desc
                                 (map (embed false (db w))
                                    (filter poll_is_active (polls (db w)))))
                              (now clk))) w).
      wp_seq. apply wp_query; [congruence|]. intros _. wp_seq. reflexivity.
    + rewrite order_by_created_at_desc_by.
      exact (fold_insert_by_desc
               (fun x => poll_created_at (pr_poll x)) _).
  - change (wp (PollService.fetchPolls clk)
              (fun r _ => outcome_code r = Some "FETCH_ERROR") w).
    wp_seq. apply wp_query; [|congruence]. intros _. wp_seq. reflexivity.
Qed.

Lemma fetchPolls_newest_first_witness :
  let d := set_polls example_db
             [example_poll;
              mkPoll "p2" "Older and closed" None false "u1" 5 None 5;
              mkPoll "p3" "Newest" None true "u2" 20 None 20] in
  next_fault (mkWorld d example_sessions [] []) = false
  /\ exists l,
       fst (PollService.fetchPolls example_clock
              (mkWorld d example_sessions [] []))
       = inr (ApiSuccess l 1000%Z)
       /\ map (fun x => poll_id (pr_poll x)) l = ["p3"; "p1"].
Proof.
  intros d. split; [reflexivity|].
  destruct (proj1 (fetchPolls_newest_first example_clock
                     (mkWorld d example_sessions [] [])) eq_refl)
    as [l [H1 _]].
  exists l. split; [exact H1|].
  vm_compute in H1. inversion H1. reflexivity.
Defined.

(** ** What [createPoll] of the service answers *)

Lemma quiet_S (n : nat) (w : world) : quiet (S n) w -> quiet n w.
Proof.
  unfold quiet. generalize (faults w).
  induction n as [|n IH]; intros fs H; [reflexivity|].
  destruct fs as [|f r]; [reflexivity|].
  cbn [no_fault] in *. apply andb_true_iff in H. destruct H as [H1 H2].
  rewrite H1. apply IH. exact H2.
Qed.

(** What the lookup of [fetchPollById] gives for the row of an active
    poll. *)
Lemma fetchPollById_active (n : nat) (clk : clock) (id : string)
  (p : Poll) (w : world) :
  polls_ok (db w) -> In p (polls (db w)) -> poll_id p = id ->
  poll_is_active p = true -> quiet (S n) w ->
  PollService.fetchPollById clk id w
  = (inr (ApiSuccess (embed true (db w) p) (now clk)),
     sent w (Select "polls") (db w))
  /\ quiet n (sent w (Select "polls") (db w)).
Proof.
  intros Hok Hin Hid Ha Hq.
  pose proof (select_active_row (db w) id p Hok Hin Hid) as Hsel.
  rewrite Ha in Hsel.
  split; [|exact (proj2 (quiet_step n w (Select "polls") (db w) Hq))].
  apply wp_eq. wp_seq. wp_read Hq. rewrite Hsel. cbn [map single].
  wp_seq. split; reflexivity.
Qed.

Lemma set_poll_options_twice (d : database) (a b : list PollOption) :
  set_poll_options (set_poll_options d a) b = set_poll_options d b.
Proof. reflexivity. Qed.

(** One insert of option rows for polls that exist stores every row, in
    the order given, after the rows that were there. *)
Lemma insert_poll_options_stores (rows : list (string * string)) (t : Z) :
  forall d,
    (forall row, In row rows -> has_poll d (fst row) = true) ->
    exists rs,
      insert_poll_options d rows t
      = SqlOk (rs, set_poll_options d (poll_options d ++ rs))
      /\ map (fun o => (option_poll_id o, option_text o)) rs = rows.
Proof.
  induction rows as [|[pid text] rest IH]; intros d Hp;
    cbn [insert_poll_options].
  - exists []. rewrite app_nil_r. split; [|reflexivity].
    destruct d; reflexivity.
  - assert (has_poll d pid = true) as Hpid
      by (apply (Hp (pid, text)); left; reflexivity).
    rewrite Hpid.
    set (row := mkPollOption
                  (uuid_generate_v4 (map option_id (poll_options d)))
                  pid text t t).
    destruct (IH (set_poll_options d (poll_options d ++ [row])))
      as [rs [E1 E2]].
    { intros r Hr. unfold has_poll. cbn [polls set_poll_options].
      apply Hp. right. exact Hr. }
    rewrite E1. exists (row :: rs). split.
    + cbn [poll_options set_poll_options]. rewrite set_poll_options_twice.
      rewrite <- app_assoc. reflexivity.
    + cbn [map]. rewrite E2. reflexivity.
Qed.

Lemma has_poll_In (d : database) (p : Poll) :
  In p (polls d) -> has_poll d (poll_id p) = true.
Proof.
  intros H. unfold has_poll. apply existsb_exists. exists p.
  rewrite String.eqb_refl. auto.
Qed.

(** X8.  [createPoll] of the service never answers success: the option
    rows it sends name [order_index], a column that [poll_options] does
    not have, so the store refuses the insert whenever it is reached.
    For a user with a profile and an accepted request, while the store
    serves the insert of the poll row and carries out the delete that
    follows the refusal, the answer is CREATE_ERROR after three requests
    and the [polls] table is as before. *)
Theorem createPoll_never_succeeds
  (clk : clock) (credential : option string) (data : CreatePollRequest)
  (w : world) :
  succeeded (fst (PollService.createPoll clk credential data w)) = false
  /\ (forall u,
         session_user w credential = Some u ->
         has_profile (db w) u = true ->
         validateCreatePollRequest clk data = inr tt ->
         quiet 3 w ->
         let r := PollService.createPoll clk credential data w in
         outcome_code (fst r) = Some "CREATE_ERROR"
         /\ log (snd r)
            = log w ++ [Insert "polls"; Insert "poll_options"; Delete "polls"]
         /\ polls (db (snd r)) = polls (db w)
         /\ profiles (db (snd r)) = profiles (db w)).
Proof.
  split.
  - change (wp (PollService.createPoll clk credential data)
              (fun r _ => succeeded r = false) w).
    wp_run; try reflexivity.
    destruct (validateCreatePollRequest clk data) as [e|[]];
      wp_run; try reflexivity.
    all: match goal with
         | H : insert_poll_options_with_order_index _ _ = SqlOk _ |- _ =>
             discriminate H
         end.
  - intros u Hu Hprof Hv Hq r. unfold session_user in Hu.
    change (wp (PollService.createPoll clk credential data)
              (fun r w' =>
                 outcome_code r = Some "CREATE_ERROR"
                 /\ log w'
                    = log w ++ [Insert "polls"; Insert "poll_options";
                                Delete "polls"]
                 /\ polls (db w') = polls (db w)
                 /\ profiles (db w') = profiles (db w)) w).
    wp_seq. rewrite Hu. wp_seq. rewrite Hv. wp_seq.
    destruct (insert_poll (db w) (Js.trim (req_title data))
                (option_map Js.trim (req_description data)) u
                (req_expiresAt data) true (now clk)) as [[row d1]|e] eqn:Ei;
      [|unfold insert_poll in Ei; rewrite Hprof in Ei; discriminate].
    eapply wp_request_known; [exact Hq|rewrite Ei; reflexivity|].
    clear Hq; intros Hq. cbv beta iota. cbn [single]. wp_seq.
    destruct (delete_inserted_poll _ _ _ _ _ _ _ _ _ Ei) as [Hpolls _].
    assert (profiles (delete_polls d1 (poll_id row)) = profiles (db w))
      as Hprofiles.
    { unfold insert_poll in Ei. rewrite Hprof in Ei.
      inversion Ei; subst. unfold delete_polls.
      destruct (has_poll _ _); reflexivity. }
    apply (wp_request_quiet 1); [exact Hq|intros a d' E _; discriminate E|].
    intros e E Hq2. cbv beta iota. wp_seq.
    apply (wp_request_quiet 0);
      [exact Hq2| |intros e' E' _; discriminate E'].
    intros a d' E' _. inversion E'; subst. cbv beta iota. wp_seq.
    cbn [outcome_code failure_code createErrorResponse code exn_code
         log db sent].
    split; [reflexivity|]. split; [rewrite <- !app_assoc; reflexivity|].
    split; [exact Hpolls|exact Hprofiles].
Qed.

Lemma createPoll_never_succeeds_witness :
  (session_user example_world (Some "t1") = Some "u1"
   /\ validateCreatePollRequest example_clock example_request = inr tt
   /\ quiet 3 example_world)
  /\ let r := PollService.createPoll example_clock (Some "t1")
                example_request example_world in
     succeeded (fst r) = false
     /\ outcome_code (fst r) = Some "CREATE_ERROR"
     /\ log (snd r)
        = [Insert "polls"; Insert "poll_options"; Delete "polls"]
     /\ polls (db (snd r)) = polls (db example_world).
Proof.
  split; [repeat split|].
  destruct (createPoll_never_succeeds example_clock (Some "t1")
              example_request example_world) as [H1 H2].
  destruct (H2 "u1" eq_refl eq_refl eq_refl eq_refl) as [H3 [H4 [H5 _]]].
  cbv zeta. split; [exact H1|]. split; [exact H3|].
  split; [exact H4|exact H5].
Defined.

(** ** No exception escapes *)

Lemma try_catch_returns {X} (m : M X) (h : exn -> M X) (w : world) :
  (forall e w', exists r, fst (h e w') = inr r) ->
  exists r, fst (try_catch m h w) = inr r.
Proof.
  intros Hh. unfold try_catch. destruct (m w) as [[e|a] w'].
  - apply Hh.
  - exists a. reflexivity.
Qed.

Lemma catch_read_returns {X} (clk : clock) (msg : string) (e : exn)
  (w : world) :
  exists r : ApiResponse X, fst (PollService.catch_read clk msg e w) = inr r.
Proof.
  unfold PollService.catch_read.
  destruct (instanceof_PollOperationError e); eexists; reflexivity.
Qed.

Lemma catch_mutation_returns {X} (clk : clock) (msg : string) (e : exn)
  (w : world) :
  exists r : ApiResponse X,
    fst (PollService.catch_mutation clk msg e w) = inr r.
Proof.
  unfold PollService.catch_mutation.
  destruct (instanceof_AuthenticationError e);
    [|destruct (instanceof_PollOperationError e)]; eexists; reflexivity.
Qed.

Lemma catch_all_returns (m : M HttpResponse) (w : world) :
  exists r, fst (Route.catch_all m w) = inr r.
Proof.
  apply try_catch_returns. intros e w'. eexists; reflexivity.
Qed.

Lemma read_catch_all_returns (m : M ReadResponse) (w : world) :
  exists r, fst (read_catch_all m w) = inr r.
Proof.
  apply try_catch_returns. intros e w'. eexists; reflexivity.
Qed.

(** X9.  Whatever the arguments, the session and the store do, every
    operation of [PollService] resolves to an [ApiResponse] and every
    route handler to a response: a failure of the store, of the
    validation or of the authentication is always turned into an answer,
    never thrown to the caller. *)
Theorem no_exception_escapes
  (rs : numeric -> numeric -> Z) (clk : clock) (credential : option string)
  (c : Credentials) (w : world) :
  ((exists r, fst (PollService.fetchPolls clk w) = inr r)
   /\ (forall id, exists r, fst (PollService.fetchPollById clk id w) = inr r)
   /\ (forall data,
          exists r, fst (PollService.createPoll clk credential data w) = inr r)
   /\ (forall id data,
          exists r,
            fst (PollService.updatePoll clk credential id data w) = inr r)
   /\ (forall id,
          exists r, fst (PollService.deletePoll clk credential id w) = inr r)
   /\ (forall p o,
          exists r, fst (PollService.castVote clk credential p o w) = inr r))
  /\ ((forall b, exists r, fst (PollsRoute.POST clk c b w) = inr r)
      /\ (exists r, fst (PollsRouteGet.GET w) = inr r)
      /\ (forall id, exists r, fst (RouteGet.GET rs c id w) = inr r)
      /\ (forall id b, exists r, fst (Route.PATCH clk c id b w) = inr r)
      /\ (forall id, exists r, fst (Route.DELETE c id w) = inr r)
      /\ (forall p o, exists r, fst (VoteRoute.POST rs clk c p o w) = inr r)
      /\ (forall p, exists r, fst (VoteRouteGet.GET c p w) = inr r)
      /\ (forall p, exists r, fst (VoteRoute.DELETE rs c p w) = inr r)).
Proof.
  split.
  - repeat split; intros;
      first [ apply try_catch_returns; intros;
              first [ apply catch_read_returns | apply catch_mutation_returns ] ].
  - repeat split; intros;
      first [ apply catch_all_returns | apply read_catch_all_returns ].
Qed.

(** ** Failures that write nothing *)

(** X10.  The operations that write with a single statement change the
    tables only when they report it: [deletePoll] of the service and the
    DELETE handler leave the tables as they were unless they answer
    success (status 200); so do the two handlers of the vote route; and
    [castVote] of the service leaves them as they were whenever it answers
    with a failure code other than VOTE_ERROR (which it also gives when the
    vote was stored and the poll could not be read back). *)
Theorem failed_delete_and_vote_leave_tables
  (rs : numeric -> numeric -> Z) (clk : clock) (credential : option string)
  (c : Credentials) (w : world) :
  (forall id,
      succeeded (fst (PollService.deletePoll clk credential id w)) = false ->
      db (snd (PollService.deletePoll clk credential id w)) = db w)
  /\ (forall id,
         http_status (fst (Route.DELETE c id w)) <> Some 200 ->
         db (snd (Route.DELETE c id w)) = db w)
  /\ (forall p o kind,
         outcome_code (fst (PollService.castVote clk credential p o w))
         = Some kind ->
         kind <> "VOTE_ERROR" ->
         db (snd (PollService.castVote clk credential p o w)) = db w)
  /\ (forall p o,
         http_status (fst (VoteRoute.POST rs clk c p o w)) <> Some 200 ->
         db (snd (VoteRoute.POST rs clk c p o w)) = db w)
  /\ (forall p,
         http_status (fst (VoteRoute.DELETE rs c p w)) <> Some 200 ->
         db (snd (VoteRoute.DELETE rs c p w)) = db w).
Proof.
  split; [|split; [|split; [|split]]].
  - intros id.
    change (wp (PollService.deletePoll clk credential id)
              (fun r w' => succeeded r = false -> db w' = db w) w).
    wp_run; cbn [succeeded is_success createSuccessResponse
                 createErrorResponse db sent]; intros; try reflexivity;
      discriminate.
  - intros id.
    change (wp (Route.DELETE c id)
              (fun r w' => http_status r <> Some 200 -> db w' = db w) w).
    wp_seq. apply wp_header_or_cookie_user.
    destruct (fst (Route.header_or_cookie_user c w)) as [e|[uid|]];
      wp_run; cbn [http_status status db sent]; intros; try reflexivity;
      congruence.
  - intros p o kind.
    change (wp (PollService.castVote clk credential p o)
              (fun r w' => outcome_code r = Some kind ->
                           kind <> "VOTE_ERROR" -> db w' = db w) w).
    wp_run; cbn [outcome_code failure_code createSuccessResponse
                 createErrorResponse code exn_code db sent];
      intros; try reflexivity; try discriminate; congruence.
  - intros p o.
    change (wp (VoteRoute.POST rs clk c p o)
              (fun r w' => http_status r <> Some 200 -> db w' = db w) w).
    wp_run; cbn [http_status status db sent]; intros; try reflexivity;
      congruence.
  - intros p.
    change (wp (VoteRoute.DELETE rs c p)
              (fun r w' => http_status r <> Some 200 -> db w' = db w) w).
    unfold VoteRoute.DELETE.
    wp_run; cbn [http_status status db sent]; intros; try reflexivity;
      congruence.
Qed.

Lemma failed_delete_and_vote_leave_tables_witness :
  outcome_code
    (fst (PollService.castVote example_clock (Some "t2") "p1" "blue"
            example_world_voted))
  = Some "ALREADY_VOTED"
  /\ db (snd (PollService.castVote example_clock (Some "t2") "p1" "blue"
                example_world_voted))
     = db example_world_voted.
Proof.
  split; [reflexivity|].
  destruct (failed_delete_and_vote_leave_tables example_scale example_clock
              (Some "t2") (cookie "t2") example_world_voted)
    as [_ [_ [H _]]].
  apply (H "p1" "blue" "ALREADY_VOTED"); [reflexivity|discriminate].
Defined.

(** ** The hard delete of the DELETE handler *)

(** What [DELETE FROM polls WHERE id = ...] leaves, for a poll that is
    there. *)
Lemma delete_polls_rows (d : database) (id : string) :
  has_poll d id = true ->
  let d' := delete_polls d id in
  has_poll d' id = false
  /\ profiles d' = profiles d
  /\ (forall q, In q (polls d') <-> In q (polls d) /\ poll_id q <> id)
  /\ (forall o, In o (poll_options d')
                <-> In o (poll_options d) /\ option_poll_id o <> id)
  /\ (forall v, In v (votes d')
                <-> In v (votes d) /\ vote_poll_id v <> id
                    /\ ~ (exists o, In o (poll_options d)
                                    /\ option_poll_id o = id
                                    /\ option_id o = vote_option_id v)).
Proof.
  intros Hp d'. unfold d', delete_polls. rewrite Hp.
  cbn [profiles polls poll_options votes].
  split; [|split; [reflexivity|split; [|split]]].
  - unfold has_poll. cbn [polls].
    destruct (existsb _ _) eqn:E; [|reflexivity]. exfalso.
    apply existsb_exists in E. destruct E as [q [Hq Eq]].
    apply filter_In in Hq. destruct Hq as [_ Hq].
    rewrite Eq in Hq. discriminate Hq.
  - intros q. rewrite filter_In, negb_true_iff, String.eqb_neq. reflexivity.
  - intros o. rewrite filter_In, negb_true_iff, String.eqb_neq. reflexivity.
  - intros v. rewrite filter_In, andb_true_iff, !negb_true_iff, String.eqb_neq.
    split.
    + intros [Hv [Hne Hex]]. split; [exact Hv|]. split; [exact Hne|].
      intros [o [Ho [Hop Hoid]]].
      assert (existsb (fun o0 => (option_id o0 =? vote_option_id v)%string)
                (filter (fun o0 => (option_poll_id o0 =? id)%string)
                   (poll_options d)) = true) as Ht; [|congruence].
      apply existsb_exists. exists o. split.
      * apply filter_In. split; [exact Ho|]. apply String.eqb_eq. exact Hop.
      * apply String.eqb_eq. exact Hoid.
    + intros [Hv [Hne Hex]]. split; [exact Hv|]. split; [exact Hne|].
      destruct (existsb _ _) eqn:E; [|reflexivity]. exfalso. apply Hex.
      apply existsb_exists in E. destruct E as [o [Ho Eo]].
      apply filter_In in Ho. destruct Ho as [Ho Hop].
      apply String.eqb_eq in Hop. apply String.eqb_eq in Eo. eauto.
Qed.

Lemma route_DELETE_owner (n : nat) (c : Credentials) (u id : string)
  (poll : Poll) (w : world) :
  fst (Route.header_or_cookie_user c w) = inr (Some u) ->
  polls_ok (db w) -> In poll (polls (db w)) -> poll_id poll = id ->
  poll_created_by poll = u -> quiet (2 + n) w ->
  Route.DELETE c id w
  = (inr (mkHttpResponse 200 JSuccess),
     sent (sent w (Select "polls") (db w)) (Delete "polls")
       (delete_polls (db w) id)).
Proof.
  intros Hu Hok Hin Hid Hown Hq.
  pose proof (select_poll_row (db w) id poll Hok Hin Hid) as Hsel.
  apply wp_eq. wp_seq. apply wp_header_or_cookie_user. rewrite Hu. wp_seq.
  wp_read Hq. rewrite Hsel. cbn [single]. wp_seq.
  rewrite Hown, String.eqb_refl. cbn [negb]. wp_seq.
  eapply (wp_request_known n); [exact Hq|reflexivity|]. intros _.
  cbv beta iota. wp_seq. split; reflexivity.
Qed.

(** X11.  When the owner of a poll calls the DELETE handler and the store
    serves the two requests, the answer is 200 and the row of the poll is
    gone for good, together with the options of the poll, the votes on the
    poll and the votes for one of its options; every other poll, option
    and vote, and every profile, is still there. *)
Theorem route_DELETE_owner_removes_poll
  (c : Credentials) (u id : string) (poll : Poll) (w : world) :
  fst (Route.header_or_cookie_user c w) = inr (Some u) ->
  polls_ok (db w) -> In poll (polls (db w)) -> poll_id poll = id ->
  poll_created_by poll = u -> quiet 2 w ->
  let r := Route.DELETE c id w in
  let d' := db (snd r) in
  fst r = inr (mkHttpResponse 200 JSuccess)
  /\ has_poll d' id = false
  /\ profiles d' = profiles (db w)
  /\ (forall q, In q (polls d') <-> In q (polls (db w)) /\ poll_id q <> id)
  /\ (forall o, In o (poll_options d')
                <-> In o (poll_options (db w)) /\ option_poll_id o <> id)
  /\ (forall v, In v (votes d')
                <-> In v (votes (db w)) /\ vote_poll_id v <> id
                    /\ ~ (exists o, In o (poll_options (db w))
                                    /\ option_poll_id o = id
                                    /\ option_id o = vote_option_id v)).
Proof.
  intros Hu Hok Hin Hid Hown Hq r d'. unfold d', r.
  rewrite (route_DELETE_owner 0 c u id poll w Hu Hok Hin Hid Hown Hq).
  cbn [fst snd db sent]. split; [reflexivity|].
  apply delete_polls_rows. rewrite <- Hid. apply has_poll_In. exact Hin.
Qed.

Lemma route_DELETE_owner_removes_poll_witness :
  (fst (Route.header_or_cookie_user (cookie "t1") example_world_voted)
   = inr (Some "u1")
   /\ In example_poll (polls (db example_world_voted))
   /\ quiet 2 example_world_voted)
  /\ let r := Route.DELETE (cookie "t1") "p1" example_world_voted in
     http_status (fst r) = Some 200
     /\ polls (db (snd r)) = []
     /\ poll_options (db (snd r)) = []
     /\ votes (db (snd r)) = [].
Proof.
  split; [repeat split; left; reflexivity|].
  assert (polls_ok (db example_world_voted)) as Hok
    by (unfold polls_ok; nodup_keys).
  destruct (route_DELETE_owner_removes_poll (cookie "t1") "u1" "p1"
              example_poll example_world_voted eq_refl Hok
              (or_introl eq_refl) eq_refl eq_refl eq_refl)
    as [H1 _].
  cbv zeta. split; [rewrite H1; reflexivity|]. repeat split.
Defined.

(** ** Withdrawing and reading back a vote *)

Lemma cookie_user_sessions (c : Credentials) (w w2 : world) :
  sessions w2 = sessions w ->
  fst (Route.cookie_user c w2) = fst (Route.cookie_user c w).
Proof.
  intros E. unfold Route.cookie_user, getUser. cbn [fst]. rewrite E.
  reflexivity.
Qed.

Lemma vote_GET_reads (c : Credentials) (u p : string) (w : world) :
  fst (Route.cookie_user c w) = inr (Some u) -> next_fault w = false ->
  fst (VoteRouteGet.GET c p w)
  = inr (match votes_of (db w) u p with
         | [vote] =>
             mkReadResponse 200
               (RVote true
                  (Some (mkVoteSummary (vote_id vote) (vote_option_id vote)
                           (vote_created_at vote))))
         | _ => mkReadResponse 200 (RVote false None)
         end).
Proof.
  intros Hu Hn. cbn [fst Route.cookie_user] in Hu. inversion Hu as [Hu'].
  change (wp (VoteRouteGet.GET c p)
            (fun r _ =>
               r = inr (match votes_of (db w) u p with
                        | [vote] =>
                            mkReadResponse 200
                              (RVote true
                                 (Some (mkVoteSummary (vote_id vote)
                                          (vote_option_id vote)
                                          (vote_created_at vote))))
                        | _ => mkReadResponse 200 (RVote false None)
                        end)) w).
  unfold VoteRouteGet.GET, read_catch_all, read_json. wp_seq.
  rewrite Hu'. wp_seq. apply wp_query; [congruence|]. intros _.
  rewrite votes_of_hit.
  destruct (votes_of (db w) u p) as [|v [|v2 r]]; cbn [single pg_code];
    cbn; wp_seq; reflexivity.
Qed.

Lemma votes_of_delete_votes (d : database) (p u : string) :
  votes_of (delete_votes d p u) u p = [].
Proof.
  unfold votes_of, delete_votes. cbn [votes set_votes].
  apply filter_none. intros v Hv. apply filter_In in Hv.
  destruct Hv as [_ Hv]. apply negb_true_iff in Hv.
  rewrite andb_comm. exact Hv.
Qed.

(** X12.  The DELETE handler of the vote route, called with the cookie of
    a user while the store serves the delete, answers 200 whether or not
    the user had a vote and whatever state the poll is in.  Afterwards the
    user has no vote on the poll; every other vote row, and every poll and
    option, is as before; and the GET handler of the route then reports
    [hasVoted: false] to that user. *)
Theorem vote_DELETE_removes_own_vote
  (rs : numeric -> numeric -> Z) (c : Credentials) (u p : string)
  (w : world) :
  fst (Route.cookie_user c w) = inr (Some u) -> next_fault w = false ->
  let r := VoteRoute.DELETE rs c p w in
  let d' := db (snd r) in
  http_status (fst r) = Some 200
  /\ votes_of d' u p = []
  /\ (forall v, In v (votes d')
                <-> In v (votes (db w))
                    /\ ~ (vote_user_id v = u /\ vote_poll_id v = p))
  /\ polls d' = polls (db w) /\ poll_options d' = poll_options (db w)
  /\ (forall w2,
         db w2 = d' -> sessions w2 = sessions w -> next_fault w2 = false ->
         fst (VoteRouteGet.GET c p w2)
         = inr (mkReadResponse 200 (RVote false None))).
Proof.
  intros Hu Hn r d'.
  assert (http_status (fst r) = Some 200
          /\ d' = delete_votes (db w) p u) as [Hs Hd].
  { unfold d', r. cbn [fst Route.cookie_user] in Hu. inversion Hu as [Hu'].
    change (wp (VoteRoute.DELETE rs c p)
              (fun r w' => http_status r = Some 200
                           /\ db w' = delete_votes (db w) p u) w).
    unfold VoteRoute.DELETE. wp_seq. rewrite Hu'. wp_seq.
    eapply wp_request_served; [exact Hn|reflexivity|]. cbv beta iota.
    wp_seq. apply wp_query; intros _; wp_seq; split; reflexivity. }
  split; [exact Hs|]. rewrite Hd.
  split; [apply votes_of_delete_votes|].
  split; [|split; [reflexivity|split; [reflexivity|]]].
  - intros v. unfold delete_votes. cbn [votes set_votes].
    rewrite filter_In, negb_true_iff, andb_false_iff, !String.eqb_neq.
    split; intros [Hv H]; (split; [exact Hv|]).
    + intros [H1 H2]. destruct H; auto.
    + destruct (string_dec (vote_poll_id v) p) as [E|E]; [|left; exact E].
      right. intros E'. apply H. auto.
  - intros w2 Hd2 Hs2 Hn2.
    rewrite (vote_GET_reads c u p w2);
      [|rewrite (cookie_user_sessions c w w2 Hs2); exact Hu|exact Hn2].
    rewrite Hd2, votes_of_delete_votes. reflexivity.
Qed.

Lemma vote_DELETE_removes_own_vote_witness :
  (fst (Route.cookie_user (cookie "t2") example_world_voted)
   = inr (Some "u2")
   /\ votes_of (db example_world_voted) "u2" "p1"
      = [mkVote "v1" "p1" "red" "u2" 500])
  /\ let r := VoteRoute.DELETE example_scale (cookie "t2") "p1"
                example_world_voted in
     http_status (fst r) = Some 200
     /\ votes (db (snd r)) = []
     /\ fst (VoteRouteGet.GET (cookie "t2") "p1"
               (mkWorld (db (snd r)) example_sessions [] []))
        = inr (mkReadResponse 200 (RVote false None)).
Proof.
  split; [split; reflexivity|].
  destruct (vote_DELETE_removes_own_vote example_scale (cookie "t2") "u2"
              "p1" example_world_voted eq_refl eq_refl)
    as [H1 [_ [_ [_ [_ H2]]]]].
  cbv zeta. split; [exact H1|]. split; [reflexivity|].
  apply H2; reflexivity.
Defined.

(** The row that [cast_vote] leaves for the user. *)
Lemma cast_vote_row (d d' : database) (p o u : string) (t : Z)
  (r : option string) :
  cast_vote d p o u t = SqlOk (r, d') ->
  exists v, In v (votes d') /\ vote_user_id v = u /\ vote_poll_id v = p
            /\ vote_option_id v = o.
Proof.
  unfold cast_vote. destruct (sql_holds _); [discriminate|].
  destruct (insert_vote d p o u t) as [[id d1]|e] eqn:Ei.
  - intros E. inversion E; subst; clear E. unfold insert_vote in Ei.
    destruct (has_vote d u p); [discriminate|].
    destruct (_ && _); [|discriminate].
    inversion Ei; subst; clear Ei.
    exists (mkVote (uuid_generate_v4 (map vote_id (votes d))) p o u t).
    cbn [votes set_votes]. split; [|auto].
    apply in_or_app. right. left. reflexivity.
  - destruct e; try discriminate.
    assert (has_vote d u p = true) as Hh.
    { unfold insert_vote in Ei. destruct (has_vote d u p); [reflexivity|].
      destruct (_ && _); discriminate. }
    unfold update_vote_option.
    destruct (filter _ (votes d)) as [|v0 vs] eqn:F.
    + exfalso. apply existsb_exists in Hh. destruct Hh as [v [Hv Ev]].
      assert (In v (filter (fun v => (vote_poll_id v =? p)%string
                                     && (vote_user_id v =? u)%string)
                      (votes d))) as Hin
        by (apply filter_In; split; [exact Hv|rewrite andb_comm; exact Ev]).
      rewrite F in Hin. destruct Hin.
    + destruct (has_option d o); [|discriminate].
      intros E. inversion E; subst; clear E. cbn [votes set_votes].
      assert (In v0 (filter (fun v => (vote_poll_id v =? p)%string
                                      && (vote_user_id v =? u)%string)
                       (votes d))) as Hin by (rewrite F; left; reflexivity).
      apply filter_In in Hin. destruct Hin as [Hin Hit].
      exists (mkVote (vote_id v0) (vote_poll_id v0) o (vote_user_id v0)
                (vote_created_at v0)).
      apply andb_true_iff in Hit. destruct Hit as [Hp Hu'].
      apply String.eqb_eq in Hp. apply String.eqb_eq in Hu'.
      cbn. split; [|auto]. apply in_map_iff. exists v0.
      rewrite Hp, Hu', !String.eqb_refl. cbn. split; [|exact Hin].
      rewrite <- Hp, <- Hu'. reflexivity.
Qed.

Lemma votes_of_single (d : database) (u p : string) (v : Vote) :
  votes_ok d -> In v (votes d) -> vote_user_id v = u -> vote_poll_id v = p ->
  votes_of d u p = [v].
Proof.
  intros [_ Hkey] Hin Hu Hp. unfold votes_of.
  apply (filter_key_single vote_key); [exact Hkey|exact Hin| |].
  - rewrite Hu, Hp, !String.eqb_refl. reflexivity.
  - intros y _ Hy. apply andb_true_iff in Hy. destruct Hy as [H1 H2].
    apply String.eqb_eq in H1. apply String.eqb_eq in H2.
    unfold vote_key. congruence.
Qed.

(** X13.  After the POST handler of the vote route has answered 200 to a
    user, the GET handler of the route, called with the same cookie while
    the store serves the lookup, reports [hasVoted: true] and the option
    of that POST. *)
Theorem vote_GET_after_POST
  (rs : numeric -> numeric -> Z) (clk : clock) (c : Credentials)
  (u p o : string) (w : world) :
  fst (Route.cookie_user c w) = inr (Some u) -> votes_ok (db w) ->
  http_status (fst (VoteRoute.POST rs clk c p (Some o) w)) = Some 200 ->
  forall w2,
    db w2 = db (snd (VoteRoute.POST rs clk c p (Some o) w)) ->
    sessions w2 = sessions w -> next_fault w2 = false ->
    exists id t,
      fst (VoteRouteGet.GET c p w2)
      = inr (mkReadResponse 200
               (RVote true (Some (mkVoteSummary id o t)))).
Proof.
  intros Hu Hok Hs w2 Hd2 Hs2 Hn2.
  assert (exists v, votes_of (db w2) u p = [v] /\ vote_option_id v = o)
    as [v [Hv Ho]].
  { rewrite Hd2. revert Hs. cbn [fst Route.cookie_user] in Hu.
    inversion Hu as [Hu'].
    change (wp (VoteRoute.POST rs clk c p (Some o))
              (fun r w' =>
                 http_status r = Some 200 ->
                 exists v, votes_of (db w') u p = [v]
                           /\ vote_option_id v = o) w).
    wp_seq. wp_step; wp_seq; [cbn; discriminate|]. rewrite Hu'. wp_seq.
    wp_run; cbn [http_status status db sent]; try discriminate.
    all: intros _;
      match goal with
      | H : cast_vote _ _ _ _ _ = SqlOk (_, _) |- _ =>
          destruct (cast_vote_row _ _ _ _ _ _ _ H)
            as [v [Hvin [Hvu [Hvp Hvo]]]];
          exists v; split; [|exact Hvo];
          apply votes_of_single; auto;
          exact (cast_vote_ok _ _ _ _ _ _ _ Hok H)
      end. }
  exists (vote_id v), (vote_created_at v).
  rewrite (vote_GET_reads c u p w2);
    [|rewrite (cookie_user_sessions c w w2 Hs2); exact Hu|exact Hn2].
  rewrite Hv, Ho. reflexivity.
Qed.

Lemma vote_GET_after_POST_witness :
  (fst (Route.cookie_user (cookie "t3") example_world_voted)
   = inr (Some "u3")
   /\ http_status
        (fst (VoteRoute.POST example_scale example_clock (cookie "t3") "p1"
                (Some "blue") example_world_voted))
      = Some 200)
  /\ exists id t,
       fst (VoteRouteGet.GET (cookie "t3") "p1"
              (mkWorld
                 (db (snd (VoteRoute.POST example_scale example_clock
                             (cookie "t3") "p1" (Some "blue")
                             example_world_voted)))
                 example_sessions [] []))
       = inr (mkReadResponse 200
                (RVote true (Some (mkVoteSummary id "blue" t)))).
Proof.
  split; [split; reflexivity|].
  assert (votes_ok (db example_world_voted)) as Hok by (split; nodup_keys).
  apply (vote_GET_after_POST example_scale example_clock (cookie "t3") "u3"
           "p1" "blue" example_world_voted eq_refl Hok eq_refl);
    reflexivity.
Defined.

(** ** What the GET handlers list *)

(** What [GET /api/polls] answers when the store serves it. *)
Lemma polls_GET_row (w : world) :
  next_fault w = false ->
  exists l,
    fst (PollsRouteGet.GET w) = inr (mkReadResponse 200 (RPolls l))
    /\ Permutation l (poll_details (db w)).
Proof.
  intros Hn. exists (details_by_created_at_desc (poll_details (db w))).
  split.
  - change (wp PollsRouteGet.GET
              (fun r _ =>
                 r = inr (mkReadResponse 200
                            (RPolls (details_by_created_at_desc
                                       (poll_details (db w)))))) w).
    unfold PollsRouteGet.GET, read_catch_all, read_json. wp_seq.
    apply wp_query; [congruence|]. intros _. wp_seq. reflexivity.
  - rewrite details_by_created_at_desc_by.
    exact (proj1 (fold_insert_by_desc
                    (fun x => poll_created_at (pd_poll x)) _)).
Qed.

(** X14.  When the store serves its request, [GET /api/polls] answers 200
    with one row of [poll_details] per poll, whether the poll is switched
    on or off, ordered from the newest to the oldest. *)
Theorem polls_GET_lists_every_poll (w : world) :
  next_fault w = false ->
  exists l,
    fst (PollsRouteGet.GET w) = inr (mkReadResponse 200 (RPolls l))
    /\ Permutation l (poll_details (db w))
    /\ map pd_poll (poll_details (db w)) = polls (db w)
    /\ StronglySorted (fun a b => newer_or_same (pd_poll a) (pd_poll b)) l.
Proof.
  intros Hn. exists (details_by_created_at_desc (poll_details (db w))).
  split; [|split; [|split]].
  - change (wp PollsRouteGet.GET
              (fun r _ =>
                 r = inr (mkReadResponse 200
                            (RPolls (details_by_created_at_desc
                                       (poll_details (db w)))))) w).
    unfold PollsRouteGet.GET, read_catch_all, read_json. wp_seq.
    apply wp_query; [congruence|]. intros _. wp_seq. reflexivity.
  - rewrite details_by_created_at_desc_by.
    exact (proj1 (fold_insert_by_desc
                    (fun x => poll_created_at (pd_poll x)) _)).
  - unfold poll_details. rewrite map_map. cbn [pd_poll]. apply map_id.
  - rewrite details_by_created_at_desc_by.
    exact (proj2 (fold_insert_by_desc
                    (fun x => poll_created_at (pd_poll x)) _)).
Qed.

Lemma polls_GET_lists_every_poll_witness :
  let d := set_polls example_db
             [example_poll;
              mkPoll "p2" "Older and closed" None false "u1" 5 None 5;
              mkPoll "p3" "Newest" None true "u2" 20 None 20] in
  next_fault (mkWorld d example_sessions [] []) = false
  /\ exists l,
       fst (PollsRouteGet.GET (mkWorld d example_sessions [] []))
       = inr (mkReadResponse 200 (RPolls l))
       /\ map (fun x => poll_id (pd_poll x)) l = ["p3"; "p1"; "p2"].
Proof.
  intros d. split; [reflexivity|].
  destruct (polls_GET_lists_every_poll (mkWorld d example_sessions [] [])
              eq_refl) as [l [H1 _]].
  exists l. split; [exact H1|].
  vm_compute in H1. inversion H1. reflexivity.
Defined.

(** ** A poll that was switched off *)

Lemma poll_details_row (d : database) (id : string) (p : Poll) :
  polls_ok d -> In p (polls d) -> poll_id p = id ->
  exists pd,
    filter (fun pd => (poll_id (pd_poll pd) =? id)%string) (poll_details d)
    = [pd]
    /\ pd_poll pd = p /\ In pd (poll_details d).
Proof.
  intros Hok Hin Hid.
  set (pd := mkPollDetails p (count_poll_votes_distinct d (poll_id p))
               (option_map profile_name
                  (find (fun u => (profile_id u =? poll_created_by p)%string)
                     (profiles d)))).
  assert (In pd (poll_details d)) as Hpd
    by (unfold poll_details; apply in_map_iff; exists p; auto).
  exists pd. split; [|split; [reflexivity|exact Hpd]].
  apply (filter_key_single (fun x => poll_id (pd_poll x))).
  - unfold poll_details. rewrite map_map. cbn [pd_poll]. exact Hok.
  - exact Hpd.
  - cbn [pd pd_poll]. rewrite Hid. apply String.eqb_refl.
  - intros y _ Hy. apply String.eqb_eq in Hy. cbn [pd pd_poll]. congruence.
Qed.

Lemma route_GET_row (rs : numeric -> numeric -> Z) (c : Credentials)
  (id : string) (p : Poll) (w : world) :
  polls_ok (db w) -> In p (polls (db w)) -> poll_id p = id -> quiet 2 w ->
  exists pd options uv,
    fst (RouteGet.GET rs c id w)
    = inr (mkReadResponse 200 (RPoll pd options uv))
    /\ pd_poll pd = p.
Proof.
  intros Hok Hin Hid Hq.
  destruct (poll_details_row (db w) id p Hok Hin Hid) as [pd [Hsel [Hp _]]].
  exists pd,
    (filter (fun o => (pos_poll_id o =? id)%string)
       (poll_options_with_stats rs (db w))).
  cut (wp (RouteGet.GET rs c id)
         (fun r _ =>
            exists uv,
              r = inr (mkReadResponse 200
                         (RPoll pd
                            (filter (fun o => (pos_poll_id o =? id)%string)
                               (poll_options_with_stats rs (db w)))
                            uv))) w).
  { unfold wp. intros [uv E]. exists uv. auto. }
  unfold RouteGet.GET, read_catch_all, read_json. wp_seq.
  wp_read Hq. rewrite Hsel. cbn [single]. wp_seq.
  wp_read Hq. cbn [db sent]. wp_seq.
  apply user_vote_returns. intros uv w' _. wp_seq. exists uv. reflexivity.
Qed.

Lemma polls_ok_map (f : Poll -> Poll) (ps : list Poll) :
  (forall p, poll_id (f p) = poll_id p) ->
  map poll_id (map f ps) = map poll_id ps.
Proof. intros H. rewrite map_map. apply map_ext. exact H. Qed.

(** X15.  A poll that [deletePoll] of the service has switched off is
    still served by the two GET handlers: [GET /api/polls/[id]] answers
    200 with the row, now with [is_active] false, and [GET /api/polls]
    lists it; it is only the reads of the service that leave it out. *)
Theorem soft_deleted_poll_still_served
  (rs : numeric -> numeric -> Z) (clk : clock) (credential : option string)
  (id : string) (w : world) (data : bool) (t : Z) :
  fst (PollService.deletePoll clk credential id w)
  = inr (ApiSuccess data t) ->
  polls_ok (db w) ->
  forall c w2,
    db w2 = db (snd (PollService.deletePoll clk credential id w)) ->
    quiet 2 w2 ->
    (exists pd options uv,
        fst (RouteGet.GET rs c id w2)
        = inr (mkReadResponse 200 (RPoll pd options uv))
        /\ poll_id (pd_poll pd) = id
        /\ poll_is_active (pd_poll pd) = false)
    /\ (exists l pd,
           fst (PollsRouteGet.GET w2) = inr (mkReadResponse 200 (RPolls l))
           /\ In pd l
           /\ poll_id (pd_poll pd) = id
           /\ poll_is_active (pd_poll pd) = false).
Proof.
  intros Hs Hok c w2 Hd2 Hq.
  pose proof (deletePoll_success clk credential id w) as H.
  unfold wp in H. destruct (H data t Hs) as [[p [Hp [Hid Ha]]] Hd].
  rewrite Hd in Hd2.
  assert (polls_ok (db w2)) as Hok2.
  { unfold polls_ok. rewrite Hd2. cbn [polls set_polls].
    rewrite polls_ok_map; [exact Hok|].
    intros q. destruct (poll_id q =? id)%string; reflexivity. }
  assert (In (switch_off (now clk) p) (polls (db w2))) as Hin2.
  { rewrite Hd2. cbn [polls set_polls]. apply in_map_iff. exists p.
    rewrite <- Hid, String.eqb_refl. auto. }
  split.
  - destruct (route_GET_row rs c id (switch_off (now clk) p) w2 Hok2 Hin2
                Hid Hq) as [pd [options [uv [E Ep]]]].
    exists pd, options, uv. rewrite Ep. auto.
  - assert (next_fault w2 = false) as Hn
      by exact (proj1 (quiet_step 1 w2 (Select "polls") (db w2) Hq)).
    destruct (polls_GET_row w2 Hn) as [l [E Hperm]].
    destruct (poll_details_row (db w2) id (switch_off (now clk) p) Hok2 Hin2
                Hid) as [pd [_ [Ep Hpd]]].
    exists l, pd. split; [exact E|]. rewrite Ep.
    split; [|auto]. apply (Permutation_in pd (Permutation_sym Hperm)).
    exact Hpd.
Qed.

Lemma soft_deleted_poll_still_served_witness :
  fst (PollService.deletePoll example_clock (Some "t1") "p1" example_world)
  = inr (ApiSuccess true 1000%Z)
  /\ exists pd options uv,
       fst (RouteGet.GET example_scale (cookie "t2") "p1"
              (mkWorld
                 (db (snd (PollService.deletePoll example_clock (Some "t1")
                             "p1" example_world)))
                 example_sessions [] []))
       = inr (mkReadResponse 200 (RPoll pd options uv))
       /\ poll_id (pd_poll pd) = "p1"
       /\ poll_is_active (pd_poll pd) = false.
Proof.
  assert (fst (PollService.deletePoll example_clock (Some "t1") "p1"
                 example_world)
          = inr (ApiSuccess true 1000%Z)) as Hs by reflexivity.
  split; [exact Hs|].
  assert (polls_ok (db example_world)) as Hok by (unfold polls_ok; nodup_keys).
  exact (proj1 (soft_deleted_poll_still_served example_scale example_clock
                  (Some "t1") "p1" example_world true 1000%Z Hs Hok
                  (cookie "t2")
                  (mkWorld
                     (db (snd (PollService.deletePoll example_clock
                                 (Some "t1") "p1" example_world)))
                     example_sessions [] [])
                  eq_refl eq_refl)).
Defined.

(** ** Switching a poll back on *)

Lemma update_polls_row (d : database) (id : string) (f : Poll -> Poll)
  (t : Z) (poll : Poll) :
  polls_ok d -> In poll (polls d) -> poll_id poll = id ->
  update_polls d id f t
  = ([touch_poll t (f poll)], set_polls d (updated_rows id f t (polls d))).
Proof.
  intros Hok Hin Hid. unfold update_polls, updated_rows.
  rewrite (select_poll_row d id poll Hok Hin Hid). cbn [map].
  rewrite Hid, String.eqb_refl. reflexivity.
Qed.

Lemma route_PATCH_owner (clk : clock) (c : Credentials) (u id : string)
  (poll : Poll) (b : PatchBody) (w : world) :
  fst (Route.cookie_user c w) = inr (Some u) ->
  polls_ok (db w) -> In poll (polls (db w)) -> poll_id poll = id ->
  poll_created_by poll = u -> body_options b = None -> quiet 2 w ->
  Route.PATCH clk c id b w
  = (inr (mkHttpResponse 200
            (JPoll (touch_poll (now clk) (Route.apply_patch b poll)))),
     sent (sent w (Select "polls") (db w)) (Update "polls")
       (set_polls (db w)
          (updated_rows id (Route.apply_patch b) (now clk)
             (polls (db w))))).
Proof.
  intros Hu Hok Hin Hid Hown Hopt Hq.
  cbn [fst Route.cookie_user] in Hu. inversion Hu as [Hu'].
  pose proof (select_poll_row (db w) id poll Hok Hin Hid) as Hsel.
  apply wp_eq. wp_seq. rewrite Hu'. wp_seq.
  wp_read Hq. rewrite Hsel. cbn [single]. wp_seq.
  rewrite Hown, String.eqb_refl. cbn [negb]. wp_seq.
  eapply (wp_request_known 0);
    [exact Hq
    |rewrite (update_polls_row _ _ _ _ _ Hok Hin Hid); reflexivity|].
  intros _. cbv beta iota. rewrite Hopt. wp_seq. cbn [single]. wp_seq.
  split; reflexivity.
Qed.

(** X16.  A PATCH by the owner with [isActive: true] and no [options],
    while the store serves the two requests, answers 200 with the updated
    row and changes that row only: the columns named in the body, and
    [updated_at].  The poll is switched on by it, also when [deletePoll]
    had switched it off: [fetchPollById] finds it again. *)
Theorem PATCH_switches_poll_back_on
  (clk : clock) (c : Credentials) (u id : string) (poll : Poll)
  (b : PatchBody) (w : world) :
  fst (Route.cookie_user c w) = inr (Some u) ->
  polls_ok (db w) -> In poll (polls (db w)) -> poll_id poll = id ->
  poll_created_by poll = u ->
  body_options b = None -> body_isActive b = Some true -> quiet 2 w ->
  let r := Route.PATCH clk c id b w in
  let d' := db (snd r) in
  let row := touch_poll (now clk) (Route.apply_patch b poll) in
  fst r = inr (mkHttpResponse 200 (JPoll row))
  /\ polls d' = updated_rows id (Route.apply_patch b) (now clk) (polls (db w))
  /\ poll_options d' = poll_options (db w)
  /\ votes d' = votes (db w)
  /\ profiles d' = profiles (db w)
  /\ poll_is_active row = true
  /\ (forall clk' w2,
         db w2 = d' -> quiet 1 w2 ->
         fst (PollService.fetchPollById clk' id w2)
         = inr (ApiSuccess (embed true d' row) (now clk'))).
Proof.
  intros Hu Hok Hin Hid Hown Hopt Hact Hq r d' row. unfold d', r.
  rewrite (route_PATCH_owner clk c u id poll b w Hu Hok Hin Hid Hown Hopt Hq).
  cbn [fst snd db sent]. do 5 (split; [reflexivity|]).
  assert (poll_is_active row = true) as Ha
    by (cbn [row touch_poll Route.apply_patch poll_is_active];
        rewrite Hact; reflexivity).
  split; [exact Ha|].
  intros clk' w2 Hd2 Hq2.
  assert (polls_ok (db w2)) as Hok2.
  { unfold polls_ok. rewrite Hd2. cbn [polls set_polls]. unfold updated_rows.
    rewrite polls_ok_map; [exact Hok|].
    intros q. destruct (poll_id q =? id)%string; reflexivity. }
  assert (In row (polls (db w2))) as Hin2.
  { rewrite Hd2. cbn [polls set_polls]. unfold updated_rows.
    apply in_map_iff. exists poll. rewrite Hid, String.eqb_refl. auto. }
  destruct (fetchPollById_active 0 clk' id row w2 Hok2 Hin2 Hid Ha Hq2)
    as [E _].
  rewrite E, Hd2. reflexivity.
Qed.

Lemma PATCH_switches_poll_back_on_witness :
  (fst (Route.cookie_user (cookie "t1") example_world_closed)
   = inr (Some "u1")
   /\ map poll_is_active (polls (db example_world_closed)) = [false]
   /\ outcome_code
        (fst (PollService.fetchPollById example_clock "p1"
                example_world_closed))
      = Some "POLL_NOT_FOUND")
  /\ let r := Route.PATCH example_clock (cookie "t1") "p1"
                (mkPatchBody (Some true) None None None None)
                example_world_closed in
     http_status (fst r) = Some 200
     /\ succeeded
          (fst (PollService.fetchPollById example_clock "p1"
                  (mkWorld (db (snd r)) example_sessions [] [])))
        = true.
Proof.
  split; [repeat split|].
  assert (polls_ok (db example_world_closed)) as Hok
    by (unfold polls_ok; nodup_keys).
  destruct (PATCH_switches_poll_back_on example_clock (cookie "t1") "u1" "p1"
              (mkPoll "p1" "Favorite color?" None false "u1" 10 None 10)
              (mkPatchBody (Some true) None None None None)
              example_world_closed eq_refl Hok (or_introl eq_refl) eq_refl
              eq_refl eq_refl eq_refl eq_refl)
    as [H1 [_ [_ [_ [_ [_ H2]]]]]].
  cbv zeta. split; [rewrite H1; reflexivity|].
  rewrite (H2 example_clock
             (mkWorld
                (db (snd (Route.PATCH example_clock (cookie "t1") "p1"
                            (mkPatchBody (Some true) None None None None)
                            example_world_closed)))
                example_sessions [] [])
             eq_refl eq_refl).
  reflexivity.
Defined.

(** ** What a PATCH can reach *)

Section PatchInvariant.

Variables (clk : clock) (id : string) (b : PatchBody).

(** A relation between the tables before and after, kept by each of the
    four statements that the handler sends for poll [id]. *)
Variable R : database -> database -> Prop.

Hypothesis R_refl : forall d, R d d.
Hypothesis R_trans : forall d1 d2 d3, R d1 d2 -> R d2 d3 -> R d1 d3.
Hypothesis R_update :
  forall d, R d (snd (update_polls d id (Route.apply_patch b) (now clk))).
Hypothesis R_insert :
  forall d text rs d',
    insert_poll_options d [(id, text)] (now clk) = SqlOk (rs, d') -> R d d'.
Hypothesis R_rename :
  forall d oid text, R d (update_poll_option_text d oid id text (now clk)).
Hypothesis R_delete :
  forall d oid,
    count_option_votes d oid = 0 -> R d (delete_poll_option d oid id).

Lemma for_each_related {X} (f : X -> M unit) (l : list X) :
  (forall x w, wp (f x) (fun _ w' => R (db w) (db w')) w) ->
  forall w, wp (Route.for_each f l) (fun _ w' => R (db w) (db w')) w.
Proof.
  intros Hf. induction l as [|x r IH]; intros w; cbn [Route.for_each].
  - apply wp_ret. apply R_refl.
  - apply wp_bind. eapply wp_weaken; [|apply Hf].
    intros [e|[]] w1 H1; cbv beta iota; [exact H1|].
    eapply wp_weaken; [|apply IH].
    intros r2 w2 H2. cbv beta. eapply R_trans; eauto.
Qed.

Lemma save_option_related (o : PatchOption) (w : world) :
  wp (Route.save_option clk id o) (fun _ w' => R (db w) (db w')) w.
Proof.
  unfold Route.save_option.
  destruct (po_id o) as [oid|]; [|apply wp_ret; apply R_refl].
  destruct (Js.truthy oid && Js.startsWith "new-" oid).
  - wp_seq. apply wp_request; intros; cbv beta iota; wp_seq;
      cbn [db sent]; try apply R_refl.
    eapply R_insert. eassumption.
  - destruct (Js.truthy oid); [|apply wp_ret; apply R_refl].
    wp_seq. apply wp_request; intros; cbv beta iota; wp_seq;
      cbn [db sent]; try apply R_refl.
    match goal with H : SqlOk _ = SqlOk _ |- _ => inversion H; subst end.
    apply R_rename.
Qed.

Lemma delete_if_unvoted_related (oid : string) (w : world) :
  wp (Route.delete_if_unvoted id oid) (fun _ w' => R (db w) (db w')) w.
Proof.
  unfold Route.delete_if_unvoted. wp_seq.
  apply wp_query; intros Hn; cbv beta iota.
  - wp_seq. apply R_refl.
  - destruct (count_option_votes (db w) oid) eqn:Hc;
      [|wp_seq; apply R_refl].
    wp_seq. apply wp_request; intros; cbv beta iota; wp_seq;
      cbn [db sent] in *; try apply R_refl.
    match goal with H : SqlOk _ = SqlOk _ |- _ => inversion H; subst end.
    apply R_delete. exact Hc.
Qed.

Lemma update_options_related (options : list PatchOption) (w : world) :
  wp (Route.update_options clk id options)
    (fun _ w' => R (db w) (db w')) w.
Proof.
  unfold Route.update_options. apply wp_bind.
  eapply wp_weaken;
    [|apply for_each_related; intros; apply save_option_related].
  intros [e|[]] w1 H1; cbv beta iota; [exact H1|].
  apply wp_bind. apply wp_query; intros Hn; cbv beta iota.
  - apply wp_ret. exact H1.
  - destruct (Route.updatedOptionIds options) as [e|kept];
      wp_seq; [exact H1|].
    eapply wp_weaken;
      [|apply for_each_related; intros; apply delete_if_unvoted_related].
    intros r2 w2 H2. cbv beta. cbn [db sent] in H2.
    eapply R_trans; eauto.
Qed.

Lemma route_PATCH_related (c : Credentials) (w : world) :
  R (db w) (db (snd (Route.PATCH clk c id b w))).
Proof.
  change (wp (Route.PATCH clk c id b) (fun _ w' => R (db w) (db w')) w).
  wp_seq. wp_step; wp_seq; [|apply R_refl].
  apply wp_query; intros Hn; cbv beta iota.
  - wp_seq. cbn [single]. wp_run; apply R_refl.
  - wp_seq.
    destruct (single _) as [poll|e]; [|wp_run; apply R_refl].
    destruct (negb _); wp_seq; [apply R_refl|].
    apply wp_request; intros; cbv beta iota.
    + apply wp_bind.
      assert (forall w1 : world,
                 db w1 = db w ->
                 wp (match body_options b with
                     | Some options => Route.update_options clk id options
                     | None => ret tt
                     end)
                   (fun _ w' => R (db w) (db w')) w1) as Hopt.
      { intros w1 E. rewrite <- E.
        destruct (body_options b);
          [apply update_options_related|apply wp_ret; apply R_refl]. }
      eapply wp_weaken; [|apply Hopt; reflexivity].
      intros [e|[]] w2 H2; cbv beta iota; wp_run; exact H2.
    + apply wp_bind.
      match goal with H : SqlOk _ = SqlOk _ |- _ => inversion H; subst end.
      pose proof (R_update (db w)) as H1.
      eapply wp_weaken;
        [|destruct (body_options b);
          [apply update_options_related|apply wp_ret; apply R_refl]].
      intros [e|[]] w2 H2; cbv beta iota; cbn [db sent] in H2;
        wp_run; (eapply R_trans; [exact H1|exact H2]).
    + match goal with H : SqlOk _ = SqlError _ |- _ => discriminate H end.
Qed.

End PatchInvariant.

Lemma outside_untouched_refl (id : string) (d : database) :
  outside_untouched id d d.
Proof. repeat split; auto. Qed.

Lemma outside_untouched_trans (id : string) (d1 d2 d3 : database) :
  outside_untouched id d1 d2 -> outside_untouched id d2 d3 ->
  outside_untouched id d1 d3.
Proof.
  intros [P1 [V1 [Q1 O1]]] [P2 [V2 [Q2 O2]]].
  split; [congruence|]. split; [congruence|]. split.
  - intros q Hq. rewrite (Q2 q Hq). apply Q1. exact Hq.
  - intros o Ho. rewrite (O2 o Ho). apply O1. exact Ho.
Qed.

(** A change of the rows selected by [sel] that keeps each row selected
    leaves the rows not selected as they are. *)
Lemma In_map_outside {X} (sel : X -> bool) (f : X -> X) (l : list X)
  (x : X) :
  (forall y, sel y = true -> sel (f y) = true) -> sel x = false ->
  (In x (map (fun y => if sel y then f y else y) l) <-> In x l).
Proof.
  intros Hsel Hx. rewrite in_map_iff. split.
  - intros [y [E Hy]]. destruct (sel y) eqn:Sy; [|subst; exact Hy].
    subst x. rewrite (Hsel y Sy) in Hx. discriminate Hx.
  - intros H. exists x. rewrite Hx. auto.
Qed.

Lemma insert_poll_options_rows (rows : list (string * string)) (t : Z) :
  forall d rs d',
    insert_poll_options d rows t = SqlOk (rs, d') ->
    profiles d' = profiles d /\ polls d' = polls d /\ votes d' = votes d
    /\ poll_options d' = poll_options d ++ rs
    /\ map (fun o => (option_poll_id o, option_text o)) rs = rows.
Proof.
  induction rows as [|[pid text] rest IH]; intros d rs d' E;
    cbn [insert_poll_options] in E.
  - inversion E; subst. rewrite app_nil_r. auto.
  - destruct (has_poll d pid); [|discriminate].
    destruct (insert_poll_options _ rest t) as [[rs' d1]|e] eqn:E1;
      [|discriminate].
    inversion E; subst; clear E.
    destruct (IH _ _ _ E1) as [H1 [H2 [H3 [H4 H5]]]].
    cbn [profiles polls votes poll_options set_poll_options] in *.
    rewrite H4, <- app_assoc. cbn [map option_poll_id option_text].
    rewrite H5. auto.
Qed.

(** X17.  Whatever the body of a PATCH for poll [id] names, whoever sends
    it and whatever the store refuses, nothing outside that poll changes:
    the other polls and the options of the other polls are the same rows
    as before, and so are all votes and profiles. *)
Theorem route_PATCH_stays_inside_poll
  (clk : clock) (c : Credentials) (id : string) (b : PatchBody) (w : world) :
  outside_untouched id (db w) (db (snd (Route.PATCH clk c id b w))).
Proof.
  apply route_PATCH_related.
  - apply outside_untouched_refl.
  - apply outside_untouched_trans.
  - intros d. unfold update_polls. cbn [snd].
    split; [reflexivity|]. split; [reflexivity|]. split; [|tauto].
    intros q Hq. cbn [polls set_polls].
    apply (In_map_outside (fun p => (poll_id p =? id)%string)
             (fun p => touch_poll (now clk) (Route.apply_patch b p))).
    + intros y Hy. exact Hy.
    + apply String.eqb_neq. exact Hq.
  - intros d text rs d' E.
    destruct (insert_poll_options_rows _ _ _ _ _ E) as [H1 [H2 [H3 [H4 H5]]]].
    split; [exact H1|]. split; [exact H3|]. split; [rewrite H2; tauto|].
    intros o Ho. rewrite H4, in_app_iff. split; [|auto].
    intros [H|H]; [exact H|]. exfalso.
    assert (In (option_poll_id o, option_text o) [(id, text)]) as Hin
      by (rewrite <- H5; apply in_map_iff; exists o; auto).
    destruct Hin as [Hin|[]]. inversion Hin. congruence.
  - intros d oid text. unfold update_poll_option_text.
    split; [reflexivity|]. split; [reflexivity|]. split; [tauto|].
    intros o Ho. cbn [poll_options set_poll_options].
    apply (In_map_outside
             (fun x => (option_id x =? oid)%string
                       && (option_poll_id x =? id)%string)
             (fun x => mkPollOption (option_id x) (option_poll_id x) text
                         (option_created_at x) (now clk))).
    + intros y Hy. exact Hy.
    + apply andb_false_iff. right. apply String.eqb_neq. exact Ho.
  - intros d oid Hc.
    destruct (delete_poll_option_votes_kept d oid id Hc) as [Hv _].
    split; [reflexivity|]. split; [exact Hv|]. split; [tauto|].
    intros o Ho. unfold delete_poll_option, delete_options_where.
    cbn [poll_options]. rewrite filter_In. split; [tauto|].
    intros H. split; [exact H|]. apply negb_true_iff.
    apply andb_false_iff. right. apply String.eqb_neq. exact Ho.
Qed.

(** ** An option without id *)

Lemma save_option_served (clk : clock) (id : string) (o : PatchOption)
  (n : nat) (w : world) :
  quiet (S n) w ->
  wp (Route.save_option clk id o)
    (fun r w' => r = inr tt /\ polls (db w') = polls (db w) /\ quiet n w') w.
Proof.
  intros Hq. unfold Route.save_option.
  assert (wp (ret tt)
            (fun r w' => r = inr tt /\ polls (db w') = polls (db w)
                         /\ quiet n w') w) as Hret
    by (apply wp_ret; repeat split; apply quiet_S; exact Hq).
  destruct (po_id o) as [oid|]; [|exact Hret].
  destruct (Js.truthy oid && Js.startsWith "new-" oid).
  - wp_seq. apply (wp_request_quiet n); [exact Hq| |];
      intros; cbv beta iota; wp_seq; cbn [db sent]; repeat split; auto.
    match goal with
    | H : insert_poll_options _ _ _ = SqlOk _ |- _ =>
        exact (proj1 (proj2 (insert_poll_options_rows _ _ _ _ _ H)))
    end.
  - destruct (Js.truthy oid); [|exact Hret].
    wp_seq. apply (wp_request_quiet n); [exact Hq| |];
      intros; cbv beta iota; wp_seq; cbn [db sent]; repeat split; auto.
    match goal with H : SqlOk _ = SqlOk _ |- _ => inversion H; subst end.
    reflexivity.
Qed.

Lemma save_options_served (clk : clock) (id : string)
  (l : list PatchOption) : forall n w,
  quiet (n + List.length l) w ->
  wp (Route.for_each (Route.save_option clk id) l)
    (fun r w' => r = inr tt /\ polls (db w') = polls (db w) /\ quiet n w') w.
Proof.
  induction l as [|x r IH]; intros n w Hq; cbn [Route.for_each List.length] in *.
  - apply wp_ret. rewrite Nat.add_0_r in Hq. auto.
  - apply wp_bind. rewrite Nat.add_succ_r in Hq.
    eapply wp_weaken; [|apply (save_option_served clk id x _ w Hq)].
    intros r1 w1 [-> [Hp Hq1]]. cbv beta iota.
    eapply wp_weaken; [|apply (IH n w1 Hq1)].
    intros r2 w2 [-> [Hp2 Hq2]]. cbv beta. repeat split; [congruence|exact Hq2].
Qed.

Lemma updatedOptionIds_without_id (options : list PatchOption) :
  (exists o, In o options /\ po_id o = None) ->
  Route.updatedOptionIds options
  = inl (TypeError "Cannot read properties of undefined").
Proof.
  intros [o [Hin Hid]]. unfold Route.updatedOptionIds.
  destruct (forallb _ options) eqn:F; [|reflexivity].
  rewrite forallb_forall in F. specialize (F o Hin). rewrite Hid in F.
  discriminate F.
Qed.

(** X18.  When the body of the owner's PATCH lists an option without an
    [id] and the store serves every request, the handler first updates the
    poll row and saves the options that carry an id, then fails on the
    option without one when it works out which options left the request:
    the answer is 500 "An unexpected error occurred", and the update of
    the poll row stays. *)
Theorem PATCH_option_without_id
  (clk : clock) (c : Credentials) (u id : string) (poll : Poll)
  (b : PatchBody) (options : list PatchOption) (w : world) :
  fst (Route.cookie_user c w) = inr (Some u) ->
  polls_ok (db w) -> In poll (polls (db w)) -> poll_id poll = id ->
  poll_created_by poll = u ->
  body_options b = Some options ->
  (exists o, In o options /\ po_id o = None) ->
  quiet (3 + List.length options) w ->
  let r := Route.PATCH clk c id b w in
  fst r = inr (mkHttpResponse 500 (JError "An unexpected error occurred"))
  /\ polls (db (snd r))
     = updated_rows id (Route.apply_patch b) (now clk) (polls (db w)).
Proof.
  intros Hu Hok Hin Hid Hown Hopt Hno Hq r. unfold r.
  cbn [fst Route.cookie_user] in Hu. inversion Hu as [Hu'].
  pose proof (select_poll_row (db w) id poll Hok Hin Hid) as Hsel.
  change (wp (Route.PATCH clk c id b)
            (fun r w' =>
               r = inr (mkHttpResponse 500
                          (JError "An unexpected error occurred"))
               /\ polls (db w')
                  = updated_rows id (Route.apply_patch b) (now clk)
                      (polls (db w))) w).
  wp_seq. rewrite Hu'. wp_seq.
  wp_read Hq. rewrite Hsel. cbn [single]. wp_seq.
  rewrite Hown, String.eqb_refl. cbn [negb]. wp_seq.
  eapply (wp_request_known (1 + List.length options));
    [exact Hq
    |rewrite (update_polls_row _ _ _ _ _ Hok Hin Hid); reflexivity|].
  clear Hq; intros Hq. cbv beta iota. rewrite Hopt.
  apply wp_bind. unfold Route.update_options. apply wp_bind.
  eapply wp_weaken; [|apply (save_options_served clk id options 1 _ Hq)].
  intros r1 w1 [-> [Hp Hq1]]. cbv beta iota.
  apply wp_bind. wp_read Hq1.
  rewrite (updatedOptionIds_without_id options Hno). wp_seq.
  cbn [db sent] in *. split; [reflexivity|]. rewrite Hp. reflexivity.
Qed.

Lemma PATCH_option_without_id_witness :
  (fst (Route.cookie_user (cookie "t1") example_world) = inr (Some "u1")
   /\ quiet 5 example_world)
  /\ let r := Route.PATCH example_clock (cookie "t1") "p1"
                (mkPatchBody None (Some "Favourite colour?") None None
                   (Some [mkPatchOption (Some "red") "Crimson";
                          mkPatchOption None "Green"]))
                example_world in
     http_status (fst r) = Some 500
     /\ map poll_title (polls (db (snd r))) = ["Favourite colour?"]
     /\ map option_text (poll_options (db (snd r))) = ["Crimson"; "Blue"].
Proof.
  split; [split; reflexivity|].
  assert (polls_ok (db example_world)) as Hok by (unfold polls_ok; nodup_keys).
  destruct (PATCH_option_without_id example_clock (cookie "t1") "u1" "p1"
              example_poll
              (mkPatchBody None (Some "Favourite colour?") None None
                 (Some [mkPatchOption (Some "red") "Crimson";
                        mkPatchOption None "Green"]))
              [mkPatchOption (Some "red") "Crimson";
               mkPatchOption None "Green"]
              example_world eq_refl Hok (or_introl eq_refl) eq_refl eq_refl
              eq_refl)
    as [H1 H2].
  - exists (mkPatchOption None "Green"). split; [right; left|]; reflexivity.
  - reflexivity.
  - cbv zeta. split; [rewrite H1; reflexivity|].
    split; [rewrite H2; reflexivity|reflexivity].
Defined.

(** ** Reads write nothing *)

(** X19.  The two reads of the service and the three GET handlers leave
    every table as it was, whatever they are asked and whatever the store
    refuses. *)
Theorem reads_leave_tables
  (rs : numeric -> numeric -> Z) (clk : clock) (c : Credentials)
  (id : string) (w : world) :
  db (snd (PollService.fetchPolls clk w)) = db w
  /\ db (snd (PollService.fetchPollById clk id w)) = db w
  /\ db (snd (PollsRouteGet.GET w)) = db w
  /\ db (snd (RouteGet.GET rs c id w)) = db w
  /\ db (snd (VoteRouteGet.GET c id w)) = db w.
Proof.
  split; [|split; [|split; [|split]]].
  - change (wp (PollService.fetchPolls clk) (fun _ w' => db w' = db w) w).
    wp_run; reflexivity.
  - change (wp (PollService.fetchPollById clk id)
              (fun _ w' => db w' = db w) w).
    wp_run; reflexivity.
  - change (wp PollsRouteGet.GET (fun _ w' => db w' = db w) w).
    unfold PollsRouteGet.GET, read_catch_all, read_json. wp_run; reflexivity.
  - change (wp (RouteGet.GET rs c id) (fun _ w' => db w' = db w) w).
    unfold RouteGet.GET, read_catch_all, read_json.
    wp_seq. apply wp_query; intros Hn; cbv beta iota.
    + cbn [single pg_code unavailable]. wp_run; reflexivity.
    + destruct (single _) as [pd|e]; [|wp_run; reflexivity].
      wp_seq. apply wp_query; intros Hn'; cbv beta iota; wp_seq;
        try reflexivity.
      apply user_vote_returns. intros uv w' E. wp_seq. exact E.
  - change (wp (VoteRouteGet.GET c id) (fun _ w' => db w' = db w) w).
    unfold VoteRouteGet.GET, read_catch_all, read_json. wp_run; reflexivity.
Qed.

(** ** The bearer header *)

Lemma substring_all (s : string) :
  String.substring 0 (String.length s) s = s.
Proof. induction s as [|c r IH]; cbn; [reflexivity|]. rewrite IH. reflexivity. Qed.

(** The header that the client builds is the one the handlers take
    apart. *)
Lemma bearer_round_trip (token : string) :
  Js.truthy ("Bearer " ++ token) = true
  /\ Js.startsWith "Bearer " ("Bearer " ++ token) = true
  /\ Route.bearer_token ("Bearer " ++ token) = token.
Proof.
  split; [reflexivity|]. split; [reflexivity|].
  unfold Route.bearer_token. cbn. rewrite Nat.sub_0_r. apply substring_all.
Qed.

(** X20.  [getAuthHeaders] either returns the two headers, with
    [Authorization] set to "Bearer " followed by the non-empty access
    token of the session, in the form that the route handlers accept and
    decode to that token; or it throws an [AuthError] whose code is
    AUTH_HEADER_ERROR.  The code NO_SESSION of the error thrown for a
    missing session never reaches the caller: the function's own [catch]
    replaces it and keeps the message only. *)
Theorem getAuthHeaders_outcomes (session : exn + option string) (w : world) :
  match fst (getAuthHeaders session w) with
  | inr headers =>
      exists token,
        session = inr (Some token) /\ Js.truthy token = true
        /\ headers = [("Authorization", ("Bearer " ++ token)%string);
                      ("Content-Type", "application/json")]
        /\ Js.startsWith "Bearer " ("Bearer " ++ token) = true
        /\ Route.bearer_token ("Bearer " ++ token) = token
  | inl e =>
      e = AuthError
            (match session with
             | inl thrown => exn_message thrown
             | inr _ => "No valid session found"
             end)
            (Some "AUTH_HEADER_ERROR")
      /\ (forall token, session = inr (Some token) -> Js.truthy token = false)
  end.
Proof.
  unfold getAuthHeaders, try_catch, bind, lift, ret, throw.
  destruct session as [thrown|[token|]]; cbn [fst].
  - split; [reflexivity|]. intros token E. discriminate E.
  - destruct (Js.truthy token) eqn:T; cbn [fst].
    + exists token. destruct (bearer_round_trip token) as [_ [H1 H2]]. auto.
    + split; [reflexivity|]. intros t E. inversion E; subst. exact T.
  - split; [reflexivity|]. intros token E. discriminate E.
Qed.

(** ** The browser client and the session that the handlers read *)

(** X21.  [castVote] and [updatePoll] of the browser client send the token
    of [localStorage] as a bearer header, but the handlers they call read
    the session from the cookie only.  In a browser without the cookie
    [sb-access-token] both calls are rejected with "Authentication
    required" whatever the token is, and no request reaches the store. *)
Theorem client_vote_and_update_need_cookie
  (rs : numeric -> numeric -> Z) (clk : clock) (b : Browser) (w : world) :
  sb_access_token b = None ->
  (forall pollId optionId,
      Js.truthy optionId = true ->
      PollActions.castVote rs clk b pollId optionId w
      = (inr (Rejected "Authentication required"), w))
  /\ (forall id pollData,
         PollActions.updatePoll clk b id pollData w
         = (inr (Rejected "Authentication required"), w)).
Proof.
  intros Hc. split.
  - intros pollId optionId Ho.
    unfold PollActions.castVote, PollActions.with_token.
    destruct (auth_token b) as [token|]; [|reflexivity].
    destruct (Js.truthy token); [|reflexivity].
    apply wp_eq. apply wp_bind. wp_seq. rewrite Ho. cbn [negb]. wp_seq.
    cbn [access_token]. rewrite Hc. wp_seq. split; reflexivity.
  - intros id pollData.
    unfold PollActions.updatePoll, PollActions.with_token.
    destruct (auth_token b) as [token|]; [|reflexivity].
    destruct (Js.truthy token); [|reflexivity].
    apply wp_eq. apply wp_bind. wp_seq.
    cbn [access_token]. rewrite Hc. wp_seq. split; reflexivity.
Qed.

Lemma client_vote_and_update_need_cookie_witness :
  getUser example_world "t2" = Some "u2"
  /\ PollActions.castVote example_scale example_clock
       (mkBrowser (Some "t2") None) "p1" "red" example_world
     = (inr (Rejected "Authentication required"), example_world).
Proof.
  split; [reflexivity|].
  exact (proj1 (client_vote_and_update_need_cookie example_scale
                  example_clock (mkBrowser (Some "t2") None) example_world
                  eq_refl)
           "p1" "red" eq_refl).
Defined.

Lemma header_user (token u : string) (ck : option string) (w : world) :
  getUser w token = Some u ->
  fst (Route.header_or_cookie_user
         (mkCredentials (Some ("Bearer " ++ token)%string) ck) w)
  = inr (Some u).
Proof.
  intros Hu. unfold Route.header_or_cookie_user. cbn [authorization].
  destruct (bearer_round_trip token) as [H1 [H2 H3]].
  rewrite H1, H2, H3, Hu. reflexivity.
Qed.

(** X22.  [deletePoll] of the browser client is authenticated by the
    bearer token alone: when the token of [localStorage] belongs to the
    owner of the poll and the store serves the two requests, the call
    resolves to the success body and the poll row is deleted for good,
    whatever the cookie holds. *)
Theorem client_deletePoll_by_bearer
  (b : Browser) (token u id : string) (poll : Poll) (w : world) :
  auth_token b = Some token -> Js.truthy token = true ->
  getUser w token = Some u ->
  polls_ok (db w) -> In poll (polls (db w)) -> poll_id poll = id ->
  poll_created_by poll = u -> quiet 2 w ->
  let r := PollActions.deletePoll b id w in
  fst r = inr (Resolved JSuccess)
  /\ db (snd r) = delete_polls (db w) id
  /\ has_poll (db (snd r)) id = false.
Proof.
  intros Ht Htr Hu Hok Hin Hid Hown Hq r.
  assert (r = (inr (Resolved JSuccess),
               sent (sent w (Select "polls") (db w)) (Delete "polls")
                 (delete_polls (db w) id))) as Er.
  { unfold r, PollActions.deletePoll, PollActions.with_token.
    rewrite Ht, Htr. unfold bind.
    rewrite (route_DELETE_owner 0 _ u id poll w
               (header_user token u (sb_access_token b) w Hu)
               Hok Hin Hid Hown Hq).
    reflexivity. }
  rewrite Er. cbn [fst snd db sent].
  split; [reflexivity|]. split; [reflexivity|].
  apply delete_polls_rows. rewrite <- Hid. apply has_poll_In. exact Hin.
Qed.

Lemma client_deletePoll_by_bearer_witness :
  (getUser example_world_voted "t1" = Some "u1"
   /\ In example_poll (polls (db example_world_voted)))
  /\ let r := PollActions.deletePoll (mkBrowser (Some "t1") (Some "t2")) "p1"
                example_world_voted in
     fst r = inr (Resolved JSuccess)
     /\ polls (db (snd r)) = [] /\ votes (db (snd r)) = [].
Proof.
  split; [split; [reflexivity|left; reflexivity]|].
  assert (polls_ok (db example_world_voted)) as Hok
    by (unfold polls_ok; nodup_keys).
  destruct (client_deletePoll_by_bearer (mkBrowser (Some "t1") (Some "t2"))
              "t1" "u1" "p1" example_poll example_world_voted
              eq_refl eq_refl eq_refl Hok (or_introl eq_refl) eq_refl eq_refl
              eq_refl) as [H1 [H2 _]].
  cbv zeta. split; [exact H1|]. rewrite H2. split; reflexivity.
Defined.

(** ** The edit form *)

(** X23.  [removeOption] never leaves the form with fewer than two
    options: with two options it does nothing, and with more it
    removes the option at the index and keeps the others in their order.
    [addOption] appends one option with an empty text and an id that the
    PATCH handler takes for a new option. *)
Theorem removeOption_keeps_two (options : list EditOption) (index : nat) :
  2 <= List.length options ->
  2 <= List.length (EditPollPage.removeOption options index)
  /\ (List.length options = 2 ->
      EditPollPage.removeOption options index = options)
  /\ (2 < List.length options -> index < List.length options ->
      List.length (EditPollPage.removeOption options index)
      = List.length options - 1
      /\ forall i,
           nth_error (EditPollPage.removeOption options index) i
           = nth_error options (if (i <? index)%nat then i else S i))
  /\ (forall t,
         exists o,
           EditPollPage.addOption t options = options ++ [o]
           /\ eo_text o = ""
           /\ Js.truthy (eo_id o) && Js.startsWith "new-" (eo_id o) = true).
Proof.
  intros H2. unfold EditPollPage.removeOption.
  assert (forall i,
             nth_error (firstn index options ++ skipn (S index) options) i
             = if (i <? index)%nat then nth_error options i
               else if (i <? List.length options)%nat
                    then nth_error options (S i) else None) as Hnth.
  { intros i. destruct (i <? index)%nat eqn:E.
    - apply Nat.ltb_lt in E.
      destruct (Nat.lt_ge_cases i (List.length options)) as [Hi|Hi].
      + rewrite nth_error_app1
          by (rewrite length_firstn; lia).
        rewrite nth_error_firstn.
        apply Nat.ltb_lt in E. rewrite E. reflexivity.
      + rewrite (proj2 (nth_error_None options i)) by lia.
        apply nth_error_None. rewrite length_app, length_firstn,
          length_skipn. lia.
    - apply Nat.ltb_ge in E.
      destruct (i <? List.length options)%nat eqn:E'.
      + apply Nat.ltb_lt in E'.
        rewrite nth_error_app2 by (rewrite length_firstn; lia).
        rewrite length_firstn, nth_error_skipn. f_equal. lia.
      + apply Nat.ltb_ge in E'. apply nth_error_None.
        rewrite length_app, length_firstn, length_skipn. lia. }
  split; [|split; [|split]].
  - destruct (List.length options <=? 2)%nat eqn:E; [exact H2|].
    apply Nat.leb_gt in E.
    rewrite length_app, length_firstn, length_skipn. lia.
  - intros E. rewrite E. reflexivity.
  - intros Hgt Hi.
    assert ((List.length options <=? 2)%nat = false) as E
      by (apply Nat.leb_gt; exact Hgt).
    rewrite E. split.
    + rewrite length_app, length_firstn, length_skipn. lia.
    + intros i. rewrite Hnth. destruct (i <? index)%nat; [reflexivity|].
      destruct (i <? List.length options)%nat eqn:E'; [reflexivity|].
      apply Nat.ltb_ge in E'. symmetry. apply nth_error_None. lia.
  - intros t. eexists. split; [reflexivity|]. split; reflexivity.
Qed.

Lemma removeOption_keeps_two_witness :
  2 <= List.length (edit_options example_edit)
  /\ EditPollPage.removeOption (edit_options example_edit) 0
     = edit_options example_edit
  /\ map eo_id
       (EditPollPage.removeOption
          (EditPollPage.addOption 1000 (edit_options example_edit)) 0)
     = ["new-1"; "new-1000"].
Proof.
  assert (2 <= List.length (edit_options example_edit)) as H by (cbn; lia).
  split; [exact H|]. split; [|reflexivity].
  apply (removeOption_keeps_two (edit_options example_edit) 0 H).
  reflexivity.
Defined.

Lemma updatedOptionIds_with_ids (options : list EditOption) :
  Route.updatedOptionIds
    (map (fun opt => mkPatchOption (Some (eo_id opt)) (eo_text opt)) options)
  = inr (filter (fun oid => negb (Js.startsWith "new-" oid))
           (map eo_id options)).
Proof.
  unfold Route.updatedOptionIds.
  assert (forallb (fun o => match po_id o with
                            | Some _ => true
                            | None => false
                            end)
            (map (fun opt => mkPatchOption (Some (eo_id opt)) (eo_text opt))
               options) = true) as F.
  { apply forallb_forall. intros o Ho. apply in_map_iff in Ho.
    destruct Ho as [x [<- _]]. reflexivity. }
  rewrite F.
  assert (flat_map (fun o => match po_id o with
                             | Some oid => [oid]
                             | None => []
                             end)
            (map (fun opt => mkPatchOption (Some (eo_id opt)) (eo_text opt))
               options)
          = map eo_id options) as E.
  { clear F. induction options as [|x r IH]; cbn [map flat_map po_id app];
      [reflexivity|]. rewrite IH. reflexivity. }
  rewrite E. reflexivity.
Qed.

(** X24.  What the edit form submits once [validateForm] has found no
    error suits the PATCH handler: the title is not blank; at least two
    options are sent, each with an id and a text that is not blank, so
    that the handler does not fail on a missing id; and neither
    [isActive] nor [expiresAt] is part of the body. *)
Theorem edit_form_payload_suits_PATCH
  (title description : string) (options : list EditOption) :
  EditPollPage.validateForm title options = [] ->
  let b := EditPollPage.pollData title description options in
  exists sent_options,
    body_options b = Some sent_options
    /\ 2 <= List.length sent_options
    /\ Forall (fun o => exists oid, po_id o = Some oid
                                    /\ Js.trim (po_text o) <> "")
         sent_options
    /\ Route.updatedOptionIds sent_options
       = inr (filter (fun oid => negb (Js.startsWith "new-" oid))
                (map eo_id (EditPollPage.validOptions options)))
    /\ body_title b = Some title /\ Js.trim title <> ""
    /\ body_isActive b = None /\ body_expiresAt b = None.
Proof.
  intros H b. unfold EditPollPage.validateForm in H.
  apply app_eq_nil in H. destruct H as [Ht Ho].
  exists (map (fun opt => mkPatchOption (Some (eo_id opt)) (eo_text opt))
            (EditPollPage.validOptions options)).
  split; [reflexivity|]. split; [|split; [|split; [|split; [|split]]]].
  - rewrite length_map.
    destruct (List.length (EditPollPage.validOptions options) <? 2)%nat
      eqn:E; [discriminate Ho|]. apply Nat.ltb_ge in E. exact E.
  - apply Forall_forall. intros o Hin. apply in_map_iff in Hin.
    destruct Hin as [x [<- Hx]]. exists (eo_id x). split; [reflexivity|].
    unfold EditPollPage.validOptions in Hx. apply filter_In in Hx.
    destruct Hx as [_ Hx]. apply negb_true_iff in Hx.
    apply String.eqb_neq in Hx. exact Hx.
  - apply updatedOptionIds_with_ids.
  - reflexivity.
  - destruct (Js.trim title); [discriminate Ht|discriminate].
  - split; reflexivity.
Qed.

Lemma edit_form_payload_suits_PATCH_witness :
  EditPollPage.validateForm "Favorite colour?"
    [mkEditOption "red" "Red"; mkEditOption "blue" " ";
     mkEditOption "new-7" "Green"]
  = []
  /\ body_options
       (EditPollPage.pollData "Favorite colour?" ""
          [mkEditOption "red" "Red"; mkEditOption "blue" " ";
           mkEditOption "new-7" "Green"])
     = Some [mkPatchOption (Some "red") "Red";
             mkPatchOption (Some "new-7") "Green"]
  /\ Route.updatedOptionIds
       [mkPatchOption (Some "red") "Red";
        mkPatchOption (Some "new-7") "Green"]
     = inr ["red"].
Proof.
  split; [reflexivity|].
  destruct (edit_form_payload_suits_PATCH "Favorite colour?" ""
              [mkEditOption "red" "Red"; mkEditOption "blue" " ";
               mkEditOption "new-7" "Green"] eq_refl)
    as [sent_options [H1 [_ [_ [H2 _]]]]].
  cbv zeta in H1. split; [reflexivity|].
  assert (sent_options
          = [mkPatchOption (Some "red") "Red";
             mkPatchOption (Some "new-7") "Green"]) as E
    by (cbn in H1; inversion H1; reflexivity).
  rewrite <- E, H2. reflexivity.
Defined.

(** ** The three answers of [fetchPollById] *)

Lemma quiet_1 (w : world) : next_fault w = false -> quiet 1 w.
Proof.
  unfold next_fault, quiet. destruct (faults w) as [|[] r]; cbn;
    [reflexivity|discriminate|reflexivity].
Qed.

(** X25.  With the primary key of [polls] in force, [fetchPollById]
    answers in one of three ways.  When the store refuses the lookup:
    FETCH_ERROR.  When it serves it and the poll with that id has
    [is_active] true: success with the row, the options of the poll, the
    count of its votes and the profile of its creator.  When it serves it
    and no poll with that id has [is_active] true (no such poll, or a
    switched-off one): POLL_NOT_FOUND. *)
Theorem fetchPollById_outcomes (clk : clock) (id : string) (w : world) :
  polls_ok (db w) ->
  (next_fault w = true ->
   outcome_code (fst (PollService.fetchPollById clk id w))
   = Some "FETCH_ERROR")
  /\ (next_fault w = false ->
      forall p, In p (polls (db w)) -> poll_id p = id ->
                poll_is_active p = true ->
                fst (PollService.fetchPollById clk id w)
                = inr (ApiSuccess (embed true (db w) p) (now clk)))
  /\ (next_fault w = false -> switched_off (db w) id ->
      outcome_code (fst (PollService.fetchPollById clk id w))
      = Some "POLL_NOT_FOUND").
Proof.
  intros Hok. split; [|split].
  - intros Hn.
    change (wp (PollService.fetchPollById clk id)
              (fun r _ => outcome_code r = Some "FETCH_ERROR") w).
    wp_seq. apply wp_query; [|congruence]. intros _. cbn [single].
    wp_seq. reflexivity.
  - intros Hn p Hin Hid Ha.
    destruct (fetchPollById_active 0 clk id p w Hok Hin Hid Ha (quiet_1 w Hn))
      as [E _].
    rewrite E. reflexivity.
  - intros Hn Hoff.
    pose proof (fetchPollById_switched_off clk id w Hoff) as H.
    unfold wp in H. apply H. exact Hn.
Qed.

Lemma fetchPollById_outcomes_witness :
  polls_ok (db example_world)
  /\ succeeded (fst (PollService.fetchPollById example_clock "p1"
                       example_world)) = true
  /\ outcome_code
       (fst (PollService.fetchPollById example_clock "p1"
               example_world_closed))
     = Some "POLL_NOT_FOUND"
  /\ outcome_code
       (fst (PollService.fetchPollById example_clock "p1"
               (mkWorld example_db example_sessions [true] [])))
     = Some "FETCH_ERROR".
Proof.
  assert (polls_ok example_db) as Hok by (unfold polls_ok; nodup_keys).
  assert (polls_ok example_db_closed) as Hok'
    by (unfold polls_ok; nodup_keys).
  split; [exact Hok|].
  destruct (fetchPollById_outcomes example_clock "p1" example_world Hok)
    as [_ [H1 _]].
  destruct (fetchPollById_outcomes example_clock "p1" example_world_closed
              Hok') as [_ [_ H2]].
  destruct (fetchPollById_outcomes example_clock "p1"
              (mkWorld example_db example_sessions [true] []) Hok)
    as [H3 _].
  split; [|split].
  - rewrite (H1 eq_refl example_poll (or_introl eq_refl) eq_refl eq_refl).
    reflexivity.
  - apply H2; [reflexivity|].
    intros p [<-|[]] _. reflexivity.
  - apply H3. reflexivity.
Defined.

(** ** A first vote through the service *)

Lemma has_vote_false_votes_of (d : database) (u p : string) :
  has_vote d u p = false -> votes_of d u p = [].
Proof.
  intros H. unfold votes_of. apply filter_none. intros v Hv.
  destruct (_ && _) eqn:E; [|reflexivity].
  assert (has_vote d u p = true) as Ht; [|congruence].
  unfold has_vote. apply existsb_exists. exists v. auto.
Qed.

(** X26.  [castVote] of the service, for a user with a profile who has no
    vote on the poll yet, on a poll whose [is_active] is true and whose
    expiry, if any, is not before [now], for an option of that poll, while
    the store serves the five requests: the answer is success with the
    poll as read back; the [votes] table has one more row, under a fresh
    id, for that poll, option and user; the count of votes that the answer
    embeds is one more than before; nothing else changes. *)
Theorem castVote_records_first_vote
  (clk : clock) (credential : option string) (u p o : string) (poll : Poll)
  (w : world) :
  session_user w credential = Some u -> has_profile (db w) u = true ->
  polls_ok (db w) -> options_ok (db w) ->
  In poll (polls (db w)) -> poll_id poll = p -> poll_is_active poll = true ->
  (forall e, poll_expires_at poll = Some e -> (now clk <= e)%Z) ->
  (exists x, In x (poll_options (db w))
             /\ option_id x = o /\ option_poll_id x = p) ->
  has_vote (db w) u p = false -> quiet 5 w ->
  let r := PollService.castVote clk credential p o w in
  let d' := db (snd r) in
  exists id,
    fst r = inr (ApiSuccess (true, embed true d' poll) (now clk))
    /\ ~ In id (map vote_id (votes (db w)))
    /\ votes d' = votes (db w) ++ [mkVote id p o u (now clk)]
    /\ polls d' = polls (db w)
    /\ poll_options d' = poll_options (db w)
    /\ profiles d' = profiles (db w)
    /\ pr_votes (embed true d' poll) = S (pr_votes (embed true (db w) poll)).
Proof.
  intros Hu Hprof Hok Hopt Hin Hid Ha Hexp [x [Hx [Hxo Hxp]]] Hnv Hq r d'.
  unfold session_user in Hu.
  set (vid := uuid_generate_v4 (map vote_id (votes (db w)))).
  set (d1 := set_votes (db w) (votes (db w) ++ [mkVote vid p o u (now clk)])).
  assert (insert_vote (db w) p o u (now clk) = SqlOk (vid, d1)) as Ei.
  { unfold insert_vote. rewrite Hnv, Hprof.
    rewrite <- Hid at 1. rewrite (has_poll_In _ _ Hin).
    rewrite <- Hxo at 1. rewrite (has_option_In _ _ Hx). reflexivity. }
  assert (match poll_expires_at poll with
          | Some e => (e <? now clk)%Z
          | None => false
          end = false) as He.
  { destruct (poll_expires_at poll) as [e|]; [|reflexivity].
    apply Z.ltb_ge. apply Hexp. reflexivity. }
  pose proof (select_active_row (db w) p poll Hok Hin Hid) as Hsel.
  rewrite Ha in Hsel.
  exists vid.
  cut (r = (inr (ApiSuccess (true, embed true d1 poll) (now clk)),
            mkWorld d1 (sessions w) (tl (tl (tl (tl (tl (faults w))))))
              (log w ++ [Select "polls"; Select "poll_options";
                         Select "votes"; Insert "votes"; Select "polls"]))).
  { intros Er. unfold d'. rewrite Er. cbn [fst snd db].
    split; [reflexivity|]. split; [apply uuid_generate_v4_fresh|].
    do 4 (split; [reflexivity|]).
    cbn [embed pr_votes d1 votes set_votes].
    rewrite filter_app, length_app. cbn [filter vote_poll_id].
    rewrite Hid, String.eqb_refl. cbn [List.length]. lia. }
  apply wp_eq. unfold r.
  wp_seq. rewrite Hu. wp_seq.
  wp_read Hq. rewrite Hsel. wp_seq. cbn [single]. rewrite He. wp_seq.
  wp_read Hq. cbn [db sent].
  rewrite (select_option_row _ _ _ _ Hopt Hx Hxo Hxp). cbn [single]. wp_seq.
  wp_read Hq. cbn [db sent].
  rewrite votes_of_hit, (has_vote_false_votes_of _ _ _ Hnv). cbn [single].
  wp_seq.
  eapply (wp_request_known 1); [exact Hq|exact Ei|].
  clear Hq; intros Hq. cbv beta iota. wp_seq.
  wp_read Hq. cbn [db sent].
  rewrite (select_active_row d1 p poll Hok Hin Hid), Ha. cbn [map single].
  wp_seq. cbn [createSuccessResponse]. wp_seq.
  unfold sent. cbn [db sessions faults log]. rewrite <- !app_assoc.
  split; reflexivity.
Qed.

Lemma castVote_records_first_vote_witness :
  (session_user example_world_voted (Some "t3") = Some "u3"
   /\ has_vote (db example_world_voted) "u3" "p1" = false
   /\ quiet 5 example_world_voted)
  /\ let r := PollService.castVote example_clock (Some "t3") "p1" "blue"
                example_world_voted in
     succeeded (fst r) = true
     /\ map vote_user_id (votes (db (snd r))) = ["u2"; "u3"]
     /\ map vote_option_id (votes (db (snd r))) = ["red"; "blue"].
Proof.
  split; [repeat split|].
  assert (polls_ok (db example_world_voted)) as Hok
    by (unfold polls_ok; nodup_keys).
  assert (options_ok (db example_world_voted)) as Hopt
    by (unfold options_ok; nodup_keys).
  destruct (castVote_records_first_vote example_clock (Some "t3") "u3" "p1"
              "blue" example_poll example_world_voted eq_refl eq_refl Hok
              Hopt (or_introl eq_refl) eq_refl eq_refl)
    as [id [H1 [_ [H2 _]]]].
  - intros e E. discriminate E.
  - exists (mkPollOption "blue" "p1" "Blue" 10 10).
    split; [right; left; reflexivity|split; reflexivity].
  - reflexivity.
  - reflexivity.
  - cbv zeta. split; [rewrite H1; reflexivity|].
    rewrite H2, !map_app. split; reflexivity.
Defined.

(** ** What [updatePoll] of the service answers *)

(** X27.  [updatePoll] of the service answers UNKNOWN_ERROR to every
    call, whoever calls it with whatever form, and sends no request to
    the store: without a user [requireAuth] throws, and for a user the
    call of [validateEditPollFormData], a name that the module does not
    import, throws before the lookup of the poll.  The [catch] block
    takes either error for an unexpected one. *)
Theorem updatePoll_always_unknown_error
  (clk : clock) (credential : option string) (id : string)
  (data : EditPollFormData) (w : world) :
  PollService.updatePoll clk credential id data w
  = (inr (createErrorResponse clk
            "An unexpected error occurred while updating the poll"
            (Some "UNKNOWN_ERROR") None), w).
Proof.
  apply wp_eq. wp_seq.
  destruct (match credential with
            | Some token => getUser w token
            | None => None
            end); wp_seq; cbn; split; reflexivity.
Qed.

(** ** A poll created through the route *)

(** X28.  [POST /api/polls] asks for a title that is not the empty string
    and for two options or more, and for nothing else.  Sent with the
    bearer token of a user with a profile while the store serves the two
    inserts, such a request is answered 200 with the new poll and its
    options; the title and the option texts are stored as sent, untrimmed,
    an empty description is stored as NULL, and [createPoll] of the
    browser client resolves to that answer. *)
Theorem polls_POST_stores_request_as_sent
  (clk : clock) (token u : string) (ck : option string)
  (b : CreatePollRequest) (w : world) :
  Js.truthy (req_title b) = true -> 2 <= List.length (req_options b) ->
  Js.truthy token = true -> getUser w token = Some u ->
  has_profile (db w) u = true -> quiet 2 w ->
  let r := PollsRoute.POST clk
             (mkCredentials (Some ("Bearer " ++ token)%string) ck) b w in
  let d' := db (snd r) in
  exists row rows,
    fst r = inr (mkHttpResponse 200 (JCreated row rows))
    /\ row = mkPoll (poll_id row) (req_title b)
               (match req_description b with
                | Some t => if Js.truthy t then Some t else None
                | None => None
                end)
               true u (now clk) (req_expiresAt b) (now clk)
    /\ ~ In (poll_id row) (map poll_id (polls (db w)))
    /\ polls d' = polls (db w) ++ [row]
    /\ poll_options d' = poll_options (db w) ++ rows
    /\ map option_text rows = req_options b
    /\ Forall (fun o => option_poll_id o = poll_id row) rows
    /\ votes d' = votes (db w)
    /\ profiles d' = profiles (db w)
    /\ PollActions.createPoll clk (mkBrowser (Some token) ck) b w
       = (inr (Resolved (JCreated row rows)), snd r).
Proof.
  intros Ht Hn Htok Hu Hprof Hq r d'.
  set (dsc := match req_description b with
              | Some t => if Js.truthy t then Some t else None
              | None => None
              end).
  set (row := mkPoll (uuid_generate_v4 (map poll_id (polls (db w))))
                (req_title b) dsc true u (now clk) (req_expiresAt b)
                (now clk)).
  set (d1 := set_polls (db w) (polls (db w) ++ [row])).
  assert (insert_poll (db w) (req_title b) dsc u (req_expiresAt b) true
            (now clk) = SqlOk (row, d1)) as Ei
    by (unfold insert_poll; rewrite Hprof; reflexivity).
  assert (In row (polls d1)) as Hrow
    by (cbn [d1 polls set_polls]; apply in_or_app; right; left; reflexivity).
  destruct (insert_poll_options_stores
              (map (fun text => (poll_id row, text)) (req_options b))
              (now clk) d1) as [rows [Eo Erows]].
  { intros x Hx. apply in_map_iff in Hx. destruct Hx as [o [<- _]].
    cbn [fst]. apply has_poll_In. exact Hrow. }
  set (d2 := set_poll_options d1 (poll_options d1 ++ rows)) in *.
  exists row, rows.
  assert (r = (inr (mkHttpResponse 200 (JCreated row rows)),
               sent (sent w (Insert "polls") d1) (Insert "poll_options") d2))
    as Er.
  { apply wp_eq. unfold r, PollsRoute.POST. wp_seq. rewrite Ht.
    assert ((List.length (req_options b) <? 2)%nat = false) as Hlen
      by (apply Nat.ltb_ge; exact Hn).
    rewrite Hlen. cbn [negb orb authorization].
    destruct (bearer_round_trip token) as [H1 [H2 H3]].
    rewrite H1, H2. cbn [andb]. rewrite H3, Htok. cbn [negb]. wp_seq.
    unfold wp at 1, Route.token_user. cbn [fst snd]. rewrite Hu.
    wp_seq. fold dsc.
    eapply (wp_request_known 1); [exact Hq|rewrite Ei; reflexivity|].
    clear Hq; intros Hq. cbv beta iota. cbn [single]. wp_seq.
    eapply (wp_request_known 0); [exact Hq|exact Eo|].
    intros _. cbv beta iota. wp_seq. split; reflexivity. }
  unfold d'. rewrite Er. cbn [fst snd db sent].
  split; [reflexivity|]. split; [reflexivity|].
  split; [apply uuid_generate_v4_fresh|].
  split; [reflexivity|]. split; [reflexivity|]. split.
  { apply (f_equal (map snd)) in Erows. rewrite !map_map in Erows.
    cbn [snd] in Erows. rewrite map_id in Erows. exact Erows. }
  split.
  { apply (f_equal (map fst)) in Erows. rewrite !map_map in Erows.
    cbn [fst] in Erows. apply Forall_forall. intros o Ho.
    assert (In (option_poll_id o)
              (map (fun x : PollOption => option_poll_id x) rows)) as Hin
      by (apply in_map; exact Ho).
    rewrite Erows in Hin. apply in_map_iff in Hin.
    destruct Hin as [x [E _]]. congruence. }
  split; [reflexivity|]. split; [reflexivity|].
  unfold PollActions.createPoll, PollActions.with_token.
  cbn [auth_token sb_access_token]. rewrite Htok. unfold bind.
  fold r. rewrite Er. reflexivity.
Qed.

Lemma polls_POST_stores_request_as_sent_witness :
  (match validateCreatePollRequest example_clock
           (mkCreatePollRequest "  " (Some "") [""; ""] None) with
   | inl _ => true
   | inr _ => false
   end = true
   /\ getUser example_world "t1" = Some "u1"
   /\ quiet 2 example_world)
  /\ let r := PollsRoute.POST example_clock
                (mkCredentials (Some ("Bearer " ++ "t1")%string) None)
                (mkCreatePollRequest "  " (Some "") [""; ""] None)
                example_world in
     http_status (fst r) = Some 200
     /\ map poll_title (polls (db (snd r))) = ["Favorite color?"; "  "]
     /\ map option_text (poll_options (db (snd r)))
        = ["Red"; "Blue"; ""; ""].
Proof.
  split; [repeat split|].
  destruct (polls_POST_stores_request_as_sent example_clock "t1" "u1" None
              (mkCreatePollRequest "  " (Some "") [""; ""] None)
              example_world eq_refl (le_n 2) eq_refl eq_refl eq_refl eq_refl)
    as [row [rows [H1 [H2 [_ [H3 [H4 [H5 _]]]]]]]].
  cbv zeta. split; [rewrite H1; reflexivity|]. split.
  - rewrite H3, map_app, H2. reflexivity.
  - rewrite H4, map_app, H5. reflexivity.
Defined.
